(** * TypeScript Class Organizer: the VS Code host glue ([src/extension.ts])

    A shallow embedding of the extension's host layer: file filtering,
    configuration discovery, the [organize] command and the save hook.
    JavaScript strings are [string]s (a character stands for a code unit),
    the editor and the file system are an explicit [World] threaded through
    a small state-and-exception monad, and every call of an external
    collaborator leaves an [Event] in the world's trace.

    The collaborators that [extension.ts] imports (the glob library, the
    path helpers, the configuration loader, the organizer) are an interface,
    [Host]. Two of them are also given a model of their own, following the
    specification: the parent directory of a path ([Posix.dirname]) and the
    organizer ([Core], over any parser, and [Organizer], with a parser that
    reads the text line by line). A concrete host ([Demo]) runs everything
    on a small workspace. *)

From Stdlib Require Import String Ascii List Bool Arith Lia DecimalString Sorted.
Import ListNotations.
Local Open Scope string_scope.
Local Open Scope list_scope.

Set Implicit Arguments.

(* ===================================================================== *)
(** ** JavaScript strings *)
(* ===================================================================== *)

Module JsString.

(** [s.replaceAll(pat, rep)] for a non-empty [pat]: one scan from the left,
    occurrences do not overlap and replaced text is never scanned again.
    [skip] counts the characters of a matched occurrence still to drop. *)
Fixpoint replaceAll_from (pat rep : string) (skip : nat) (s : string) : string :=
  match s with
  | EmptyString => EmptyString
  | String c s' =>
      match skip with
      | S k => replaceAll_from pat rep k s'
      | O =>
          if String.prefix pat s
          then rep ++ replaceAll_from pat rep (String.length pat - 1) s'
          else String c (replaceAll_from pat rep 0 s')
      end
  end.

Definition replaceAll (s pat rep : string) : string :=
  replaceAll_from pat rep 0 s.

(** [a !== b] on two strings. *)
Definition strict_neq (a b : string) : bool := negb (String.eqb a b).

(** Truthiness of a string: only the empty string is falsy. *)
Definition truthy (s : string) : bool :=
  match s with EmptyString => false | _ => true end.

(** [`${b}`] for a boolean. *)
Definition of_bool (b : bool) : string := if b then "true" else "false".

End JsString.

(* ===================================================================== *)
(** ** Text documents, positions and ranges (the slice of the editor API
       that the extension uses) *)
(* ===================================================================== *)

Module Doc.

Definition LF : ascii := ascii_of_nat 10.
Definition CR : ascii := ascii_of_nat 13.

(** A line of a document: its text without the terminator, and the length
    of the terminator that follows it (0 on the last line, 1 for LF or CR,
    2 for CR LF). *)
Record Line := mkLine { line_text : string; line_eol : nat }.

Definition push_char (c : ascii) (ls : list Line) : list Line :=
  match ls with
  | l :: rest => mkLine (String c (line_text l)) (line_eol l) :: rest
  | [] => [mkLine (String c EmptyString) 0]
  end.

Fixpoint splitLines (s : string) : list Line :=
  match s with
  | EmptyString => [mkLine EmptyString 0]
  | String c s' =>
      if Ascii.eqb c LF then mkLine EmptyString 1 :: splitLines s'
      else if Ascii.eqb c CR then
        match s' with
        | String c' s'' =>
            if Ascii.eqb c' LF then mkLine EmptyString 2 :: splitLines s''
            else mkLine EmptyString 1 :: splitLines s'
        | EmptyString => mkLine EmptyString 1 :: splitLines s'
        end
      else push_char c (splitLines s')
  end.

Record Position := mkPosition { pos_line : nat; pos_character : nat }.
Record Range := mkRange { range_start : Position; range_end : Position }.

(** [TextEdit.replace(range, newText)]. *)
Record TextEdit := mkTextEdit { edit_range : Range; edit_newText : string }.

Record TextDocument := mkTextDocument {
  doc_fsPath : string;        (* document.uri.fsPath *)
  doc_languageId : string;    (* document.languageId *)
  doc_text : string           (* document.getText() *)
}.

Definition getText (d : TextDocument) : string := doc_text d.
Definition lineCount (d : TextDocument) : nat := List.length (splitLines (doc_text d)).
Definition lineAt (d : TextDocument) (i : nat) : string :=
  line_text (nth i (splitLines (doc_text d)) (mkLine EmptyString 0)).

(** [document.offsetAt(position)]: the position is clamped to the document. *)
Fixpoint offsetIn (ls : list Line) (line character : nat) : nat :=
  match ls with
  | [] => 0
  | l :: rest =>
      match line, rest with
      | O, _ => Nat.min character (String.length (line_text l))
      | S _, [] => String.length (line_text l)
      | S k, _ :: _ => String.length (line_text l) + line_eol l + offsetIn rest k character
      end
  end.

Definition offsetAt (text : string) (p : Position) : nat :=
  offsetIn (splitLines text) (pos_line p) (pos_character p).

Definition take (n : nat) (s : string) : string := String.substring 0 n s.
Definition drop (n : nat) (s : string) : string :=
  String.substring n (String.length s - n) s.

(** The text of a document after replacing [r] by [newText]. *)
Definition replaceRange (text : string) (r : Range) (newText : string) : string :=
  take (offsetAt text (range_start r)) text
    ++ newText
    ++ drop (offsetAt text (range_end r)) text.

(** The range the extension builds before every replacement:
    [new Range(new Position(0, 0),
               new Position(lineCount - 1, lineAt(lineCount - 1).text.length))]. *)
Definition wholeRange (d : TextDocument) : Range :=
  mkRange (mkPosition 0 0)
          (mkPosition (lineCount d - 1)
                      (String.length (lineAt d (lineCount d - 1)))).

(** The characters covered by a list of lines, terminators included. *)
Fixpoint extent (ls : list Line) : nat :=
  match ls with
  | [] => 0
  | l :: rest => String.length (line_text l) + line_eol l + extent rest
  end.

(** The last line has no terminator. *)
Definition endsOpen (ls : list Line) : Prop :=
  line_eol (last ls (mkLine "" 0)) = 0 /\ ls <> [].

End Doc.

(* ===================================================================== *)
(** ** The world the extension runs in *)
(* ===================================================================== *)

(** What a rejected promise carries. *)
Inductive Exn :=
| ParseError (message : string)
| IoError (path : string).

(** The settings object ([Settings.getSettings()]). *)
Record Settings := mkSettings {
  organizeOnSave : bool;
  configurationFilePath : option string     (* [None] is [null] *)
}.

(** Calls that leave the extension, in the order they are made
    (most recent first). *)
Inductive Event :=
| EvLog (message : string)
| EvOrganizeSourceCode (filePath sourceCode : string)
| EvShowTextDocument (filePath : string)
| EvApplyEdit (fsPath : string) (range : Doc.Range) (newText : string).

Record World := mkWorld {
  settings : Settings;
  workspaceFolders : option (list string);  (* fsPath of each folder, or undefined *)
  fs : string -> option string;             (* regular files and their text *)
  visibleTextEditors : list Doc.TextDocument;
  trace : list Event
}.

(** The collaborators whose code is not part of [extension.ts]: the glob
    library, the path helpers, the configuration loader and the organizer
    itself. The host code is written against this interface. *)
Class Host := {
  Configuration : Type;
  files_include : Configuration -> list string;   (* configuration.files.include *)
  files_exclude : Configuration -> list string;   (* configuration.files.exclude *)
  globToRegExp_test : string -> string -> bool;   (* globToRegExp(pattern).test(text) *)
  getFullPath : string -> string;
  getDirectoryPath : string -> string;
  joinPath : string -> string -> string;
  getRelativePath : string -> string -> string;
  toLowerCase : string -> string;
  languageIdOf : string -> string;                (* language of a freshly opened document *)
  Configuration_getConfiguration : (string -> option string) -> string -> Configuration;
  Configuration_getDefaultConfiguration : Configuration;
  organizeSourceCode : string -> string -> Configuration -> Exn + string
}.

(** *** Promises: state, exceptions, and a loop that may not have settled *)

Inductive Outcome (A : Type) :=
| Returned (a : A)
| Thrown (e : Exn)
| Pending.                   (* the loop bound was reached *)

Arguments Returned {A} a.
Arguments Thrown {A} e.
Arguments Pending {A}.

Definition M (A : Type) : Type := World -> Outcome A * World.

Definition ret {A} (a : A) : M A := fun w => (Returned a, w).
Definition throw {A} (e : Exn) : M A := fun w => (Thrown e, w).
Definition pending {A} : M A := fun w => (Pending, w).
Definition bind {A B} (m : M A) (k : A -> M B) : M B :=
  fun w =>
    match m w with
    | (Returned a, w') => k a w'
    | (Thrown e, w') => (Thrown e, w')
    | (Pending, w') => (Pending, w')
    end.
Definition gets {A} (f : World -> A) : M A := fun w => (Returned (f w), w).
Definition emit (e : Event) : M unit :=
  fun w => (Returned tt,
            mkWorld (settings w) (workspaceFolders w) (fs w)
                    (visibleTextEditors w) (e :: trace w)).

Declare Scope host_scope.
Delimit Scope host_scope with host.
Notation "x <- c ;; k" := (bind c (fun x => k))
  (at level 61, c at next level, right associativity) : host_scope.
Notation "c ;; k" := (bind c (fun _ => k))
  (at level 61, right associativity) : host_scope.
Local Open Scope host_scope.

(** *** External calls *)

Definition log (message : string) : M unit := emit (EvLog message).

Definition isFile (w : World) (path : string) : bool :=
  match fs w path with Some _ => true | None => false end.

Definition fileExists (path : string) : M bool :=
  gets (fun w => isFile w path).

Definition readFile (path : string) : M string :=
  fun w => match fs w path with
           | Some text => (Returned text, w)
           | None => (Thrown (IoError path), w)
           end.

Definition mapDocuments (f : Doc.TextDocument -> Doc.TextDocument) (w : World) : World :=
  mkWorld (settings w) (workspaceFolders w) (fs w)
          (map f (visibleTextEditors w)) (trace w).

(** What replacing a range in the document at [fsPath] does to one open
    document. *)
Definition edited (fsPath : string) (r : Doc.Range) (newText : string)
    (d : Doc.TextDocument) : Doc.TextDocument :=
  if String.eqb (Doc.doc_fsPath d) fsPath
  then Doc.mkTextDocument (Doc.doc_fsPath d) (Doc.doc_languageId d)
         (Doc.replaceRange (Doc.doc_text d) r newText)
  else d.

(** [workspace.applyEdit] of a [WorkspaceEdit] holding one
    [replace(uri, range, newText)]: the document with that uri gets the range
    replaced. *)
Definition applyEdit (fsPath : string) (r : Doc.Range) (newText : string) : M unit :=
  emit (EvApplyEdit fsPath r newText) ;;
  fun w => (Returned tt, mapDocuments (edited fsPath r newText) w).

(* ===================================================================== *)
(** ** The functions of [extension.ts] *)
(* ===================================================================== *)

(** [string | undefined | null] *)
Inductive MaybePath :=
| undefined
| null
| path (s : string).

(** [vscode.TextDocumentSaveReason] and its reverse mapping to names. *)
Inductive TextDocumentSaveReason := Manual | AfterDelay | FocusOut.

Definition TextDocumentSaveReason_name (r : TextDocumentSaveReason) : string :=
  match r with
  | Manual => "Manual"
  | AfterDelay => "AfterDelay"
  | FocusOut => "FocusOut"
  end.

(** [vscode.TextDocumentWillSaveEvent] *)
Record TextDocumentWillSaveEvent := mkWillSave {
  event_document : Doc.TextDocument;
  event_reason : TextDocumentSaveReason
}.

(** The value [shouldOrganizeFile] returns. *)
Record FileCheck := mkFileCheck {
  shouldOrganize : bool;
  reason : option string
}.

Definition show_reason (r : option string) : string :=
  match r with Some s => s | None => "undefined" end.

Section Extension.

Context {H : Host}.

(** The call [SourceCodeOrganizer.organizeSourceCode(path, text, configuration)]. *)
Definition SourceCodeOrganizer_organizeSourceCode
    (filePath sourceCode : string) (configuration : Configuration) : M string :=
  emit (EvOrganizeSourceCode filePath sourceCode) ;;
  match organizeSourceCode filePath sourceCode configuration with
  | inl e => throw e
  | inr text => ret text
  end.

(** [vscode.workspace.openTextDocument] followed by [showTextDocument]. *)
Definition showTextDocument (filePath : string) : M Doc.TextDocument :=
  text <- readFile filePath ;;
  emit (EvShowTextDocument filePath) ;;
  let document := Doc.mkTextDocument filePath (languageIdOf filePath) text in
  fun w =>
    (Returned document,
     mkWorld (settings w) (workspaceFolders w) (fs w)
             (visibleTextEditors w ++ [document]) (trace w)).

Definition getWorkspaceRootDirectoryPath : M string :=
  gets (fun w =>
          match workspaceFolders w with
          | Some (folder :: _) => getFullPath folder
          | _ => getFullPath "./"
          end).

(** The parent-directory loop of [getConfiguration]; [fuel] bounds the
    number of iterations. *)
Fixpoint getConfiguration_walk (fuel : nat) (workspaceRootDirectoryPath : string)
  : M Configuration :=
  if String.eqb workspaceRootDirectoryPath (getDirectoryPath workspaceRootDirectoryPath)
  then
    log "tsco using default configuration" ;;
    ret Configuration_getDefaultConfiguration
  else
    match fuel with
    | O => pending
    | S fuel' =>
        let workspaceRootDirectoryPath := getDirectoryPath workspaceRootDirectoryPath in
        let configurationFilePath := joinPath workspaceRootDirectoryPath "tsco.json" in
        found <- fileExists configurationFilePath ;;
        if (found : bool)
        then gets (fun w => Configuration_getConfiguration (fs w) configurationFilePath)
        else getConfiguration_walk fuel' workspaceRootDirectoryPath
    end.

Definition getConfiguration_fromWorkspace (fuel : nat) : M Configuration :=
  workspaceRootDirectoryPath <- getWorkspaceRootDirectoryPath ;;
  let configurationFilePath := joinPath workspaceRootDirectoryPath "tsco.json" in
  found <- fileExists configurationFilePath ;;
  if (found : bool)
  then gets (fun w => Configuration_getConfiguration (fs w) configurationFilePath)
  else getConfiguration_walk fuel workspaceRootDirectoryPath.

Definition getConfiguration (fuel : nat) (configurationFilePath : option string)
  : M Configuration :=
  match configurationFilePath with
  | Some p =>
      if JsString.truthy p then
        found <- fileExists p ;;
        if (found : bool)
        then gets (fun w => Configuration_getConfiguration (fs w) p)
        else
          root <- getWorkspaceRootDirectoryPath ;;
          found' <- fileExists (joinPath root p) ;;
          if (found' : bool)
          then
            root' <- getWorkspaceRootDirectoryPath ;;
            gets (fun w => Configuration_getConfiguration (fs w) (joinPath root' p))
          else
            log ("tsco configuration file " ++ getFullPath p ++ " not found") ;;
            getConfiguration_fromWorkspace fuel
      else getConfiguration_fromWorkspace fuel
  | None => getConfiguration_fromWorkspace fuel
  end.

Definition getOpenedEditor (filePath : string) : M (option Doc.TextDocument) :=
  gets (fun w =>
          find (fun e =>
                  String.eqb (toLowerCase (getFullPath (Doc.doc_fsPath e)))
                             (toLowerCase (getFullPath filePath)))
               (visibleTextEditors w)).

Definition matches (pattern text : string) : bool :=
  globToRegExp_test pattern text.

Definition shouldOrganizeFile (sourceCodeFilePathRelative : string)
    (configuration : Configuration) : FileCheck :=
  let cleaned :=
    JsString.replaceAll (JsString.replaceAll sourceCodeFilePathRelative "../" "") "./" "" in
  let include :=
    if Nat.ltb 0 (List.length (files_include configuration))
    then existsb (fun inc => matches inc sourceCodeFilePathRelative || matches inc cleaned)
                 (files_include configuration)
    else true in
  let exclude :=
    if Nat.ltb 0 (List.length (files_exclude configuration))
    then existsb (fun exc => matches exc sourceCodeFilePathRelative || matches exc cleaned)
                 (files_exclude configuration)
    else false in
  if negb include
  then mkFileCheck false (Some "does not match file include patterns")
  else if exclude
  then mkFileCheck false (Some "matches file exclude patterns")
  else mkFileCheck true None.

Definition openEditor (filePath : string) : M Doc.TextDocument :=
  editor <- getOpenedEditor filePath ;;
  match editor with
  | Some e => ret e
  | None => showTextDocument filePath
  end.

Definition organize (sourceCodeFilePath : string) (configuration : Configuration)
  : M bool :=
  workspaceRootDirectoryPath <- getWorkspaceRootDirectoryPath ;;
  let sourceCodeDirectoryPath := workspaceRootDirectoryPath in
  let sourceCodeFilePathRelative :=
    getRelativePath sourceCodeDirectoryPath sourceCodeFilePath in
  let fileCheck := shouldOrganizeFile sourceCodeFilePathRelative configuration in
  if negb (shouldOrganize fileCheck)
  then
    log ("tsco skipping organizing " ++ sourceCodeFilePath ++ ", because it "
           ++ show_reason (reason fileCheck)) ;;
    ret false
  else
    editor <- getOpenedEditor sourceCodeFilePath ;;
    sourceCode <- match editor with
                  | Some e => ret (Doc.getText e)
                  | None => readFile sourceCodeFilePath
                  end ;;
    organizedSourceCode <-
      SourceCodeOrganizer_organizeSourceCode sourceCodeFilePath sourceCode configuration ;;
    if JsString.strict_neq organizedSourceCode sourceCode
    then
      editor <- match editor with
                | Some e => ret e
                | None => openEditor sourceCodeFilePath
                end ;;
      let range := Doc.wholeRange editor in
      applyEdit (Doc.doc_fsPath editor) range organizedSourceCode ;;
      log ("tsco organized " ++ sourceCodeFilePath) ;;
      ret true
    else
      log ("tsco skipping organizing " ++ sourceCodeFilePath
             ++ ", because it is already organized") ;;
      ret false.

Definition onOrganize (fuel : nat) (sourceCodeFilePath : MaybePath) : M bool :=
  match sourceCodeFilePath with
  | path p =>
      if JsString.truthy p then
        let sourceCodeFilePath := getFullPath p in
        if matches "**/*.ts" sourceCodeFilePath then
          found <- fileExists sourceCodeFilePath ;;
          if (found : bool) then
            configurationFilePath <- gets (fun w => configurationFilePath (settings w)) ;;
            configuration <- getConfiguration fuel configurationFilePath ;;
            organize sourceCodeFilePath configuration
          else ret false
        else ret false
      else ret false
  | _ => ret false
  end.

(** The line [onSave] logs first. *)
Definition onSave_message (event : TextDocumentWillSaveEvent) (w : World) : string :=
  "tsco onSave triggered for " ++ Doc.doc_fsPath (event_document event)
    ++ ", reason: " ++ TextDocumentSaveReason_name (event_reason event)
    ++ ", languageId: " ++ Doc.doc_languageId (event_document event)
    ++ ", organizeOnSave: " ++ JsString.of_bool (organizeOnSave (settings w)).

(** The promise handed to [event.waitUntil] in [onSave]. *)
Definition onSave_edits (fuel : nat) (event : TextDocumentWillSaveEvent)
    (sourceCodeFilePath : string) : M (list Doc.TextEdit) :=
  configurationFilePath <- gets (fun w => configurationFilePath (settings w)) ;;
  configuration <- getConfiguration fuel configurationFilePath ;;
  workspaceRootDirectoryPath <- getWorkspaceRootDirectoryPath ;;
  let sourceCodeDirectoryPath := workspaceRootDirectoryPath in
  let sourceCodeFilePathRelative :=
    getRelativePath sourceCodeDirectoryPath sourceCodeFilePath in
  let fileCheck := shouldOrganizeFile sourceCodeFilePathRelative configuration in
  if negb (shouldOrganize fileCheck)
  then
    log ("tsco skipping organizing " ++ sourceCodeFilePath ++ ", because it "
           ++ show_reason (reason fileCheck)) ;;
    ret []
  else
    let sourceCode := Doc.getText (event_document event) in
    organizedSourceCode <-
      SourceCodeOrganizer_organizeSourceCode sourceCodeFilePath sourceCode configuration ;;
    if JsString.strict_neq organizedSourceCode sourceCode
    then
      let range := Doc.wholeRange (event_document event) in
      log ("tsco organized " ++ sourceCodeFilePath) ;;
      ret [Doc.mkTextEdit range organizedSourceCode]
    else
      log ("tsco skipping organizing " ++ sourceCodeFilePath
             ++ ", because it is already organized") ;;
      ret [].

(** [onSave]: the world after the handler, and what was handed to
    [event.waitUntil] ([None] when [waitUntil] was not called). *)
Definition onSave (fuel : nat) (event : TextDocumentWillSaveEvent) (w : World)
  : option (Outcome (list Doc.TextEdit)) * World :=
  let document := event_document event in
  let (_, w1) := log (onSave_message event w) w in
  if organizeOnSave (settings w1) && String.eqb (Doc.doc_languageId document) "typescript"
  then
    let sourceCodeFilePath := getFullPath (Doc.doc_fsPath document) in
    if matches "**/*.ts" sourceCodeFilePath
    then
      let (promise, w2) := onSave_edits fuel event sourceCodeFilePath w1 in
      (Some promise, w2)
    else (None, w1)
  else (None, w1).

End Extension.

(* ===================================================================== *)
(** ** Vocabulary for stating what the functions do *)
(* ===================================================================== *)

(** The edits applied so far, most recent first. *)
Fixpoint appliedEdits (t : list Event) : list (string * Doc.Range * string) :=
  match t with
  | [] => []
  | EvApplyEdit p r new :: t' => (p, r, new) :: appliedEdits t'
  | _ :: t' => appliedEdits t'
  end.

(** The calls of the organizer so far, most recent first. *)
Fixpoint organizerCalls (t : list Event) : list (string * string) :=
  match t with
  | [] => []
  | EvOrganizeSourceCode p s :: t' => (p, s) :: organizerCalls t'
  | _ :: t' => organizerCalls t'
  end.

(** The world after one more external call that changes nothing else. *)
Definition withEvent (e : Event) (w : World) : World :=
  mkWorld (settings w) (workspaceFolders w) (fs w) (visibleTextEditors w)
          (e :: trace w).

Definition logged (m : string) (w : World) : World := withEvent (EvLog m) w.

(** The world after a series of log lines, the first of the list last. *)
Definition loggedAll (ms : list string) (w : World) : World :=
  fold_right logged w ms.

(** Nothing but the trace differs. *)
Definition sameDocuments (w w' : World) : Prop :=
  settings w' = settings w
  /\ workspaceFolders w' = workspaceFolders w
  /\ fs w' = fs w
  /\ visibleTextEditors w' = visibleTextEditors w.

Section Vocabulary.

Context {H : Host}.

Definition workspaceRoot (w : World) : string :=
  match workspaceFolders w with
  | Some (folder :: _) => getFullPath folder
  | _ => getFullPath "./"
  end.

(** The editor [getOpenedEditor] finds for a path. *)
Definition openedEditor (w : World) (filePath : string) : option Doc.TextDocument :=
  find (fun e =>
          String.eqb (toLowerCase (getFullPath (Doc.doc_fsPath e)))
                     (toLowerCase (getFullPath filePath)))
       (visibleTextEditors w).

(** The text [organize] works on: the open editor's, else the file's. *)
Definition sourceOf (w : World) (filePath : string) : option string :=
  match openedEditor w filePath with
  | Some e => Some (Doc.getText e)
  | None => fs w filePath
  end.

(** The second form of a relative path that the filter tries. *)
Definition withoutDotSegments (relativePath : string) : string :=
  JsString.replaceAll (JsString.replaceAll relativePath "../" "") "./" "".

(** A pattern matches a relative path in one of its two forms. *)
Definition matchesEitherForm (pattern relativePath : string) : bool :=
  matches pattern relativePath || matches pattern (withoutDotSegments relativePath).

Definition passesFilter (w : World) (filePath : string) (configuration : Configuration)
  : bool :=
  shouldOrganize
    (shouldOrganizeFile (getRelativePath (workspaceRoot w) filePath) configuration).

(** The precedence of configuration files as a list of candidates: the
    configured path (as given, then under the workspace root), then
    [tsco.json] in the workspace root, then in each directory above it. *)
Fixpoint ancestors (n : nat) (dir : string) : list string :=
  if String.eqb dir (getDirectoryPath dir) then []
  else match n with
       | O => []
       | S n' => getDirectoryPath dir :: ancestors n' (getDirectoryPath dir)
       end.

Definition configurationCandidates (n : nat) (w : World)
    (configurationFilePath : option string) : list string :=
  match configurationFilePath with
  | Some p => if JsString.truthy p then [p; joinPath (workspaceRoot w) p] else []
  | None => []
  end
  ++ [joinPath (workspaceRoot w) "tsco.json"]
  ++ map (fun dir => joinPath dir "tsco.json") (ancestors n (workspaceRoot w)).

Definition resolvedConfiguration (n : nat) (w : World)
    (configurationFilePath : option string) : Configuration :=
  match find (isFile w) (configurationCandidates n w configurationFilePath) with
  | Some p => Configuration_getConfiguration (fs w) p
  | None => Configuration_getDefaultConfiguration
  end.

(** What the parent-directory loop comes to when it may run [n] times. *)
Definition walkResult (n : nat) (dir : string) (w : World)
  : Outcome Configuration * World :=
  match find (isFile w) (map (fun d => joinPath d "tsco.json") (ancestors n dir)) with
  | Some p => (Returned (Configuration_getConfiguration (fs w) p), w)
  | None => (Returned Configuration_getDefaultConfiguration,
             logged "tsco using default configuration" w)
  end.

End Vocabulary.

(* ===================================================================== *)
(** ** Parent directories *)
(* ===================================================================== *)

Module Posix.

Definition slash : ascii := "/"%char.
Definition is_slash (c : ascii) : bool := Ascii.eqb c slash.

Fixpoint dropWhile (f : ascii -> bool) (l : list ascii) : list ascii :=
  match l with
  | [] => []
  | c :: l' => if f c then dropWhile f l' else l
  end.

(** Modelled from the spec: [getDirectoryPath] of
    [tsco-cli/helpers/file-system-helper], which [src/] does not contain.
    The spec only says that configuration discovery walks "parent
    directories"; the parent of a '/'-separated path is taken to be what
    POSIX [dirname] gives: trailing slashes and the last component are
    dropped, the root is its own parent, and a path without a directory
    part has parent ".". *)
Definition dirname (p : string) : string :=
  match p with
  | EmptyString => "."
  | String c0 t =>
      let hasRoot := is_slash c0 in
      let r := dropWhile is_slash (rev (list_ascii_of_string t)) in
      match dropWhile (fun c => negb (is_slash c)) r with
      | [] => if hasRoot then "/" else "."
      | _ :: r' =>
          match r' with
          | [] => if hasRoot then "//" else String c0 EmptyString
          | _ :: _ => String c0 (string_of_list_ascii (rev r'))
          end
      end
  end.

Definition isAbsolute (p : string) : bool :=
  match p with
  | String c _ => is_slash c
  | EmptyString => false
  end.

(** How far a path is from a fixed point of [dirname]. *)
Definition height (p : string) : nat :=
  if String.eqb p "/" then 0
  else if String.eqb p "." then 0
  else S (String.length p).

End Posix.

(* ===================================================================== *)
(** ** Globs *)
(* ===================================================================== *)

Module Glob.

Definition star : ascii := "*"%char.

(** The glob matcher of the concrete host, after the default mode of the
    glob-to-regexp library on patterns made of literal characters and [*]:
    the pattern is anchored at both ends and every [*] matches any
    characters but line terminators. *)
Fixpoint test (pattern : string) : string -> bool :=
  match pattern with
  | EmptyString => fun text => match text with EmptyString => true | _ => false end
  | String c pattern' =>
      if Ascii.eqb c star
      then fix any (text : string) : bool :=
             test pattern' text
             || match text with
                | EmptyString => false
                | String d text' =>
                    if Ascii.eqb d Doc.LF || Ascii.eqb d Doc.CR then false
                    else any text'
                end
      else fun text =>
             match text with
             | EmptyString => false
             | String d text' => Ascii.eqb c d && test pattern' text'
             end
  end.

End Glob.

(* ===================================================================== *)
(** ** The organizer behind [SourceCodeOrganizer.organizeSourceCode] *)
(* ===================================================================== *)

Module Core.

(** Modelled from the spec: the kinds of top-level Declaration (section 3):
    class, interface, enum, type alias, function, variable statement. The
    organizer's own types are not in [src/]. *)
Inductive DeclarationKind :=
| ClassDeclaration | InterfaceDeclaration | EnumDeclaration
| TypeAliasDeclaration | FunctionDeclaration | VariableStatement.

(** Modelled from the spec: the kinds of Member (section 3): constructor,
    property, accessor, method. *)
Inductive MemberKind := ConstructorMember | PropertyMember | AccessorMember | MethodMember.

(** Modelled from the spec: accessibility of a Member, "public/protected/
    private, default = public". *)
Inductive Accessibility := Public | Protected | Private.

(** Modelled from the spec: a Member of the data model (section 3). *)
Record Member := mkMember {
  m_kind : MemberKind;
  m_accessibility : Accessibility;
  m_static : bool;
  m_name : string;
  m_leading : string;     (* attached leading comments and decorations *)
  m_text : string         (* original text span *)
}.

(** Modelled from the spec: the text span of a Declaration. A class keeps
    its signature line and its braces, and owns the members in between;
    every other declaration is one verbatim span. *)
Inductive Span :=
| Verbatim (text : string)
| ClassSpan (head : string) (members : list Member) (tail : string).

(** Modelled from the spec: a Declaration of the data model (section 3). *)
Record Declaration := mkDeclaration {
  d_kind : DeclarationKind;
  d_name : string;
  d_exported : bool;
  d_leading : string;
  d_span : Span
}.

(** Modelled from the spec: the SourceUnit of the data model, with the
    trailing untouched text that the text assembler (section 4.4) appends. *)
Record SourceUnit := mkSourceUnit {
  u_leading : string;
  u_declarations : list Declaration;
  u_trailing : string
}.

(** Modelled from the spec: a section definition of the Configuration, "a
    predicate over (kind, accessibility, static) plus an optional
    alphabetical-sort flag". *)
Record SectionDefinition (K : Type) := mkSectionDefinition {
  label : string;
  sec_matches : K -> Accessibility -> bool -> bool;
  sortAlphabetically : bool
}.

(** Modelled from the spec: the Configuration the organizer consumes
    (sections 3 and 6), file patterns included. *)
Record Configuration := mkConfiguration {
  include : list string;
  exclude : list string;
  sections : list (SectionDefinition DeclarationKind);
  memberSections : list (SectionDefinition MemberKind)
}.

(** Modelled from the spec: a Section, a label and its ordered entries;
    the count is the number of entries when the section is rendered. *)
Record SectionEntries (A : Type) := mkSection {
  sec_label : string;
  sec_entries : list A
}.

Section PolicyEngine.

Variables K A : Type.
Variable kindOf : A -> K.
Variable accessibilityOf : A -> Accessibility.
Variable staticOf : A -> bool.
Variable nameOf : A -> string.

(** Modelled from the spec: the predicate of a section definition applied to
    an entry's kind, accessibility and static flag. *)
Definition accepts (d : SectionDefinition K) (a : A) : bool :=
  sec_matches d (kindOf a) (accessibilityOf a) (staticOf a).

(** Modelled from the spec: the stable sort by name of the policy engine
    (section 4.2), "a locale-independent ordinal comparison, ties broken
    by original position". *)
Fixpoint insert (a : A) (l : list A) : list A :=
  match l with
  | [] => [a]
  | b :: l' =>
      if String.leb (nameOf a) (nameOf b) then a :: l else b :: insert a l'
  end.

Definition sortByName (l : list A) : list A := fold_right insert [] l.

(** Modelled from the spec: entries of a section are sorted "if the section's
    alphabetical flag is set", else kept in their order. *)
Definition ordered (d : SectionDefinition K) (l : list A) : list A :=
  if sortAlphabetically d then sortByName l else l.

(** Modelled from the spec: classification (section 4.2). An entry goes to
    the first definition whose predicate matches; what matches none goes
    to the trailing "Other/Uncategorized" section. *)
Fixpoint classify (defs : list (SectionDefinition K)) (entries : list A)
  : list (SectionEntries A) :=
  match defs with
  | [] => [mkSection "Other/Uncategorized" entries]
  | d :: defs' =>
      mkSection (label d) (ordered d (filter (accepts d) entries))
        :: classify defs' (filter (fun a => negb (accepts d a)) entries)
  end.

(** Modelled from the spec: "empty sections (zero matching entries) are
    omitted entirely". *)
Definition nonEmpty (s : SectionEntries A) : bool :=
  match sec_entries s with [] => false | _ => true end.

(** Modelled from the spec: the policy engine (section 4.2); empty
    sections are omitted. *)
Definition organizeEntries (defs : list (SectionDefinition K)) (entries : list A)
  : list (SectionEntries A) :=
  filter nonEmpty (classify defs entries).

(** The entries of a list of sections, in rendering order. *)
Definition flatten (ss : list (SectionEntries A)) : list A :=
  flat_map (@sec_entries A) ss.

(** The same sections with every entry replaced by its image. *)
Definition mapSection (f : A -> A) (s : SectionEntries A) : SectionEntries A :=
  mkSection (sec_label s) (map f (sec_entries s)).

(** Names in ordinal order, neighbour by neighbour. *)
Definition nameLe (a b : A) : Prop := String.leb (nameOf a) (nameOf b) = true.

End PolicyEngine.

Definition LF : string := String Doc.LF EmptyString.

(** The count of a header, in decimal. *)
Definition decimal (n : nat) : string :=
  DecimalString.NilEmpty.string_of_uint (Nat.to_uint n).

(** Modelled from the spec: the markers of the section renderer
    (section 4.3), a header with the label and the live count and a
    matching footer, in the region style of the sources. *)
Definition header (l : string) (count : nat) : string :=
  "// #region " ++ l ++ " (" ++ decimal count ++ ")" ++ LF.
Definition footer (l : string) : string :=
  "// #endregion " ++ l ++ LF.

Section Renderer.

Variable A : Type.
Variable renderEntry : A -> string.

(** Modelled from the spec: the section renderer (section 4.3). *)
Definition renderSection (s : SectionEntries A) : string :=
  header (sec_label s) (List.length (sec_entries s))
    ++ String.concat "" (map renderEntry (sec_entries s))
    ++ footer (sec_label s).

Definition renderSections (ss : list (SectionEntries A)) : string :=
  String.concat "" (map renderSection ss).

End Renderer.

(** Modelled from the spec: the policy engine on the members of a class,
    "using the members-specific section definitions" (section 4.2). *)
Definition organizeMembers (c : Configuration) (ms : list Member) : list (SectionEntries Member) :=
  organizeEntries m_kind m_accessibility m_static m_name (memberSections c) ms.

(** Modelled from the spec: the policy engine on the top-level declarations.
    Declarations have neither accessibility nor a static flag; the predicate
    sees the defaults (public, not static). *)
Definition organizeDeclarations (c : Configuration) (ds : list Declaration)
  : list (SectionEntries Declaration) :=
  organizeEntries d_kind (fun _ => Public) (fun _ => false) d_name (sections c) ds.

(** Modelled from the spec: an entry is rendered as its "attached leading
    comments/decorations followed by its original body text" (section 4.3). *)
Definition renderMember (m : Member) : string := m_leading m ++ m_text m.

(** Modelled from the spec: a declaration in the assembled text
    (section 4.4); a class body is replaced by its rendered member
    sections between the untouched signature and closing brace. *)
Definition renderDeclaration (c : Configuration) (d : Declaration) : string :=
  d_leading d ++
  match d_span d with
  | Verbatim text => text
  | ClassSpan head members tail =>
      head ++ renderSections renderMember (organizeMembers c members) ++ tail
  end.

(** Modelled from the spec: the text assembler (section 4.4). *)
Definition assemble (c : Configuration) (u : SourceUnit) : string :=
  u_leading u
    ++ renderSections (renderDeclaration c) (organizeDeclarations c (u_declarations u))
    ++ u_trailing u.

(** Modelled from the spec: what [organize] returns (section 6),
    [{ changed: boolean, outputText: string }]. *)
Record Result := mkResult { changed : bool; outputText : string }.

(** The declarations as the assembled text lists them. *)
Definition canonicalDeclaration (c : Configuration) (d : Declaration) : Declaration :=
  mkDeclaration (d_kind d) (d_name d) (d_exported d) (d_leading d)
    match d_span d with
    | Verbatim text => Verbatim text
    | ClassSpan head members tail =>
        ClassSpan head (flatten (organizeMembers c members)) tail
    end.

Definition canonicalUnit (c : Configuration) (u : SourceUnit) : SourceUnit :=
  mkSourceUnit (u_leading u)
    (flatten (organizeDeclarations c (map (canonicalDeclaration c) (u_declarations u))))
    (u_trailing u).

Section Pipeline.

(** Modelled from the spec: the parser (section 4.1), known by its contract
    only: a source unit, or no result ([ParseError]) on a syntax error. *)
Variable parse : string -> option SourceUnit.

(** Modelled from the spec: the entry point
    [organize(filePath, sourceText, configuration)] of section 6:
    parse, classify, render, assemble, compare. *)
Definition organize (filePath sourceText : string) (c : Configuration)
  : Exn + Result :=
  match parse sourceText with
  | None => inl (ParseError filePath)
  | Some u =>
      let text := assemble c u in
      inr (mkResult (negb (String.eqb text sourceText)) text)
  end.

(** A condition on a parser, which the spec does not state: the parser reads
    the assembled text as the canonical unit, so without the markers the
    renderer wrote. The table parser of the concrete host below meets it;
    the organizer on lines ([Organizer]) does without it. *)
Definition ReadsBack (c : Configuration) : Prop :=
  forall s u, parse s = Some u ->
              parse (assemble c u) = Some (canonicalUnit c u).

(** Modelled from the spec: the organizer as the host calls it,
    [SourceCodeOrganizer.organizeSourceCode]: the output text, or the error. *)
Definition organizeSourceCode (filePath sourceText : string) (c : Configuration)
  : Exn + string :=
  match organize filePath sourceText c with
  | inl e => inl e
  | inr r => inr (outputText r)
  end.

End Pipeline.

End Core.

(* ===================================================================== *)
(** ** A concrete host: a workspace at [/w] on a POSIX file system *)
(* ===================================================================== *)

Module Demo.

Import Core.

Definition isKind {K : Type} (eq : K -> K -> bool) (k : K)
  : K -> Accessibility -> bool -> bool :=
  fun k' _ _ => eq k k'.

Definition sameDeclarationKind (a b : DeclarationKind) : bool :=
  match a, b with
  | ClassDeclaration, ClassDeclaration
  | InterfaceDeclaration, InterfaceDeclaration
  | EnumDeclaration, EnumDeclaration
  | TypeAliasDeclaration, TypeAliasDeclaration
  | FunctionDeclaration, FunctionDeclaration
  | VariableStatement, VariableStatement => true
  | _, _ => false
  end.

Definition sameMemberKind (a b : MemberKind) : bool :=
  match a, b with
  | ConstructorMember, ConstructorMember
  | PropertyMember, PropertyMember
  | AccessorMember, AccessorMember
  | MethodMember, MethodMember => true
  | _, _ => false
  end.

(** The policy [Properties, Methods] inside classes; classes before
    functions at the top level. *)
Definition policy : Configuration :=
  mkConfiguration
    ["**/*.ts"]
    ["**/*.d.ts"]
    [ mkSectionDefinition "Classes" (isKind sameDeclarationKind ClassDeclaration) true;
      mkSectionDefinition "Functions" (isKind sameDeclarationKind FunctionDeclaration) true ]
    [ mkSectionDefinition "Properties" (isKind sameMemberKind PropertyMember) true;
      mkSectionDefinition "Methods" (isKind sameMemberKind MethodMember) true ].

Definition foo : Member :=
  mkMember MethodMember Public false "foo" "" ("  foo() {}" ++ LF).
Definition bar : Member :=
  mkMember PropertyMember Private false "bar" "" ("  private bar = 1;" ++ LF).

(** A class with a public method [foo] before a private property [bar]. *)
Definition unit1 : SourceUnit :=
  mkSourceUnit ""
    [ mkDeclaration ClassDeclaration "A" false ""
        (ClassSpan ("class A {" ++ LF) [foo; bar] ("}" ++ LF)) ]
    "".

Definition text1 : string :=
  "class A {" ++ LF ++ "  foo() {}" ++ LF ++ "  private bar = 1;" ++ LF ++ "}" ++ LF.

Definition text2 : string := Eval vm_compute in assemble policy unit1.
Definition unit2 : SourceUnit := Eval vm_compute in canonicalUnit policy unit1.

(** A parser that knows two texts: the class above and its organized form. *)
Definition parse (s : string) : option SourceUnit :=
  if String.eqb s text1 then Some unit1
  else if String.eqb s text2 then Some unit2
  else None.

Definition lower (c : ascii) : ascii :=
  let n := nat_of_ascii c in
  if ((65 <=? n)%nat && (n <=? 90)%nat)%bool then ascii_of_nat (n + 32) else c.

Fixpoint lowercase (s : string) : string :=
  match s with
  | EmptyString => EmptyString
  | String c s' => String (lower c) (lowercase s')
  end.

Definition resolve (p : string) : string :=
  if String.eqb p "./" then "/w"
  else if String.prefix "/" p then p
  else "/w/" ++ p.

Definition join (a b : string) : string :=
  if String.eqb a "/" then "/" ++ b else a ++ "/" ++ b.

Definition relative (from to : string) : string :=
  if String.prefix (from ++ "/") to
  then Doc.drop (String.length from + 1) to
  else to.

(** A configuration file holds one include pattern. *)
Definition load (files : string -> option string) (p : string) : Configuration :=
  match files p with
  | Some pattern => mkConfiguration [pattern] [] (sections policy) (memberSections policy)
  | None => policy
  end.

Definition host : Host :=
  @Build_Host
    Core.Configuration              (* Configuration *)
    include                         (* files_include *)
    exclude                         (* files_exclude *)
    Glob.test                       (* globToRegExp_test *)
    resolve                         (* getFullPath *)
    Posix.dirname                   (* getDirectoryPath *)
    join                            (* joinPath *)
    relative                        (* getRelativePath *)
    lowercase                       (* toLowerCase *)
    (fun _ => "typescript")         (* languageIdOf *)
    load                            (* Configuration_getConfiguration *)
    policy                          (* Configuration_getDefaultConfiguration *)
    (Core.organizeSourceCode parse) (* organizeSourceCode *).

Definition document (text : string) : Doc.TextDocument :=
  Doc.mkTextDocument "/w/src/a.ts" "typescript" text.

Definition files (p : string) : option string :=
  if String.eqb p "/w/src/a.ts" then Some text1
  else if String.eqb p "/w/src/broken.ts" then Some "class {"
  else if String.eqb p "/tsco.json" then Some "src/*.ts"
  else None.

(** [a.ts] is open in an editor; [broken.ts] is not. *)
Definition world : World :=
  mkWorld (mkSettings true None) (Some ["/w"]) files [document text1] [].

(** The same workspace with nothing open. *)
Definition closedWorld : World :=
  mkWorld (mkSettings true None) (Some ["/w"]) files [] [].

End Demo.

(* ===================================================================== *)
(** ** The remaining commands of [extension.ts] *)
(* ===================================================================== *)

(** The world with one file written. *)
Definition withFile (filePath text : string) (w : World) : World :=
  mkWorld (settings w) (workspaceFolders w)
          (fun p => if String.eqb p filePath then Some text else fs w p)
          (visibleTextEditors w) (trace w).

(** The world on another file system. *)
Definition withFiles (files : string -> option string) (w : World) : World :=
  mkWorld (settings w) (workspaceFolders w) files (visibleTextEditors w) (trace w).

(** [writeFile(path, text, true)] of the file-system helper: the file holds
    the text afterwards, whether it existed or not. *)
Definition writeFile (filePath text : string) : M unit :=
  fun w => (Returned tt, withFile filePath text w).

(** [`${n}`] for a count. *)
Definition JsString_of_nat (n : nat) : string :=
  DecimalString.NilEmpty.string_of_uint (Nat.to_uint n).

(** [pat] occurs somewhere in [s]. *)
Fixpoint occurs (pat s : string) : bool :=
  String.prefix pat s
  || match s with
     | EmptyString => false
     | String _ s' => occurs pat s'
     end.

Section Commands.

Context {H : Host}.

(** The test of [getOpenedEditor]: the paths agree once resolved and
    lower-cased. *)
Definition showsFile (filePath : string) (e : Doc.TextDocument) : bool :=
  String.eqb (toLowerCase (getFullPath (Doc.doc_fsPath e)))
             (toLowerCase (getFullPath filePath)).

(** The ways a run of [organize] can go, each with the world it leaves. *)
Inductive OrganizeRun (p : string) (cfg : Configuration) (w : World)
  : Outcome bool -> World -> Prop :=
| RunFiltered m :
    passesFilter w p cfg = false ->
    OrganizeRun p cfg w (Returned false) (logged m w)
| RunUnreadable :
    passesFilter w p cfg = true -> sourceOf w p = None ->
    OrganizeRun p cfg w (Thrown (IoError p)) w
| RunFailed src e :
    passesFilter w p cfg = true -> sourceOf w p = Some src ->
    organizeSourceCode p src cfg = inl e ->
    OrganizeRun p cfg w (Thrown e) (withEvent (EvOrganizeSourceCode p src) w)
| RunUnchanged src m :
    passesFilter w p cfg = true -> sourceOf w p = Some src ->
    organizeSourceCode p src cfg = inr src ->
    OrganizeRun p cfg w (Returned false)
      (logged m (withEvent (EvOrganizeSourceCode p src) w))
| RunChangedOpen e out :
    passesFilter w p cfg = true -> openedEditor w p = Some e ->
    organizeSourceCode p (Doc.getText e) cfg = inr out -> out <> Doc.getText e ->
    OrganizeRun p cfg w (Returned true)
      (mkWorld (settings w) (workspaceFolders w) (fs w)
         (map (edited (Doc.doc_fsPath e) (Doc.wholeRange e) out) (visibleTextEditors w))
         (EvLog ("tsco organized " ++ p)
            :: EvApplyEdit (Doc.doc_fsPath e) (Doc.wholeRange e) out
            :: EvOrganizeSourceCode p (Doc.getText e) :: trace w))
| RunChangedClosed src out :
    passesFilter w p cfg = true -> openedEditor w p = None -> fs w p = Some src ->
    organizeSourceCode p src cfg = inr out -> out <> src ->
    OrganizeRun p cfg w (Returned true)
      (mkWorld (settings w) (workspaceFolders w) (fs w)
         (map (edited p (Doc.wholeRange (Doc.mkTextDocument p (languageIdOf p) src)) out)
              (visibleTextEditors w ++ [Doc.mkTextDocument p (languageIdOf p) src]))
         (EvLog ("tsco organized " ++ p)
            :: EvApplyEdit p (Doc.wholeRange (Doc.mkTextDocument p (languageIdOf p) src)) out
            :: EvShowTextDocument p
            :: EvOrganizeSourceCode p src :: trace w)).

(** [JSON.stringify(configuration, null, 4)]. *)
Variable stringify : Configuration -> string.

(** [onInitialize]; the result is the warning shown, if any
    ([vscode.window.showWarningMessage]). *)
Definition onInitialize : M (option string) :=
  folders <- gets workspaceFolders ;;
  match folders with
  | Some (folder :: _) =>
      let configurationFilePath := joinPath (getFullPath folder) "tsco.json" in
      found <- fileExists configurationFilePath ;;
      if (found : bool)
      then
        ret (Some ("TypeScript Class Organizer configuration file already exists at "
                     ++ configurationFilePath ++ ".")%string)
      else
        writeFile configurationFilePath (stringify Configuration_getDefaultConfiguration) ;;
        showTextDocument configurationFilePath ;;
        ret (Some ("TypeScript Class Organizer created a default configuration file at "
                     ++ configurationFilePath ++ ".")%string)
  | _ => ret None
  end.

(** The loop of [onOrganizeAll] over the files found, with its two counters. *)
Fixpoint onOrganizeAll_loop (configuration : Configuration) (found : list string)
    (files organized : nat) : M (nat * nat) :=
  match found with
  | [] => ret (files, organized)
  | filePath :: rest =>
      let files := S files in
      changed <- organize (getFullPath filePath) configuration ;;
      onOrganizeAll_loop configuration rest files
        (if (changed : bool) then S organized else organized)
  end.

(** The message [onOrganizeAll] shows at the end
    ([vscode.window.showInformationMessage]). *)
Definition onOrganizeAll_message (files organized : nat) : string :=
  if Nat.ltb 0 organized
  then
    "TypeScript Class Organizer organized " ++ JsString_of_nat organized
      ++ " file" ++ (if Nat.ltb 1 files then "s" else "")
      ++ " out of " ++ JsString_of_nat files
      ++ " file" ++ (if Nat.ltb 1 files then "s" else "") ++ "."
  else "TypeScript Class Organizer did not find any files in need of organizing.".

(** [onOrganizeAll]; [found] is what
    [vscode.workspace.findFiles("**/*.ts", "**/node_modules/**")] returns, and
    the result is the message shown. *)
Definition onOrganizeAll (fuel : nat) (found : list string) : M string :=
  configurationFilePath <- gets (fun w => configurationFilePath (settings w)) ;;
  configuration <- getConfiguration fuel configurationFilePath ;;
  counts <- onOrganizeAll_loop configuration found 0 0 ;;
  ret (onOrganizeAll_message (fst counts) (snd counts)).

End Commands.

(** More of the concrete host, for the commands. *)
Module DemoCommands.

(** A stand-in for [JSON.stringify]: the include patterns, comma-separated. *)
Definition stringify (c : Core.Configuration) : string :=
  String.concat "," (Core.include c).

(** What the configuration file of the concrete workspace loads as. *)
Definition loaded : Core.Configuration := Demo.load Demo.files "/tsco.json".

(** The same with one more exclude pattern. *)
Definition stricter : Core.Configuration :=
  Core.mkConfiguration ["src/*.ts"] ["*.md"]
    (Core.sections Demo.policy) (Core.memberSections Demo.policy).

(** [Demo.policy] with its include pattern listed twice. *)
Definition repeated : Core.Configuration :=
  Core.mkConfiguration ["**/*.ts"; "**/*.ts"] ["**/*.d.ts"]
    (Core.sections Demo.policy) (Core.memberSections Demo.policy).

(** The event of saving [a.ts] by hand. *)
Definition saving : TextDocumentWillSaveEvent :=
  mkWillSave (Demo.document Demo.text1) Manual.

End DemoCommands.

(* ===================================================================== *)
(** ** Text as lines *)
(* ===================================================================== *)

Module Lines.

Definition isLF (c : ascii) : bool := Ascii.eqb c Doc.LF.

(** The lines of a text, without their terminators; a final line break
    does not open another line. *)
Fixpoint lines (s : string) : list string :=
  match s with
  | EmptyString => []
  | String c s' =>
      if isLF c then EmptyString :: lines s'
      else match lines s' with
           | [] => [String c EmptyString]
           | l :: ls => String c l :: ls
           end
  end.

(** Every line followed by a line break. *)
Fixpoint unlines (ls : list string) : string :=
  match ls with
  | [] => EmptyString
  | l :: ls' => l ++ String Doc.LF (unlines ls')
  end.

(** The text holds no line break. *)
Fixpoint noLF (s : string) : bool :=
  match s with
  | EmptyString => true
  | String c s' => negb (isLF c) && noLF s'
  end.

(** The text with its line breaks taken out. *)
Fixpoint oneLine (s : string) : string :=
  match s with
  | EmptyString => EmptyString
  | String c s' => if isLF c then oneLine s' else String c (oneLine s')
  end.

End Lines.

(* ===================================================================== *)
(** ** The organizer on lines of text *)
(* ===================================================================== *)

(** The organizer of [Core] again, with its parser spelled out. The spec
    gives the parser by its contract and names no source language, so the
    parser here works line by line and leaves the reading of a line to a
    parameter ([lex]). It attaches to a declaration or member every line of
    trivia immediately before it, the markers of an earlier run included.
    [Core] copies the leading blocks as its parser hands them over; the
    renderer here writes its own markers and copies none of the input. *)

Module Organizer.

(** Modelled from the spec: what the parser (section 4.1) takes a line of
    source for. The spec names no source language, so the reading of a line
    is left open ([lex] below): a line is trivia (a comment, a decoration,
    blank space), the first line of a top-level declaration, the first line
    of a class member, the line that closes a class body, or anything else. *)
Inductive LineKind :=
| Trivia
| Declares (kind : Core.DeclarationKind) (name : string) (exported : bool)
| DeclaresMember (kind : Core.MemberKind) (accessibility : Core.Accessibility)
                 (static : bool) (name : string)
| Closes
| Other.

(** Modelled from the spec: a line is a section marker (section 4.3) when it
    starts like the header or the footer the renderer writes. *)
Definition isMarker (l : string) : bool :=
  String.prefix "// #region" l || String.prefix "// #endregion" l.

Definition keepLine (l : string) : bool := negb (isMarker l).

(** Modelled from the spec: "markers must be regenerated every run rather
    than copied" (section 4.3): the marker lines of the input are left out
    of whatever is copied to the output. *)
Definition withoutMarkers (ls : list string) : list string := filter keepLine ls.

(** Modelled from the spec: a Declaration or Member as the parser finds it
    (sections 3 and 4.1): what its first line declares, the trivia lines
    immediately before it, and its own lines from the first one on. *)
Record Element (I : Type) := mkElement {
  e_info : I;
  e_leading : list string;
  e_lines : list string
}.

Section Grouping.

Variable I : Type.
Variable starts : string -> option I.    (* the first line of an element *)
Variable trivia : string -> bool.

(** The lines before the first element, and every first line with the lines
    that follow it up to the next first line. *)
Fixpoint chunks (ls : list string) : list string * list (I * string * list string) :=
  match ls with
  | [] => ([], [])
  | l :: ls' =>
      let (before, cs) := chunks ls' in
      match starts l with
      | Some i => ([], (i, l, before) :: cs)
      | None => (l :: before, cs)
      end
  end.

(** A block of lines, and the run of trivia it ends with. *)
Fixpoint splitRun (ls : list string) : list string * list string :=
  match ls with
  | [] => ([], [])
  | l :: ls' =>
      let (body, run) := splitRun ls' in
      match body with
      | [] => if trivia l then ([], l :: run) else ([l], run)
      | _ :: _ => (l :: body, run)
      end
  end.

(** Modelled from the spec: "every comment and decoration immediately
    preceding it" is attached to an element (section 4.1): the run of trivia
    that ends the lines of one element is the leading block of the next; the
    last run is left over. *)
Fixpoint build (leading : list string) (cs : list (I * string * list string))
  : list (Element I) * list string :=
  match cs with
  | [] => ([], leading)
  | (i, l, after) :: cs' =>
      let (body, run) := splitRun after in
      let (es, rest) := build run cs' in
      (mkElement i leading (l :: body) :: es, rest)
  end.

(** Modelled from the spec: the elements of a text (section 4.1), each with
    the trivia immediately before it; with them, the lines before the first
    element and its trivia, and the trivia after the last element. *)
Definition group (ls : list string) : list string * list (Element I) * list string :=
  let (before, cs) := chunks ls in
  let (head, run) := splitRun before in
  let (es, rest) := build run cs in
  (head, es, rest).

(** The lines of an element, leading trivia first. *)
Definition elementLines (e : Element I) : list string :=
  e_leading e ++ e_lines e.

Definition ungroup (g : list string * list (Element I) * list string) : list string :=
  match g with
  | (head, es, rest) => head ++ flat_map elementLines es ++ rest
  end.

(** A block does not end with trivia. *)
Definition endsSolid (ls : list string) : Prop :=
  forall ls' l, ls = ls' ++ [l] -> trivia l = false.

(** An element as [group] finds them. *)
Definition wellGrouped (e : Element I) : Prop :=
  Forall (fun l => trivia l = true) (e_leading e)
  /\ exists l body,
      e_lines e = l :: body
      /\ starts l = Some (e_info e)
      /\ Forall (fun l => starts l = None) body
      /\ endsSolid body.

(** What [group] returns: lines that start nothing and do not end with
    trivia, well-grouped elements, and a run of trivia. *)
Definition wellGroupedAll (g : list string * list (Element I) * list string) : Prop :=
  match g with
  | (head, es, rest) =>
      Forall (fun l => starts l = None) head
      /\ endsSolid head
      /\ Forall wellGrouped es
      /\ Forall (fun l => trivia l = true) rest
  end.

Definition chunkLines (c : I * string * list string) : list string :=
  match c with (_, l, after) => l :: after end.

Definition chunkStarts (c : I * string * list string) : Prop :=
  match c with
  | (i, l, after) => starts l = Some i /\ Forall (fun l => starts l = None) after
  end.

(** The trivia that follows the lines of the first elements. *)
Definition nextLeading (es : list (Element I)) (rest : list string) : list string :=
  match es with
  | [] => rest
  | e :: _ => e_leading e
  end.

(** The chunks of the lines of well-grouped elements. *)
Fixpoint chunksOf (es : list (Element I)) (rest : list string)
  : list (I * string * list string) :=
  match es with
  | [] => []
  | e :: es' =>
      match e_lines e with
      | l :: body => (e_info e, l, body ++ nextLeading es' rest) :: chunksOf es' rest
      | [] => chunksOf es' rest
      end
  end.

Definition stripChunk (keep : string -> bool) (c : I * string * list string)
  : I * string * list string :=
  match c with (i, l, after) => (i, l, filter keep after) end.

(** An element without the lines that [keep] rejects. *)
Definition stripElement (keep : string -> bool) (e : Element I) : Element I :=
  mkElement (e_info e) (filter keep (e_leading e)) (filter keep (e_lines e)).

Definition stripGroups (keep : string -> bool)
  (g : list string * list (Element I) * list string)
  : list string * list (Element I) * list string :=
  match g with
  | (head, es, rest) => (filter keep head, map (stripElement keep) es, filter keep rest)
  end.

End Grouping.

(** Modelled from the spec: what the first line of a Declaration tells
    (section 3): "kind (enum), name, exported flag". *)
Record DeclarationInfo := mkDeclarationInfo {
  di_kind : Core.DeclarationKind;
  di_name : string;
  di_exported : bool
}.

(** Modelled from the spec: what the first line of a Member tells
    (section 3): "kind, accessibility (public/protected/private, default =
    public), static flag, name". *)
Record MemberInfo := mkMemberInfo {
  mi_kind : Core.MemberKind;
  mi_accessibility : Core.Accessibility;
  mi_static : bool;
  mi_name : string
}.

(** Modelled from the spec: a Member (section 3) with its "attached leading
    comments/decorations" and its "original text span", as lines. *)
Abbreviation Member := (Element MemberInfo).

(** Modelled from the spec: the text span of a Declaration (section 3). A
    class keeps the lines up to its first member and the lines from the end
    of its last member on, "keeping the class's own signature line and brace
    structure intact" (section 4.4); every other declaration is one span. *)
Inductive Span :=
| Verbatim (text : list string)
| ClassSpan (head : list string) (members : list Member) (tail : list string).

(** Modelled from the spec: a Declaration of the data model (section 3). *)
Record Declaration := mkDeclaration {
  d_info : DeclarationInfo;
  d_leading : list string;
  d_span : Span
}.

(** Modelled from the spec: the SourceUnit (section 3): the "leading file
    comment/import block", the declarations, and the "trailing untouched
    text" of section 4.4. *)
Record SourceUnit := mkSourceUnit {
  u_leading : list string;
  u_declarations : list Declaration;
  u_trailing : list string
}.

(** *** Policy and rendering *)

(** Modelled from the spec: the policy engine (section 4.2) on the members
    of a class, "using the members-specific section definitions". *)
Definition organizeMembers (c : Core.Configuration) (ms : list Member)
  : list (Core.SectionEntries Member) :=
  Core.organizeEntries
    (fun m => mi_kind (e_info m)) (fun m => mi_accessibility (e_info m))
    (fun m => mi_static (e_info m)) (fun m => mi_name (e_info m))
    (Core.memberSections c) ms.

(** Modelled from the spec: the policy engine on the top-level declarations;
    the predicate of a section sees them as public and not static. *)
Definition organizeDeclarations (c : Core.Configuration) (ds : list Declaration)
  : list (Core.SectionEntries Declaration) :=
  Core.organizeEntries
    (fun d => di_kind (d_info d)) (fun _ => Core.Public) (fun _ => false)
    (fun d => di_name (d_info d))
    (Core.sections c) ds.

(** Modelled from the spec: the markers of the section renderer
    (section 4.3), "a header marker containing the section label and the
    current entry count" and "a footer marker", one line each: a label is
    written without its line breaks. *)
Definition headerLine (l : string) (count : nat) : string :=
  "// #region " ++ Lines.oneLine l ++ " (" ++ Core.decimal count ++ ")".
Definition footerLine (l : string) : string :=
  "// #endregion " ++ Lines.oneLine l.

Section Renderer.

Variable A : Type.
Variable renderEntry : A -> list string.

(** Modelled from the spec: the section renderer (section 4.3): the header
    with the live count, the entries in policy order, the footer. *)
Definition renderSection (s : Core.SectionEntries A) : list string :=
  headerLine (Core.sec_label s) (List.length (Core.sec_entries s))
    :: flat_map renderEntry (Core.sec_entries s)
    ++ [footerLine (Core.sec_label s)].

Definition renderSections (ss : list (Core.SectionEntries A)) : list string :=
  flat_map renderSection ss.

End Renderer.

(** Modelled from the spec: an entry is rendered as its "attached leading
    comments/decorations followed by its original body text" (section 4.3);
    markers of an earlier run are not copied. *)
Definition renderMember (m : Member) : list string :=
  withoutMarkers (e_leading m) ++ withoutMarkers (e_lines m).

(** Modelled from the spec: the span of a declaration in the assembled text
    (section 4.4): the body of a class is replaced by "the recursively
    rendered member sections". *)
Definition renderSpan (c : Core.Configuration) (sp : Span) : list string :=
  match sp with
  | Verbatim text => withoutMarkers text
  | ClassSpan head members tail =>
      withoutMarkers head
        ++ renderSections renderMember (organizeMembers c members)
        ++ withoutMarkers tail
  end.

Definition renderDeclaration (c : Core.Configuration) (d : Declaration) : list string :=
  withoutMarkers (d_leading d) ++ renderSpan c (d_span d).

(** Modelled from the spec: the text assembler (section 4.4): "the untouched
    leading block", "then each top-level Section in the order sections were
    defined, then any trailing untouched text". *)
Definition assemble (c : Core.Configuration) (u : SourceUnit) : list string :=
  withoutMarkers (u_leading u)
    ++ renderSections (renderDeclaration c) (organizeDeclarations c (u_declarations u))
    ++ withoutMarkers (u_trailing u).

(** *** The lines of a source unit, and its canonical form *)

Definition spanLines (sp : Span) : list string :=
  match sp with
  | Verbatim text => text
  | ClassSpan head members tail =>
      head ++ flat_map (@elementLines MemberInfo) members ++ tail
  end.

(** A declaration as the element it was parsed from. *)
Definition declarationElement (d : Declaration) : Element DeclarationInfo :=
  mkElement (d_info d) (d_leading d) (spanLines (d_span d)).

(** The lines of a source unit, in the order the parser found them. *)
Definition unitLines (u : SourceUnit) : list string :=
  ungroup (u_leading u, map declarationElement (u_declarations u), u_trailing u).

Definition stripSpan (sp : Span) : Span :=
  match sp with
  | Verbatim text => Verbatim (withoutMarkers text)
  | ClassSpan head members tail =>
      ClassSpan (withoutMarkers head) (map (stripElement keepLine) members)
                (withoutMarkers tail)
  end.

Definition stripDeclaration (d : Declaration) : Declaration :=
  mkDeclaration (d_info d) (withoutMarkers (d_leading d)) (stripSpan (d_span d)).

(** The source unit without its marker lines. *)
Definition stripUnit (u : SourceUnit) : SourceUnit :=
  mkSourceUnit (withoutMarkers (u_leading u))
               (map stripDeclaration (u_declarations u))
               (withoutMarkers (u_trailing u)).

Definition canonicalSpan (c : Core.Configuration) (sp : Span) : Span :=
  match sp with
  | Verbatim text => Verbatim text
  | ClassSpan head members tail =>
      ClassSpan head (Core.flatten (organizeMembers c members)) tail
  end.

Definition canonicalDeclaration (c : Core.Configuration) (d : Declaration) : Declaration :=
  mkDeclaration (d_info d) (d_leading d) (canonicalSpan c (d_span d)).

(** The declarations and members in the order the assembled text lists
    them. *)
Definition canonicalUnit (c : Core.Configuration) (u : SourceUnit) : SourceUnit :=
  mkSourceUnit (u_leading u)
    (map (canonicalDeclaration c)
         (Core.flatten (organizeDeclarations c (u_declarations u))))
    (u_trailing u).

(** *** The parser *)

(** The first line that [p] accepts, with the lines before and after it. *)
Fixpoint breakAt (p : string -> bool) (ls : list string)
  : option (list string * string * list string) :=
  match ls with
  | [] => None
  | l :: ls' =>
      if p l then Some ([], l, ls')
      else match breakAt p ls' with
           | Some (before, x, after) => Some (l :: before, x, after)
           | None => None
           end
  end.

Definition isClass (k : Core.DeclarationKind) : bool :=
  match k with
  | Core.ClassDeclaration => true
  | _ => false
  end.

Section Language.

(** Modelled from the spec: the source language, which the spec leaves
    open: what a line of source is taken for. *)
Variable lex : string -> LineKind.

(** A marker line is a comment, whatever the language makes of it. *)
Definition kindOfLine (l : string) : LineKind :=
  if isMarker l then Trivia else lex l.

Definition trivia (l : string) : bool :=
  match kindOfLine l with
  | Trivia => true
  | _ => false
  end.

Definition closes (l : string) : bool :=
  match kindOfLine l with
  | Closes => true
  | _ => false
  end.

Definition startsDeclaration (l : string) : option DeclarationInfo :=
  match kindOfLine l with
  | Declares k n e => Some (mkDeclarationInfo k n e)
  | _ => None
  end.

Definition startsMember (l : string) : option MemberInfo :=
  match kindOfLine l with
  | DeclaresMember k a s n => Some (mkMemberInfo k a s n)
  | _ => None
  end.

(** Modelled from the spec: the span of a declaration (sections 3 and 4.1).
    The lines of a class are its first line, the lines up to the line that
    closes it, grouped into members, and that line with what follows; a
    class that no line closes is a syntax error. Interfaces and enums keep
    their "internal member order untouched" (section 4.2), like every
    other declaration. *)
Definition parseSpan (info : DeclarationInfo) (lns : list string) : option Span :=
  if isClass (di_kind info) then
    match lns with
    | [] => None
    | start :: body =>
        match breakAt closes body with
        | Some (inner, close, post) =>
            match group startsMember trivia inner with
            | (head, ms, dangling) =>
                Some (ClassSpan (start :: head) ms (dangling ++ close :: post))
            end
        | None => None
        end
    end
  else Some (Verbatim lns).

Definition parseDeclaration (e : Element DeclarationInfo) : option Declaration :=
  match parseSpan (e_info e) (e_lines e) with
  | Some sp => Some (mkDeclaration (e_info e) (e_leading e) sp)
  | None => None
  end.

Fixpoint parseDeclarations (es : list (Element DeclarationInfo))
  : option (list Declaration) :=
  match es with
  | [] => Some []
  | e :: es' =>
      match parseDeclaration e, parseDeclarations es' with
      | Some d, Some ds => Some (d :: ds)
      | _, _ => None
      end
  end.

(** Modelled from the spec: the parser (section 4.1), "given source text,
    produce a SourceUnit or fail with a ParseError"; it keeps, "attached to
    each Declaration/Member, every comment and decoration immediately
    preceding it". The spec gives the contract only; this parser reads the
    text line by line. *)
Definition parse (ls : list string) : option SourceUnit :=
  match group startsDeclaration trivia ls with
  | (head, es, rest) =>
      match parseDeclarations es with
      | Some ds => Some (mkSourceUnit head ds rest)
      | None => None
      end
  end.

(** Modelled from the spec: the entry point
    [organize(filePath, sourceText, configuration)] of section 6: parse,
    classify, render, assemble, compare (section 4.5, "an exact text
    comparison between input and output"). Every line of the output ends
    with a line break. *)
Definition organize (filePath sourceText : string) (c : Core.Configuration)
  : Exn + Core.Result :=
  match parse (Lines.lines sourceText) with
  | None => inl (ParseError filePath)
  | Some u =>
      let text := Lines.unlines (assemble c u) in
      inr (Core.mkResult (negb (String.eqb text sourceText)) text)
  end.

(** Modelled from the spec: the organizer as the host calls it,
    [SourceCodeOrganizer.organizeSourceCode]: the output text, or the
    error. *)
Definition organizeSourceCode (filePath sourceText : string) (c : Core.Configuration)
  : Exn + string :=
  match organize filePath sourceText c with
  | inl e => inl e
  | inr r => inr (Core.outputText r)
  end.

(** A class span as the parser builds it. *)
Definition wellFormedSpan (info : DeclarationInfo) (sp : Span) : Prop :=
  match sp with
  | Verbatim _ => isClass (di_kind info) = false
  | ClassSpan head ms tail =>
      isClass (di_kind info) = true
      /\ exists start inner dangling close post,
          head = start :: inner
          /\ tail = dangling ++ close :: post
          /\ closes close = true
          /\ Forall (fun l => closes l = false)
                    (ungroup (inner, ms, dangling))
          /\ wellGroupedAll startsMember trivia (inner, ms, dangling)
  end.

(** A declaration as the parser builds it. *)
Definition wellFormed (d : Declaration) : Prop :=
  wellGrouped startsDeclaration trivia (declarationElement d)
  /\ wellFormedSpan (d_info d) (d_span d).

(** A source unit as the parser builds it. *)
Definition wellFormedUnit (u : SourceUnit) : Prop :=
  Forall (fun l => startsDeclaration l = None) (u_leading u)
  /\ endsSolid trivia (u_leading u)
  /\ Forall wellFormed (u_declarations u)
  /\ Forall (fun l => trivia l = true) (u_trailing u).

End Language.

End Organizer.

(** A host whose organizer is the organizer above: [host] with
    [SourceCodeOrganizer.organizeSourceCode] reading the sections of its
    configuration through [policyOf]. *)
Definition withOrganizer (lex : string -> Organizer.LineKind) (host : Host)
  (policyOf : @Configuration host -> Core.Configuration) : Host :=
  @Build_Host
    (@Configuration host)
    (@files_include host)
    (@files_exclude host)
    (@globToRegExp_test host)
    (@getFullPath host)
    (@getDirectoryPath host)
    (@joinPath host)
    (@getRelativePath host)
    (@toLowerCase host)
    (@languageIdOf host)
    (@Configuration_getConfiguration host)
    (@Configuration_getDefaultConfiguration host)
    (fun p s cfg => Organizer.organizeSourceCode lex p s (policyOf cfg)).

(* ===================================================================== *)
(** ** A reading of TypeScript lines, for the concrete host *)
(* ===================================================================== *)

Module DemoLines.

Import Organizer.

(** Sources laid out the usual way: declarations start at the margin,
    members of a class are indented by two spaces, and a brace at the
    margin closes the class. *)

Fixpoint trimLeft (s : string) : string :=
  match s with
  | String " " s' => trimLeft s'
  | _ => s
  end.

Definition isNameChar (c : ascii) : bool :=
  let n := nat_of_ascii c in
  ((48 <=? n) && (n <=? 57) || (65 <=? n) && (n <=? 90)
   || (97 <=? n) && (n <=? 122) || (n =? 95) || (n =? 36))%nat.

(** The name a text starts with. *)
Fixpoint word (s : string) : string :=
  match s with
  | String c s' => if isNameChar c then String c (word s') else EmptyString
  | EmptyString => EmptyString
  end.

(** [s] without the prefix [p], when it starts with it. *)
Definition after (p s : string) : option string :=
  if String.prefix p s then Some (Doc.drop (String.length p) s) else None.

Definition isTrivia (l : string) : bool :=
  let t := trimLeft l in
  String.eqb t "" || String.prefix "//" t || String.prefix "/*" t
  || String.prefix "*" t || String.prefix "@" t.

Definition declarationKeywords : list (string * Core.DeclarationKind) :=
  [ ("class ", Core.ClassDeclaration);
    ("abstract class ", Core.ClassDeclaration);
    ("interface ", Core.InterfaceDeclaration);
    ("enum ", Core.EnumDeclaration);
    ("type ", Core.TypeAliasDeclaration);
    ("function ", Core.FunctionDeclaration);
    ("const ", Core.VariableStatement);
    ("let ", Core.VariableStatement);
    ("var ", Core.VariableStatement) ].

Fixpoint declares (keywords : list (string * Core.DeclarationKind))
  (exported : bool) (s : string) : option LineKind :=
  match keywords with
  | [] => None
  | (keyword, kind) :: keywords' =>
      match after keyword s with
      | Some rest => Some (Declares kind (word rest) exported)
      | None => declares keywords' exported s
      end
  end.

Definition lexDeclaration (l : string) : option LineKind :=
  match after "export " l with
  | Some rest => declares declarationKeywords true rest
  | None => declares declarationKeywords false l
  end.

Definition accessibilities : list (string * Core.Accessibility) :=
  [ ("public ", Core.Public); ("protected ", Core.Protected);
    ("private ", Core.Private) ].

Fixpoint accessibilityOf (table : list (string * Core.Accessibility)) (s : string)
  : Core.Accessibility * string :=
  match table with
  | [] => (Core.Public, s)
  | (keyword, a) :: table' =>
      match after keyword s with
      | Some rest => (a, rest)
      | None => accessibilityOf table' s
      end
  end.

(** A member, from its line without the indentation: the accessibility,
    [static], then a constructor, an accessor, a method or a property. *)
Definition lexMember (s : string) : LineKind :=
  let (a, s1) := accessibilityOf accessibilities s in
  let (static, s2) :=
    match after "static " s1 with
    | Some rest => (true, rest)
    | None => (false, s1)
    end in
  if String.prefix "constructor" s2
  then DeclaresMember Core.ConstructorMember a static "constructor"
  else
    match after "get " s2, after "set " s2 with
    | Some rest, _ | None, Some rest =>
        DeclaresMember Core.AccessorMember a static (word rest)
    | None, None =>
        let name := word s2 in
        let rest := Doc.drop (String.length name) s2 in
        if String.prefix "(" rest || String.prefix "<" rest
        then DeclaresMember Core.MethodMember a static name
        else DeclaresMember Core.PropertyMember a static name
    end.

Definition lex (l : string) : LineKind :=
  if isTrivia l then Trivia
  else if String.prefix "}" l then Closes
  else
    match lexDeclaration l with
    | Some k => k
    | None =>
        match after "  " l with
        | Some rest =>
            if String.prefix " " rest || String.prefix "}" rest || String.eqb (word rest) ""
            then Other
            else lexMember rest
        | None => Other
        end
    end.

(** The concrete host with the organizer on lines. *)
Definition host : Host := withOrganizer lex Demo.host (fun c => c).

(** A class with a commented method before a property, in sections of an
    earlier run that are out of date; a function comes first. *)
Definition text3 : string :=
  "import { x } from 'x';" ++ Core.LF
  ++ Core.LF
  ++ "// #region Functions (7)" ++ Core.LF
  ++ "// says hello" ++ Core.LF
  ++ "export function hello() {" ++ Core.LF
  ++ "  return x;" ++ Core.LF
  ++ "}" ++ Core.LF
  ++ "// #endregion Functions" ++ Core.LF
  ++ "class A {" ++ Core.LF
  ++ "  // the method" ++ Core.LF
  ++ "  foo() {" ++ Core.LF
  ++ "    return this.bar;" ++ Core.LF
  ++ "  }" ++ Core.LF
  ++ "  private bar = 1;" ++ Core.LF
  ++ "}" ++ Core.LF.

(** The same file organized: the blank line and the comment before
    [hello] are its leading block and move with it. *)
Definition text4 : string :=
  "import { x } from 'x';" ++ Core.LF
  ++ "// #region Classes (1)" ++ Core.LF
  ++ "class A {" ++ Core.LF
  ++ "// #region Properties (1)" ++ Core.LF
  ++ "  private bar = 1;" ++ Core.LF
  ++ "// #endregion Properties" ++ Core.LF
  ++ "// #region Methods (1)" ++ Core.LF
  ++ "  // the method" ++ Core.LF
  ++ "  foo() {" ++ Core.LF
  ++ "    return this.bar;" ++ Core.LF
  ++ "  }" ++ Core.LF
  ++ "// #endregion Methods" ++ Core.LF
  ++ "}" ++ Core.LF
  ++ "// #endregion Classes" ++ Core.LF
  ++ "// #region Functions (1)" ++ Core.LF
  ++ Core.LF
  ++ "// says hello" ++ Core.LF
  ++ "export function hello() {" ++ Core.LF
  ++ "  return x;" ++ Core.LF
  ++ "}" ++ Core.LF
  ++ "// #endregion Functions" ++ Core.LF.

End DemoLines.

(** The documents shown so far ([vscode.window.showTextDocument]), most
    recent first. *)
Fixpoint shownFiles (t : list Event) : list string :=
  match t with
  | [] => []
  | EvShowTextDocument p :: t' => p :: shownFiles t'
  | _ :: t' => shownFiles t'
  end.

(* ===================================================================== *)
(** * Properties *)
(* ===================================================================== *)

(** ** Strings and documents *)

Lemma append_empty_r (s : string) : (s ++ "")%string = s.
Proof. induction s as [|c s IH]; simpl; [reflexivity | now rewrite IH]. Qed.

Lemma substring_none (n : nat) (s : string) : String.substring n 0 s = "".
Proof.
  revert n; induction s as [|c s IH]; intros [|n]; simpl; auto.
Qed.

Module DocFacts.
Import Doc.

Lemma push_char_extent c ls :
  ls <> [] -> extent (push_char c ls) = S (extent ls).
Proof. destruct ls as [|l rest]; simpl; [congruence | lia]. Qed.

Lemma push_char_endsOpen c ls : endsOpen ls -> endsOpen (push_char c ls).
Proof.
  intros [Hl Hne]. destruct ls as [|l rest]; [congruence|].
  split; [|simpl; congruence].
  simpl. destruct rest; simpl in *; auto.
Qed.

Lemma cons_endsOpen l ls : endsOpen ls -> endsOpen (l :: ls).
Proof.
  intros [Hl Hne]. split; [|congruence].
  destruct ls; [congruence | exact Hl].
Qed.

Lemma splitLines_shape_bounded n :
  forall s, String.length s <= n ->
            endsOpen (splitLines s) /\ extent (splitLines s) = String.length s.
Proof.
  induction n as [n IH] using lt_wf_ind.
  intros [|c s] Hn.
  - simpl. split; [split; [reflexivity | congruence] | reflexivity].
  - simpl in Hn.
    assert (Hs : endsOpen (splitLines s) /\ extent (splitLines s) = String.length s)
      by (apply (IH (String.length s)); lia).
    destruct Hs as [Hopen Hext].
    simpl. destruct (Ascii.eqb c LF).
    + split; [now apply cons_endsOpen | simpl; lia].
    + destruct (Ascii.eqb c CR).
      * destruct s as [|c' s'].
        -- split; [now apply cons_endsOpen | simpl; lia].
        -- destruct (Ascii.eqb c' LF).
           ++ assert (Hs' : endsOpen (splitLines s')
                            /\ extent (splitLines s') = String.length s')
                by (apply (IH (String.length s')); simpl in Hn; lia).
              destruct Hs' as [Hopen' Hext'].
              split; [now apply cons_endsOpen | simpl; lia].
           ++ split; [now apply cons_endsOpen | simpl in *; lia].
      * split; [now apply push_char_endsOpen|].
        rewrite push_char_extent; [lia | apply Hopen].
Qed.

Lemma splitLines_shape s :
  endsOpen (splitLines s) /\ extent (splitLines s) = String.length s.
Proof. apply (splitLines_shape_bounded (n := String.length s)); lia. Qed.

Lemma offsetIn_last rest :
  forall l,
    endsOpen (l :: rest) ->
    offsetIn (l :: rest) (List.length rest)
      (String.length (line_text (nth (List.length rest) (l :: rest) (mkLine "" 0))))
    = extent (l :: rest).
Proof.
  induction rest as [|l2 rest' IH]; intros l [Hl Hne].
  - simpl in *. rewrite Hl. lia.
  - assert (Hrest : endsOpen (l2 :: rest')) by (split; [exact Hl | congruence]).
    specialize (IH l2 Hrest).
    change (offsetIn (l :: l2 :: rest') (List.length (l2 :: rest'))
              (String.length
                 (line_text (nth (List.length (l2 :: rest')) (l :: l2 :: rest')
                                 (mkLine "" 0)))))
      with (String.length (line_text l) + line_eol l
            + offsetIn (l2 :: rest') (List.length rest')
                (String.length
                   (line_text (nth (List.length rest') (l2 :: rest') (mkLine "" 0))))).
    rewrite IH. reflexivity.
Qed.

Lemma offsetIn_end ls :
  endsOpen ls ->
  offsetIn ls (List.length ls - 1)
    (String.length (line_text (nth (List.length ls - 1) ls (mkLine "" 0))))
  = extent ls.
Proof.
  intros Hopen. destruct ls as [|l rest]; [destruct Hopen; congruence|].
  replace (List.length (l :: rest) - 1) with (List.length rest) by (simpl; lia).
  now apply offsetIn_last.
Qed.

(** The range the extension builds starts at offset 0 and ends at the end
    of the text. *)
Lemma wholeRange_offsets d :
  offsetAt (doc_text d) (range_start (wholeRange d)) = 0
  /\ offsetAt (doc_text d) (range_end (wholeRange d)) = String.length (doc_text d).
Proof.
  destruct (splitLines_shape (doc_text d)) as [Hopen Hext].
  split.
  - unfold offsetAt, wholeRange; simpl.
    destruct (splitLines (doc_text d)); reflexivity.
  - unfold offsetAt, wholeRange, lineCount, lineAt; simpl.
    rewrite offsetIn_end by exact Hopen. exact Hext.
Qed.

(** Replacing that range leaves exactly the new text. *)
Lemma replace_wholeRange d newText :
  replaceRange (doc_text d) (wholeRange d) newText = newText.
Proof.
  unfold replaceRange.
  destruct (wholeRange_offsets d) as [-> ->].
  unfold take, drop. rewrite Nat.sub_diag, !substring_none.
  simpl. apply append_empty_r.
Qed.

End DocFacts.

(** ** The file filter *)

Section FilterFacts.

Context {H : Host}.

Lemma existsb_guarded {A} (f : A -> bool) (l : list A) :
  (if Nat.ltb 0 (List.length l) then existsb f l else false) = existsb f l.
Proof. destruct l; reflexivity. Qed.

Lemma shouldOrganizeFile_eq rel cfg :
  shouldOrganize (shouldOrganizeFile rel cfg)
  = (match files_include cfg with
     | [] => true
     | _ :: _ => existsb (fun inc => matchesEitherForm inc rel) (files_include cfg)
     end
     && negb (existsb (fun exc => matchesEitherForm exc rel) (files_exclude cfg)))%bool.
Proof.
  unfold shouldOrganizeFile.
  rewrite existsb_guarded.
  fold (withoutDotSegments rel).
  change (fun exc => matches exc rel || matches exc (withoutDotSegments rel))%bool
    with (fun exc => matchesEitherForm exc rel).
  change (fun inc => matches inc rel || matches inc (withoutDotSegments rel))%bool
    with (fun exc => matchesEitherForm exc rel).
  destruct (files_include cfg) as [|i incs].
  - simpl. destruct (existsb _ (files_exclude cfg)); reflexivity.
  - change (Nat.ltb 0 (List.length (i :: incs))) with true. cbv iota.
    destruct (existsb _ (i :: incs)); simpl.
    + destruct (existsb _ (files_exclude cfg)); reflexivity.
    + reflexivity.
Qed.

Lemma shouldOrganizeFile_reason rel cfg :
  shouldOrganize (shouldOrganizeFile rel cfg) = false ->
  reason (shouldOrganizeFile rel cfg) <> None.
Proof.
  unfold shouldOrganizeFile.
  destruct (negb _); simpl; [congruence|].
  destruct (if Nat.ltb 0 (List.length (files_exclude cfg)) then _ else false);
    simpl; congruence.
Qed.

End FilterFacts.

(** ** One run of [organize] *)

Section OrganizeFacts.

Context {H : Host}.

Lemma find_map_edited pred p r new (l : list Doc.TextDocument) :
  (forall d, pred (edited p r new d) = pred d) ->
  find pred (map (edited p r new) l) = option_map (edited p r new) (find pred l).
Proof.
  intros Hp. induction l as [|d l IH]; simpl; [reflexivity|].
  rewrite Hp. destruct (pred d); [reflexivity | exact IH].
Qed.

Lemma edited_fsPath p r new d : Doc.doc_fsPath (edited p r new d) = Doc.doc_fsPath d.
Proof. unfold edited. destruct (String.eqb _ _); reflexivity. Qed.

Lemma edited_self d new :
  edited (Doc.doc_fsPath d) (Doc.wholeRange d) new d
  = Doc.mkTextDocument (Doc.doc_fsPath d) (Doc.doc_languageId d) new.
Proof.
  unfold edited. rewrite String.eqb_refl.
  now rewrite DocFacts.replace_wholeRange.
Qed.

Lemma find_app_none {A} (f : A -> bool) l x :
  find f l = None -> f x = true -> find f (l ++ [x]) = Some x.
Proof.
  induction l as [|a l IH]; simpl; intros Hn Hx.
  - now rewrite Hx.
  - destruct (f a); [discriminate | now apply IH].
Qed.

(** The file is filtered out: one log line, nothing else. *)
Lemma organize_filtered p cfg w :
  passesFilter w p cfg = false ->
  exists m, organize p cfg w = (Returned false, logged m w).
Proof.
  intros Hf. unfold passesFilter, workspaceRoot in Hf.
  unfold organize, getWorkspaceRootDirectoryPath, bind, gets.
  rewrite Hf. eexists. reflexivity.
Qed.

(** Neither an editor nor a file has the text: the read fails. *)
Lemma organize_unreadable p cfg w :
  passesFilter w p cfg = true ->
  sourceOf w p = None ->
  organize p cfg w = (Thrown (IoError p), w).
Proof.
  intros Hf Hs. unfold passesFilter, workspaceRoot in Hf.
  unfold sourceOf, openedEditor in Hs.
  unfold organize, getWorkspaceRootDirectoryPath, getOpenedEditor, bind, gets.
  rewrite Hf. cbn [negb].
  destruct (find _ (visibleTextEditors w)) as [e|]; [discriminate|].
  unfold readFile. now rewrite Hs.
Qed.

(** The organizer fails: its error is the outcome, after the call alone. *)
Lemma organize_fails p cfg w src e :
  passesFilter w p cfg = true ->
  sourceOf w p = Some src ->
  organizeSourceCode p src cfg = inl e ->
  organize p cfg w = (Thrown e, withEvent (EvOrganizeSourceCode p src) w).
Proof.
  intros Hf Hs Hc. unfold passesFilter, workspaceRoot in Hf.
  unfold sourceOf, openedEditor in Hs.
  unfold organize, getWorkspaceRootDirectoryPath, getOpenedEditor, bind, gets.
  rewrite Hf. cbn [negb].
  destruct (find _ (visibleTextEditors w)) as [d|].
  - injection Hs as Hs. unfold ret at 1. rewrite Hs.
    unfold SourceCodeOrganizer_organizeSourceCode, bind, emit. now rewrite Hc.
  - unfold readFile. rewrite Hs.
    unfold SourceCodeOrganizer_organizeSourceCode, bind, emit. now rewrite Hc.
Qed.

(** The organizer returns the text it was given: a log line after the call. *)
Lemma organize_unchanged p cfg w src :
  passesFilter w p cfg = true ->
  sourceOf w p = Some src ->
  organizeSourceCode p src cfg = inr src ->
  exists m,
    organize p cfg w = (Returned false, logged m (withEvent (EvOrganizeSourceCode p src) w)).
Proof.
  intros Hf Hs Hc. unfold passesFilter, workspaceRoot in Hf.
  unfold sourceOf, openedEditor in Hs.
  unfold organize, getWorkspaceRootDirectoryPath, getOpenedEditor, bind, gets.
  rewrite Hf. cbn [negb].
  destruct (find _ (visibleTextEditors w)) as [d|].
  - injection Hs as Hs. unfold ret at 1. rewrite Hs.
    unfold SourceCodeOrganizer_organizeSourceCode, bind, emit. rewrite Hc.
    unfold ret at 1. unfold JsString.strict_neq. rewrite String.eqb_refl.
    eexists. reflexivity.
  - unfold readFile. rewrite Hs.
    unfold SourceCodeOrganizer_organizeSourceCode, bind, emit. rewrite Hc.
    unfold ret at 1. unfold JsString.strict_neq. rewrite String.eqb_refl.
    eexists. reflexivity.
Qed.

(** The organizer returns another text: the editor's document [d] (opened
    first when the file was not shown) is replaced as a whole. *)
Lemma organize_changed p cfg w src out :
  passesFilter w p cfg = true ->
  sourceOf w p = Some src ->
  organizeSourceCode p src cfg = inr out ->
  out <> src ->
  exists d w' shown,
    organize p cfg w = (Returned true, w')
    /\ Doc.getText d = src
    /\ settings w' = settings w
    /\ workspaceFolders w' = workspaceFolders w
    /\ fs w' = fs w
    /\ visibleTextEditors w'
       = map (edited (Doc.doc_fsPath d) (Doc.wholeRange d) out)
             (visibleTextEditors w ++ shown)
    /\ (shown = [] \/ shown = [d])
    /\ In d (visibleTextEditors w ++ shown)
    /\ openedEditor w' p
       = Some (Doc.mkTextDocument (Doc.doc_fsPath d) (Doc.doc_languageId d) out)
    /\ appliedEdits (trace w')
       = (Doc.doc_fsPath d, Doc.wholeRange d, out) :: appliedEdits (trace w)
    /\ organizerCalls (trace w') = (p, src) :: organizerCalls (trace w).
Proof.
  intros Hf Hs Hc Hne. unfold passesFilter, workspaceRoot in Hf.
  unfold sourceOf in Hs.
  assert (Hneq : JsString.strict_neq out src = true).
  { unfold JsString.strict_neq. destruct (String.eqb_spec out src); [contradiction | reflexivity]. }
  destruct (openedEditor w p) as [d|] eqn:Hopen.
  - injection Hs as Hs.
    exists d, (mapDocuments (edited (Doc.doc_fsPath d) (Doc.wholeRange d) out)
                 (withEvent (EvLog ("tsco organized " ++ p))
                    (withEvent (EvApplyEdit (Doc.doc_fsPath d) (Doc.wholeRange d) out)
                       (withEvent (EvOrganizeSourceCode p src) w)))), [].
    split.
    { unfold openedEditor in Hopen.
      unfold organize, getWorkspaceRootDirectoryPath, getOpenedEditor, bind, gets.
      rewrite Hf. cbn [negb]. rewrite Hopen. unfold ret at 1. rewrite Hs.
      unfold SourceCodeOrganizer_organizeSourceCode, bind, emit. rewrite Hc.
      unfold ret at 1. rewrite Hneq. reflexivity. }
    rewrite app_nil_r.
    repeat split; auto.
    + unfold openedEditor in Hopen. now apply find_some in Hopen.
    + unfold openedEditor in *. simpl.
      rewrite find_map_edited by (intros d'; now rewrite edited_fsPath).
      rewrite Hopen. simpl. now rewrite edited_self.
  - exists (Doc.mkTextDocument p (languageIdOf p) src).
    set (d := Doc.mkTextDocument p (languageIdOf p) src).
    exists (mkWorld (settings w) (workspaceFolders w) (fs w)
              (map (edited p (Doc.wholeRange d) out) (visibleTextEditors w ++ [d]))
              (EvLog ("tsco organized " ++ p)
                 :: EvApplyEdit p (Doc.wholeRange d) out
                 :: EvShowTextDocument p
                 :: EvOrganizeSourceCode p src :: trace w)), [d].
    split.
    { unfold openedEditor in Hopen.
      unfold organize, openEditor, showTextDocument,
        getWorkspaceRootDirectoryPath, getOpenedEditor, bind, gets.
      rewrite Hf. cbn [negb]. rewrite Hopen.
      unfold readFile at 1. rewrite Hs.
      unfold SourceCodeOrganizer_organizeSourceCode, bind, emit. rewrite Hc.
      unfold ret at 1. rewrite Hneq. cbn [visibleTextEditors].
      rewrite Hopen. unfold readFile. cbn [fs]. rewrite Hs. reflexivity. }
    repeat split; auto.
    + apply in_or_app. right. now left.
    + unfold openedEditor in *. cbn [visibleTextEditors].
      rewrite find_map_edited by (intros d'; now rewrite edited_fsPath).
      rewrite (find_app_none _ _ d Hopen) by (simpl; apply String.eqb_refl).
      simpl. change p with (Doc.doc_fsPath d) at 1. now rewrite edited_self.
Qed.

End OrganizeFacts.

(** ** Configuration discovery *)

Section ConfigurationFacts.

Context {H : Host}.

Lemma loggedAll_sameDocuments ms w : sameDocuments w (loggedAll ms w).
Proof.
  induction ms as [|m ms IH]; simpl; [repeat split|].
  destruct IH as (? & ? & ? & ?). repeat split; assumption.
Qed.

Lemma loggedAll_appliedEdits ms w :
  appliedEdits (trace (loggedAll ms w)) = appliedEdits (trace w).
Proof. induction ms as [|m ms IH]; simpl; [reflexivity | exact IH]. Qed.

Lemma loggedAll_organizerCalls ms w :
  organizerCalls (trace (loggedAll ms w)) = organizerCalls (trace w).
Proof. induction ms as [|m ms IH]; simpl; [reflexivity | exact IH]. Qed.

(** Looking for a configuration only ever writes log lines, and never
    throws. *)
Lemma getConfiguration_walk_only_logs fuel :
  forall dir w o w',
    getConfiguration_walk fuel dir w = (o, w') ->
    (exists ms, w' = loggedAll ms w) /\ (forall e, o <> Thrown e).
Proof.
  induction fuel as [|fuel IH]; intros dir w o w'; simpl;
    destruct (String.eqb dir (getDirectoryPath dir)).
  - intros [= <- <-]. split; [now exists ["tsco using default configuration"] | discriminate].
  - intros [= <- <-]. split; [now exists [] | discriminate].
  - intros [= <- <-]. split; [now exists ["tsco using default configuration"] | discriminate].
  - unfold bind, fileExists, gets.
    destruct (isFile w _).
    + intros [= <- <-]. split; [now exists [] | discriminate].
    + apply IH.
Qed.

Lemma getConfiguration_fromWorkspace_only_logs fuel w o w' :
  getConfiguration_fromWorkspace fuel w = (o, w') ->
  (exists ms, w' = loggedAll ms w) /\ (forall e, o <> Thrown e).
Proof.
  unfold getConfiguration_fromWorkspace, getWorkspaceRootDirectoryPath,
    bind, fileExists, gets.
  destruct (isFile w _).
  - intros [= <- <-]. split; [now exists [] | discriminate].
  - apply getConfiguration_walk_only_logs.
Qed.

Lemma getConfiguration_only_logs fuel cp w o w' :
  getConfiguration fuel cp w = (o, w') ->
  (exists ms, w' = loggedAll ms w) /\ (forall e, o <> Thrown e).
Proof.
  unfold getConfiguration.
  destruct cp as [p|]; [|apply getConfiguration_fromWorkspace_only_logs].
  destruct (JsString.truthy p); [|apply getConfiguration_fromWorkspace_only_logs].
  unfold bind, fileExists, getWorkspaceRootDirectoryPath, gets, log, emit.
  destruct (isFile w p).
  - intros [= <- <-]. split; [now exists [] | discriminate].
  - destruct (isFile w (joinPath _ p)).
    + intros [= <- <-]. split; [now exists [] | discriminate].
    + intros Hrun. apply getConfiguration_fromWorkspace_only_logs in Hrun.
      destruct Hrun as [[ms Hms] Hno]. split; [|exact Hno].
      exists (ms ++ [("tsco configuration file " ++ getFullPath p ++ " not found")%string])%list.
      unfold loggedAll. rewrite fold_right_app. exact Hms.
Qed.

Section Walk.

(** Any bound on how often a directory can be replaced by its parent. *)
Variable height : string -> nat.
Hypothesis parent_lower :
  forall dir, getDirectoryPath dir <> dir -> height (getDirectoryPath dir) < height dir.

Lemma ancestors_enough n : forall m dir,
  height dir <= n -> height dir <= m -> ancestors n dir = ancestors m dir.
Proof.
  induction n as [|n IH]; intros m dir Hn Hm; simpl.
  - destruct (String.eqb_spec dir (getDirectoryPath dir)) as [|Hne].
    + destruct m; simpl; destruct (String.eqb_spec dir (getDirectoryPath dir));
        congruence.
    + assert (height (getDirectoryPath dir) < height dir)
        by (apply parent_lower; congruence). lia.
  - destruct m; simpl; destruct (String.eqb_spec dir (getDirectoryPath dir)) as [|Hne];
      try reflexivity.
    + assert (height (getDirectoryPath dir) < height dir)
        by (apply parent_lower; congruence). lia.
    + assert (height (getDirectoryPath dir) < height dir)
        by (apply parent_lower; congruence).
      f_equal. apply IH; lia.
Qed.

Lemma getConfiguration_walk_settles fuel : forall dir w,
  height dir <= fuel ->
  getConfiguration_walk fuel dir w = walkResult fuel dir w.
Proof.
  unfold walkResult.
  induction fuel as [|fuel IH]; intros dir w Hfuel; simpl;
    destruct (String.eqb_spec dir (getDirectoryPath dir)) as [|Hne];
    try reflexivity.
  - assert (height (getDirectoryPath dir) < height dir)
      by (apply parent_lower; congruence). lia.
  - assert (height (getDirectoryPath dir) < height dir)
      by (apply parent_lower; congruence).
    unfold bind, fileExists, gets. simpl.
    destruct (isFile w (joinPath (getDirectoryPath dir) "tsco.json")); [reflexivity|].
    apply IH. lia.
Qed.

(** With enough iterations allowed, [getConfiguration] returns the
    configuration of the first candidate that exists, or the default. *)
Lemma getConfiguration_fromWorkspace_settles w :
  exists ms, forall fuel,
    height (workspaceRoot w) <= fuel ->
    getConfiguration_fromWorkspace fuel w
    = (Returned (resolvedConfiguration (height (workspaceRoot w)) w None),
       loggedAll ms w).
Proof.
  unfold resolvedConfiguration, configurationCandidates.
  cbn [app find].
  destruct (isFile w (joinPath (workspaceRoot w) "tsco.json")) eqn:Hroot.
  - exists []. intros fuel _.
    unfold getConfiguration_fromWorkspace, getWorkspaceRootDirectoryPath,
      bind, fileExists, gets. fold (workspaceRoot w). now rewrite Hroot.
  - destruct (find (isFile w)
                (map (fun d => joinPath d "tsco.json")
                     (ancestors (height (workspaceRoot w)) (workspaceRoot w))))
      as [q|] eqn:Hfind.
    + exists []. intros fuel Hfuel.
      unfold getConfiguration_fromWorkspace, getWorkspaceRootDirectoryPath,
        bind, fileExists, gets. fold (workspaceRoot w). rewrite Hroot.
      rewrite getConfiguration_walk_settles by exact Hfuel.
      unfold walkResult.
      rewrite (ancestors_enough (n := fuel) (m := height (workspaceRoot w)))
        by (exact Hfuel || lia).
      now rewrite Hfind.
    + exists ["tsco using default configuration"]. intros fuel Hfuel.
      unfold getConfiguration_fromWorkspace, getWorkspaceRootDirectoryPath,
        bind, fileExists, gets. fold (workspaceRoot w). rewrite Hroot.
      rewrite getConfiguration_walk_settles by exact Hfuel.
      unfold walkResult.
      rewrite (ancestors_enough (n := fuel) (m := height (workspaceRoot w)))
        by (exact Hfuel || lia).
      now rewrite Hfind.
Qed.

(** With enough iterations allowed, [getConfiguration] returns the
    configuration of the first candidate that exists, or the default. *)
Lemma getConfiguration_settles w cp :
  exists ms, forall fuel,
    height (workspaceRoot w) <= fuel ->
    getConfiguration fuel cp w
    = (Returned (resolvedConfiguration (height (workspaceRoot w)) w cp),
       loggedAll ms w).
Proof.
  destruct cp as [p|]; [|apply getConfiguration_fromWorkspace_settles].
  unfold getConfiguration.
  destruct (JsString.truthy p) eqn:Htruthy.
  2:{ destruct (getConfiguration_fromWorkspace_settles w) as [ms Hms].
      exists ms. intros fuel Hfuel.
      rewrite (Hms fuel Hfuel). unfold resolvedConfiguration, configurationCandidates.
      now rewrite Htruthy. }
  unfold resolvedConfiguration, configurationCandidates. rewrite Htruthy.
  cbn [app find].
  destruct (isFile w p) eqn:Hp.
  - exists []. intros fuel _.
    unfold bind, fileExists, gets. now rewrite Hp.
  - destruct (isFile w (joinPath (workspaceRoot w) p)) eqn:Hrel.
    + exists []. intros fuel _.
      unfold bind, fileExists, getWorkspaceRootDirectoryPath, gets.
      rewrite Hp. fold (workspaceRoot w). now rewrite Hrel.
    + set (m := ("tsco configuration file " ++ getFullPath p ++ " not found")%string).
      destruct (getConfiguration_fromWorkspace_settles (logged m w)) as [ms Hms].
      exists (ms ++ [m])%list.
      intros fuel Hfuel.
      unfold bind, fileExists, getWorkspaceRootDirectoryPath, gets, log, emit.
      rewrite Hp. fold (workspaceRoot w). rewrite Hrel.
      fold (withEvent (EvLog m) w). fold (logged m w).
      rewrite (Hms fuel Hfuel).
      unfold loggedAll. rewrite fold_right_app. reflexivity.
Qed.

End Walk.

End ConfigurationFacts.

(** ** The save hook *)

Section SaveFacts.

Context {H : Host}.

(** The three guards of [onSave]. *)
Lemma onSave_guarded fuel ev w :
  organizeOnSave (settings w) = true ->
  Doc.doc_languageId (event_document ev) = "typescript" ->
  matches "**/*.ts" (getFullPath (Doc.doc_fsPath (event_document ev))) = true ->
  onSave fuel ev w
  = (Some (fst (onSave_edits fuel ev (getFullPath (Doc.doc_fsPath (event_document ev)))
                  (logged (onSave_message ev w) w))),
     snd (onSave_edits fuel ev (getFullPath (Doc.doc_fsPath (event_document ev)))
            (logged (onSave_message ev w) w))).
Proof.
  intros Hon Hlang Hglob. unfold onSave, log, emit. cbn [settings].
  rewrite Hon, Hlang, Hglob. simpl.
  fold (withEvent (EvLog (onSave_message ev w)) w). fold (logged (onSave_message ev w) w).
  now destruct (onSave_edits _ _ _ _).
Qed.

Lemma onSave_unguarded fuel ev w :
  organizeOnSave (settings w) = false
  \/ Doc.doc_languageId (event_document ev) <> "typescript"
  \/ matches "**/*.ts" (getFullPath (Doc.doc_fsPath (event_document ev))) = false ->
  onSave fuel ev w = (None, logged (onSave_message ev w) w).
Proof.
  intros Hg. unfold onSave, log, emit. cbn [settings].
  destruct (organizeOnSave (settings w)); [|reflexivity].
  destruct (String.eqb_spec (Doc.doc_languageId (event_document ev)) "typescript")
    as [Hl|Hl]; [|reflexivity].
  destruct (matches "**/*.ts" _); [|reflexivity].
  destruct Hg as [Hg|[Hg|Hg]]; congruence.
Qed.

(** What the promise of [onSave] comes to once the configuration is there. *)
Lemma onSave_edits_eq fuel ev p w cfg w2 :
  getConfiguration fuel (configurationFilePath (settings w)) w = (Returned cfg, w2) ->
  onSave_edits fuel ev p w
  = if negb (passesFilter w2 p cfg)
    then (Returned [],
          logged ("tsco skipping organizing " ++ p ++ ", because it "
                    ++ show_reason
                         (reason (shouldOrganizeFile
                                    (getRelativePath (workspaceRoot w2) p) cfg))) w2)
    else
      let text := Doc.getText (event_document ev) in
      match organizeSourceCode p text cfg with
      | inl e => (Thrown e, withEvent (EvOrganizeSourceCode p text) w2)
      | inr out =>
          if JsString.strict_neq out text
          then (Returned [Doc.mkTextEdit (Doc.wholeRange (event_document ev)) out],
                logged ("tsco organized " ++ p)
                       (withEvent (EvOrganizeSourceCode p text) w2))
          else (Returned [],
                logged ("tsco skipping organizing " ++ p
                          ++ ", because it is already organized")
                       (withEvent (EvOrganizeSourceCode p text) w2))
      end.
Proof.
  intros Hcfg.
  unfold onSave_edits, bind at 1, gets at 1. unfold bind at 1. rewrite Hcfg.
  unfold getWorkspaceRootDirectoryPath, bind at 1, gets.
  unfold passesFilter. fold (workspaceRoot w2).
  destruct (shouldOrganize _); cbn [negb]; [|reflexivity].
  unfold SourceCodeOrganizer_organizeSourceCode, bind, emit.
  cbv zeta.
  destruct (organizeSourceCode p _ cfg) as [e|out]; [reflexivity|].
  unfold ret at 1. destruct (JsString.strict_neq out _); reflexivity.
Qed.

Lemma getConfiguration_frame fuel cp w cfg w2 :
  getConfiguration fuel cp w = (Returned cfg, w2) ->
  sameDocuments w w2
  /\ appliedEdits (trace w2) = appliedEdits (trace w)
  /\ organizerCalls (trace w2) = organizerCalls (trace w).
Proof.
  intros Hcfg. apply getConfiguration_only_logs in Hcfg.
  destruct Hcfg as [[ms ->] _].
  split; [apply loggedAll_sameDocuments|].
  split; [apply loggedAll_appliedEdits | apply loggedAll_organizerCalls].
Qed.

Lemma passesFilter_sameDocuments w w' p cfg :
  sameDocuments w w' -> passesFilter w' p cfg = passesFilter w p cfg.
Proof.
  intros (_ & Hws & _ & _). unfold passesFilter, workspaceRoot. now rewrite Hws.
Qed.

Lemma sameDocuments_trans w1 w2 w3 :
  sameDocuments w1 w2 -> sameDocuments w2 w3 -> sameDocuments w1 w3.
Proof.
  intros (A1 & A2 & A3 & A4) (B1 & B2 & B3 & B4).
  repeat split; congruence.
Qed.

Lemma sameDocuments_withEvent e w : sameDocuments w (withEvent e w).
Proof. repeat split. Qed.

End SaveFacts.

(** ** What the host promises *)

Section HostClaims.

Context {H : Host}.

(** C2. An edit is applied exactly when the organized text differs from the
    original. Once [organize] has text [src] for a file that passes the
    filter and the organizer returns [out]: the result is [out !== src];
    if the texts differ, one edit is applied, on the editor's document,
    its range replaces the whole text, and the editor then shows [out];
    if they are equal, no edit is applied and no document changes. In
    [onSave], equal texts give an empty list of edits. *)
Theorem organize_edits_iff_changed :
  (forall w p cfg src out,
      passesFilter w p cfg = true ->
      sourceOf w p = Some src ->
      organizeSourceCode p src cfg = inr out ->
      exists w',
        organize p cfg w = (Returned (JsString.strict_neq out src), w')
        /\ (out <> src ->
            exists d,
              Doc.getText d = src
              /\ appliedEdits (trace w')
                 = (Doc.doc_fsPath d, Doc.wholeRange d, out) :: appliedEdits (trace w)
              /\ Doc.replaceRange (Doc.doc_text d) (Doc.wholeRange d) out = out
              /\ sourceOf w' p = Some out)
        /\ (out = src ->
            appliedEdits (trace w') = appliedEdits (trace w)
            /\ sameDocuments w w'))
  /\ (forall fuel ev w cfg w2,
         organizeOnSave (settings w) = true ->
         Doc.doc_languageId (event_document ev) = "typescript" ->
         matches "**/*.ts" (getFullPath (Doc.doc_fsPath (event_document ev))) = true ->
         getConfiguration fuel (configurationFilePath (settings w))
           (logged (onSave_message ev w) w) = (Returned cfg, w2) ->
         passesFilter w (getFullPath (Doc.doc_fsPath (event_document ev))) cfg = true ->
         organizeSourceCode (getFullPath (Doc.doc_fsPath (event_document ev)))
           (Doc.getText (event_document ev)) cfg
         = inr (Doc.getText (event_document ev)) ->
         exists w',
           onSave fuel ev w = (Some (Returned []), w')
           /\ appliedEdits (trace w') = appliedEdits (trace w)
           /\ sameDocuments w w').
Proof.
  split.
  - intros w p cfg src out Hf Hs Hc.
    destruct (String.eqb_spec out src) as [->|Hne].
    + destruct (organize_unchanged _ _ _ Hf Hs Hc) as [m Hrun].
      eexists. split.
      { rewrite Hrun. unfold JsString.strict_neq. now rewrite String.eqb_refl. }
      split; [congruence|]. intros _. split; [reflexivity | repeat split].
    + destruct (organize_changed _ _ _ Hf Hs Hc Hne)
        as (d & w' & shown & Hrun & Htext & _ & _ & _ & _ & _ & _ & Hopen & Hedits & _).
      exists w'. split.
      { rewrite Hrun. unfold JsString.strict_neq.
        destruct (String.eqb_spec out src); [contradiction | reflexivity]. }
      split; [|contradiction].
      intros _. exists d. repeat split; try assumption.
      * apply DocFacts.replace_wholeRange.
      * unfold sourceOf. now rewrite Hopen.
  - intros fuel ev w cfg w2 Hon Hlang Hglob Hcfg Hf Hc.
    rewrite (onSave_guarded _ _ _ Hon Hlang Hglob).
    rewrite (onSave_edits_eq _ _ _ _ Hcfg).
    destruct (getConfiguration_frame _ _ _ Hcfg) as (Hsame & Hedits & _).
    rewrite (passesFilter_sameDocuments _ _ Hsame).
    change (passesFilter (logged (onSave_message ev w) w)) with (passesFilter w).
    rewrite Hf. cbn [negb]. cbv zeta. rewrite Hc.
    unfold JsString.strict_neq. rewrite String.eqb_refl. cbn [negb fst snd].
    eexists. split; [reflexivity|]. split.
    + cbn [trace logged withEvent appliedEdits]. exact Hedits.
    + eapply sameDocuments_trans; [|apply sameDocuments_withEvent].
      eapply sameDocuments_trans; [|apply sameDocuments_withEvent].
      eapply sameDocuments_trans; [apply sameDocuments_withEvent | exact Hsame].
Qed.

(** C3. When the organizer fails, its error is what the caller gets and
    nothing was edited: [organize] ends with that error after the call of
    the organizer alone, and the promise of [onSave] is rejected with it.
    Whenever a run of [organize] did apply an edit, the organizer had
    returned a text before. *)
Theorem organizer_failure_edits_nothing :
  (forall w p cfg src e,
      passesFilter w p cfg = true ->
      sourceOf w p = Some src ->
      organizeSourceCode p src cfg = inl e ->
      exists w',
        organize p cfg w = (Thrown e, w')
        /\ appliedEdits (trace w') = appliedEdits (trace w)
        /\ sameDocuments w w')
  /\ (forall fuel ev w cfg w2 e,
         organizeOnSave (settings w) = true ->
         Doc.doc_languageId (event_document ev) = "typescript" ->
         matches "**/*.ts" (getFullPath (Doc.doc_fsPath (event_document ev))) = true ->
         getConfiguration fuel (configurationFilePath (settings w))
           (logged (onSave_message ev w) w) = (Returned cfg, w2) ->
         passesFilter w (getFullPath (Doc.doc_fsPath (event_document ev))) cfg = true ->
         organizeSourceCode (getFullPath (Doc.doc_fsPath (event_document ev)))
           (Doc.getText (event_document ev)) cfg = inl e ->
         exists w',
           onSave fuel ev w = (Some (Thrown e), w')
           /\ appliedEdits (trace w') = appliedEdits (trace w)
           /\ sameDocuments w w')
  /\ (forall w p cfg o w',
         organize p cfg w = (o, w') ->
         appliedEdits (trace w') <> appliedEdits (trace w) ->
         exists src out,
           sourceOf w p = Some src
           /\ organizeSourceCode p src cfg = inr out
           /\ out <> src
           /\ o = Returned true).
Proof.
  split; [|split].
  - intros w p cfg src e Hf Hs Hc.
    rewrite (organize_fails _ _ _ Hf Hs Hc).
    eexists. split; [reflexivity|]. split; [reflexivity | repeat split].
  - intros fuel ev w cfg w2 e Hon Hlang Hglob Hcfg Hf Hc.
    rewrite (onSave_guarded _ _ _ Hon Hlang Hglob).
    rewrite (onSave_edits_eq _ _ _ _ Hcfg).
    destruct (getConfiguration_frame _ _ _ Hcfg) as (Hsame & Hedits & _).
    rewrite (passesFilter_sameDocuments _ _ Hsame).
    change (passesFilter (logged (onSave_message ev w) w)) with (passesFilter w).
    rewrite Hf. cbn [negb]. cbv zeta. rewrite Hc. cbn [fst snd].
    eexists. split; [reflexivity|]. split.
    + cbn [trace withEvent appliedEdits]. exact Hedits.
    + eapply sameDocuments_trans; [|apply sameDocuments_withEvent].
      eapply sameDocuments_trans; [apply sameDocuments_withEvent | exact Hsame].
  - intros w p cfg o w' Hrun Hedit.
    destruct (passesFilter w p cfg) eqn:Hf.
    2:{ destruct (organize_filtered _ _ _ Hf) as [m Hm].
        rewrite Hm in Hrun. injection Hrun as <- <-. now elim Hedit. }
    destruct (sourceOf w p) as [src|] eqn:Hs.
    2:{ rewrite (organize_unreadable _ _ _ Hf Hs) in Hrun.
        injection Hrun as <- <-. now elim Hedit. }
    destruct (organizeSourceCode p src cfg) as [e|out] eqn:Hc.
    { rewrite (organize_fails _ _ _ Hf Hs Hc) in Hrun.
      injection Hrun as <- <-. now elim Hedit. }
    destruct (String.eqb_spec out src) as [->|Hne].
    { destruct (organize_unchanged _ _ _ Hf Hs Hc) as [m Hm].
      rewrite Hm in Hrun. injection Hrun as <- <-. now elim Hedit. }
    destruct (organize_changed _ _ _ Hf Hs Hc Hne) as (d & w1 & shown & Hrun1 & _).
    rewrite Hrun1 in Hrun. injection Hrun as <- <-.
    exists src, out. repeat split; auto.
Qed.

(** C4. A file reaches the organizer exactly when it passes the filter.
    [shouldOrganizeFile] answers false when the include list is non-empty
    and none of its patterns matches, else false when an exclude pattern
    matches, else true (so also when both lists are empty); a pattern
    matches when it matches one of the two forms of the path. [organize]
    calls the organizer only for a file that passes, and does call it, on
    the text it has for the file, for every file that passes. *)
Theorem filter_decides_what_is_organized :
  (forall rel cfg,
      shouldOrganize (shouldOrganizeFile rel cfg)
      = if (Nat.ltb 0 (List.length (files_include cfg))
            && negb (existsb (fun inc => matchesEitherForm inc rel) (files_include cfg)))%bool
        then false
        else if existsb (fun exc => matchesEitherForm exc rel) (files_exclude cfg)
             then false
             else true)
  /\ (forall rel cfg,
         files_include cfg = [] -> files_exclude cfg = [] ->
         shouldOrganize (shouldOrganizeFile rel cfg) = true)
  /\ (forall w p cfg o w',
         organize p cfg w = (o, w') ->
         organizerCalls (trace w') <> organizerCalls (trace w) ->
         passesFilter w p cfg = true)
  /\ (forall w p cfg src,
         passesFilter w p cfg = true ->
         sourceOf w p = Some src ->
         organizerCalls (trace (snd (organize p cfg w)))
         = (p, src) :: organizerCalls (trace w)).
Proof.
  split; [|split; [|split]].
  - intros rel cfg. rewrite shouldOrganizeFile_eq.
    destruct (files_include cfg) as [|i incs]; [reflexivity|].
    change (Nat.ltb 0 (List.length (i :: incs))) with true.
    destruct (existsb _ (i :: incs)); simpl; [|reflexivity].
    now destruct (existsb _ (files_exclude cfg)).
  - intros rel cfg Hi He. rewrite shouldOrganizeFile_eq, Hi, He. reflexivity.
  - intros w p cfg o w' Hrun Hcalls.
    destruct (passesFilter w p cfg) eqn:Hf; [reflexivity|].
    destruct (organize_filtered _ _ _ Hf) as [m Hm].
    rewrite Hm in Hrun. injection Hrun as <- <-. now elim Hcalls.
  - intros w p cfg src Hf Hs.
    destruct (organizeSourceCode p src cfg) as [e|out] eqn:Hc.
    { now rewrite (organize_fails _ _ _ Hf Hs Hc). }
    destruct (String.eqb_spec out src) as [->|Hne].
    { destruct (organize_unchanged _ _ _ Hf Hs Hc) as [m ->]. reflexivity. }
    destruct (organize_changed _ _ _ Hf Hs Hc Hne)
      as (d & w1 & shown & -> & _ & _ & _ & _ & _ & _ & _ & _ & _ & Hcalls).
    exact Hcalls.
Qed.

(** C10. Every include and exclude pattern is tried on the raw relative
    path and on the path after [replaceAll("../", "")] and then
    [replaceAll("./", "")], and counts as matching when it matches either;
    a path is organized exactly when the include list is empty or one of
    its patterns matches, and no exclude pattern matches. A path that
    matches an include and an exclude pattern is not organized. *)
Theorem filter_tries_both_forms_exclusion_wins :
  forall rel cfg,
    let cleaned := JsString.replaceAll (JsString.replaceAll rel "../" "") "./" "" in
    (shouldOrganize (shouldOrganizeFile rel cfg) = true <->
     (files_include cfg = []
      \/ exists inc, In inc (files_include cfg)
                     /\ (matches inc rel = true \/ matches inc cleaned = true))
     /\ (forall exc, In exc (files_exclude cfg) ->
                     matches exc rel = false /\ matches exc cleaned = false))
    /\ (forall inc exc,
           In inc (files_include cfg) -> In exc (files_exclude cfg) ->
           matches inc rel = true \/ matches inc cleaned = true ->
           matches exc rel = true \/ matches exc cleaned = true ->
           shouldOrganize (shouldOrganizeFile rel cfg) = false).
Proof.
  intros rel cfg cleaned.
  assert (Hex : forall l,
             existsb (fun q => matchesEitherForm q rel) l = true <->
             exists q, In q l /\ (matches q rel = true \/ matches q cleaned = true)).
  { intros l. rewrite existsb_exists. unfold matchesEitherForm.
    fold cleaned. unfold withoutDotSegments. fold cleaned.
    split; intros (q & Hq & Hm); exists q; (split; [exact Hq|]).
    - now apply orb_true_iff in Hm.
    - now apply orb_true_iff. }
  assert (Hnex : forall l,
             existsb (fun q => matchesEitherForm q rel) l = false <->
             forall q, In q l -> matches q rel = false /\ matches q cleaned = false).
  { intros l. split.
    - intros Hno q Hq.
      destruct (matches q rel) eqn:E1; [|destruct (matches q cleaned) eqn:E2; [|auto]].
      + assert (existsb (fun q => matchesEitherForm q rel) l = true)
          by (apply Hex; exists q; auto). congruence.
      + assert (existsb (fun q => matchesEitherForm q rel) l = true)
          by (apply Hex; exists q; auto). congruence.
    - intros Hall. destruct (existsb _ l) eqn:E; [|reflexivity].
      apply Hex in E. destruct E as (q & Hq & Hm).
      destruct (Hall q Hq) as [E1 E2]. destruct Hm; congruence. }
  split.
  - rewrite shouldOrganizeFile_eq, andb_true_iff, negb_true_iff, Hnex.
    destruct (files_include cfg) as [|i incs] eqn:Hinc.
    + split; [intros [_ He]; split; [now left | exact He] | intros [_ He]; now split].
    + rewrite Hex. split.
      * intros [Hi He]. split; [now right | exact He].
      * intros [[Hi|Hi] He]; [discriminate | now split].
  - intros inc exc Hinc Hexc Hm Hm'.
    rewrite shouldOrganizeFile_eq.
    assert (E : existsb (fun q => matchesEitherForm q rel) (files_exclude cfg) = true)
      by (apply Hex; exists exc; auto).
    rewrite E. apply andb_false_r.
Qed.

(** C8. [onSave] hands a promise of edits to [event.waitUntil] only when
    [organizeOnSave] is set, the language of the document is "typescript"
    and its full path matches "**/*.ts"; when one of the three fails,
    nothing is handed over and the handler only writes its log line. *)
Theorem onSave_registers_only_under_guards :
  forall fuel ev w,
    (forall promise w',
        onSave fuel ev w = (Some promise, w') ->
        organizeOnSave (settings w) = true
        /\ Doc.doc_languageId (event_document ev) = "typescript"
        /\ matches "**/*.ts" (getFullPath (Doc.doc_fsPath (event_document ev))) = true)
    /\ (organizeOnSave (settings w) = false
        \/ Doc.doc_languageId (event_document ev) <> "typescript"
        \/ matches "**/*.ts" (getFullPath (Doc.doc_fsPath (event_document ev))) = false ->
        exists w',
          onSave fuel ev w = (None, w')
          /\ sameDocuments w w'
          /\ appliedEdits (trace w') = appliedEdits (trace w)
          /\ organizerCalls (trace w') = organizerCalls (trace w)).
Proof.
  intros fuel ev w. split.
  - intros promise w' Hrun.
    destruct (organizeOnSave (settings w)) eqn:Hon.
    2:{ rewrite onSave_unguarded in Hrun by auto. discriminate. }
    destruct (String.eqb_spec (Doc.doc_languageId (event_document ev)) "typescript")
      as [Hl|Hl].
    2:{ rewrite onSave_unguarded in Hrun by auto. discriminate. }
    destruct (matches "**/*.ts" _) eqn:Hg.
    2:{ rewrite onSave_unguarded in Hrun by auto. discriminate. }
    auto.
  - intros Hg. rewrite (onSave_unguarded _ _ _ Hg).
    eexists. split; [reflexivity|]. repeat split.
Qed.

(** C9. [onOrganize] answers false, and does nothing at all, when its
    argument is undefined, null or the empty string, when the resolved path
    does not match "**/*.ts", and when there is no file at the resolved
    path. For a non-empty path whose resolved form matches and exists it
    is the call of [organize] on the resolved path with the configuration
    [getConfiguration] finds. *)
Theorem onOrganize_guards :
  forall fuel w,
    onOrganize fuel undefined w = (Returned false, w)
    /\ onOrganize fuel null w = (Returned false, w)
    /\ onOrganize fuel (path "") w = (Returned false, w)
    /\ (forall p, matches "**/*.ts" (getFullPath p) = false ->
                  onOrganize fuel (path p) w = (Returned false, w))
    /\ (forall p, isFile w (getFullPath p) = false ->
                  onOrganize fuel (path p) w = (Returned false, w))
    /\ (forall p, p <> "" ->
                  matches "**/*.ts" (getFullPath p) = true ->
                  isFile w (getFullPath p) = true ->
                  onOrganize fuel (path p) w
                  = bind (getConfiguration fuel (configurationFilePath (settings w)))
                         (fun configuration => organize (getFullPath p) configuration) w).
Proof.
  intros fuel w. repeat split.
  - intros p Hg. unfold onOrganize.
    destruct (JsString.truthy p); [|reflexivity]. now rewrite Hg.
  - intros p He. unfold onOrganize.
    destruct (JsString.truthy p); [|reflexivity].
    destruct (matches "**/*.ts" _); [|reflexivity].
    unfold bind at 1, fileExists, gets. now rewrite He.
  - intros p Hne Hg He. unfold onOrganize.
    destruct p as [|c p']; [congruence|]. cbn [JsString.truthy].
    rewrite Hg. unfold bind at 1, fileExists, gets at 1. rewrite He.
    reflexivity.
Qed.

End HostClaims.

(** ** Parent directories *)

Module PosixFacts.
Import Posix.

Lemma dropWhile_length f l : List.length (dropWhile f l) <= List.length l.
Proof.
  induction l as [|c l IH]; simpl; [lia|].
  destruct (f c); simpl; lia.
Qed.

Lemma dropWhile_head f l c l' : dropWhile f l = c :: l' -> f c = false.
Proof.
  induction l as [|a l IH]; simpl; [discriminate|].
  destruct (f a) eqn:E; [exact IH|].
  intros [= -> _]. exact E.
Qed.

(** Dropping trailing slashes and then the last component removes at least
    one character before the slash that is found. *)
Lemma component_dropped l c r' :
  dropWhile (fun c => negb (is_slash c)) (dropWhile is_slash l) = c :: r' ->
  2 + List.length r' <= List.length l.
Proof.
  intros Hd.
  pose proof (dropWhile_length is_slash l) as Hlen.
  destruct (dropWhile is_slash l) as [|h r] eqn:Hr; [discriminate|].
  apply dropWhile_head in Hr.
  simpl in Hd. rewrite Hr in Hd. simpl in Hd.
  pose proof (dropWhile_length (fun c => negb (is_slash c)) r) as Hlen2.
  rewrite Hd in Hlen2. simpl in *. lia.
Qed.

Lemma length_string_of_list l :
  String.length (string_of_list_ascii l) = List.length l.
Proof. induction l; simpl; congruence. Qed.

Lemma length_list_of_string s :
  List.length (list_ascii_of_string s) = String.length s.
Proof. induction s; simpl; congruence. Qed.

Lemma height_le p : height p <= S (String.length p).
Proof.
  unfold height. destruct (String.eqb p "/"); [lia|].
  destruct (String.eqb p "."); lia.
Qed.

Lemma height_long p : 3 <= String.length p -> height p = S (String.length p).
Proof.
  intros Hl. unfold height.
  destruct (String.eqb_spec p "/") as [->|_]; [simpl in Hl; lia|].
  destruct (String.eqb_spec p ".") as [->|_]; [simpl in Hl; lia|].
  reflexivity.
Qed.

(** Taking the parent lowers the height of every path that is not its own
    parent. *)
Lemma dirname_lower p : dirname p <> p -> height (dirname p) < height p.
Proof.
  destruct p as [|c0 t]; [intros _; compute; lia|].
  unfold dirname.
  destruct (dropWhile _ (dropWhile is_slash (rev (list_ascii_of_string t))))
    as [|s r'] eqn:Hd.
  - destruct (is_slash c0) eqn:Hroot; intros Hne.
    + change (height "/") with 0. unfold height.
      destruct (String.eqb_spec (String c0 t) "/"); [congruence|].
      destruct (String.eqb_spec (String c0 t) ".") as [Hdot|_]; [|lia].
      (* a path equal to "." has no root *)
      injection Hdot as -> _. discriminate Hroot.
    + change (height ".") with 0. unfold height.
      destruct (String.eqb_spec (String c0 t) "."); [congruence|].
      destruct (String.eqb_spec (String c0 t) "/") as [Hsl|_]; [|lia].
      injection Hsl as -> _. discriminate Hroot.
  - apply component_dropped in Hd.
    rewrite length_rev, length_list_of_string in Hd.
    intros _.
    rewrite (height_long (String c0 t)) by (simpl; lia).
    destruct r' as [|a r''].
    + destruct (is_slash c0).
      * change (height "//") with 3. simpl in *. lia.
      * pose proof (height_le (String c0 "")). simpl in *. lia.
    + pose proof (height_le (String c0 (string_of_list_ascii (rev (a :: r''))))) as Hh.
      assert (Hlen : String.length (String c0 (string_of_list_ascii (rev (a :: r''))))
                     = S (S (List.length r''))).
      { cbn [String.length]. now rewrite length_string_of_list, length_rev. }
      rewrite Hlen in Hh. cbn [String.length List.length] in *. lia.
Qed.

(** The parent of an absolute path is absolute and, unless the path is its
    own parent, strictly shorter. *)
Lemma dirname_absolute_shorter p :
  isAbsolute p = true ->
  isAbsolute (dirname p) = true
  /\ (dirname p <> p -> String.length (dirname p) < String.length p).
Proof.
  destruct p as [|c0 t]; [discriminate|].
  simpl. intros Hroot. unfold dirname. rewrite Hroot.
  destruct (dropWhile _ (dropWhile is_slash (rev (list_ascii_of_string t))))
    as [|s r'] eqn:Hd.
  - split; [reflexivity|]. intros Hne.
    destruct t as [|c1 t']; simpl; [|lia].
    exfalso. apply Hne. f_equal.
    unfold is_slash in Hroot. apply Ascii.eqb_eq in Hroot. now subst.
  - apply component_dropped in Hd.
    rewrite length_rev, length_list_of_string in Hd.
    destruct r' as [|a r''].
    + split; [reflexivity|]. intros _. simpl in *. lia.
    + split; [exact Hroot|]. intros _.
      cbn [String.length]. rewrite length_string_of_list, length_rev.
      cbn [List.length] in *. lia.
Qed.

End PosixFacts.

(** ** Discovery, termination and the save hook *)

Section DiscoveryClaims.

Context {H : Host}.

(** C5. [getConfiguration] follows a fixed precedence and always returns a
    configuration. The candidates are, in this order: the configured path
    as given and then under the workspace root (when a path is configured),
    [tsco.json] in the workspace root, and [tsco.json] in each directory
    above the root. The configuration of the first candidate that exists is
    returned, and the default configuration when none exists. The parent
    of a directory comes from a helper outside [extension.ts]; the loop
    settles for every helper whose parents get lower by some measure. *)
Theorem configuration_precedence :
  forall height : string -> nat,
    (forall dir, getDirectoryPath dir <> dir ->
                 height (getDirectoryPath dir) < height dir) ->
    forall w cp,
      let root := workspaceRoot w in
      let candidates :=
        (match cp with
         | Some p => if JsString.truthy p then [p; joinPath root p] else []
         | None => []
         end
         ++ [joinPath root "tsco.json"]
         ++ map (fun dir => joinPath dir "tsco.json") (ancestors (height root) root))%list in
      let result :=
        match find (isFile w) candidates with
        | Some p => Configuration_getConfiguration (fs w) p
        | None => Configuration_getDefaultConfiguration
        end in
      exists ms, forall fuel,
        height root <= fuel ->
        getConfiguration fuel cp w = (Returned result, loggedAll ms w).
Proof.
  intros height Hlower w cp root candidates result.
  exact (getConfiguration_settles height Hlower w cp).
Qed.

(** C6. When a document is saved under the three guards and the organized
    text differs from its text, the promise handed to [event.waitUntil]
    holds one edit: the organized text over the range from (0, 0) to the
    end of the last line, which is the whole document. When the text is
    unchanged, or the file is filtered out, the list of edits is empty.
    The handler itself changes no document. *)
Theorem onSave_replaces_whole_document :
  forall fuel ev w cfg w2,
    let d := event_document ev in
    let p := getFullPath (Doc.doc_fsPath d) in
    let whole :=
      Doc.mkRange (Doc.mkPosition 0 0)
        (Doc.mkPosition (Doc.lineCount d - 1)
           (String.length (Doc.lineAt d (Doc.lineCount d - 1)))) in
    organizeOnSave (settings w) = true ->
    Doc.doc_languageId d = "typescript" ->
    matches "**/*.ts" p = true ->
    getConfiguration fuel (configurationFilePath (settings w))
      (logged (onSave_message ev w) w) = (Returned cfg, w2) ->
    (forall out,
        passesFilter w p cfg = true ->
        organizeSourceCode p (Doc.getText d) cfg = inr out ->
        out <> Doc.getText d ->
        exists w',
          onSave fuel ev w = (Some (Returned [Doc.mkTextEdit whole out]), w')
          /\ Doc.replaceRange (Doc.getText d) whole out = out
          /\ sameDocuments w w')
    /\ (passesFilter w p cfg = true ->
        organizeSourceCode p (Doc.getText d) cfg = inr (Doc.getText d) ->
        exists w',
          onSave fuel ev w = (Some (Returned []), w') /\ sameDocuments w w')
    /\ (passesFilter w p cfg = false ->
        exists w',
          onSave fuel ev w = (Some (Returned []), w') /\ sameDocuments w w').
Proof.
  intros fuel ev w cfg w2 d p whole Hon Hlang Hglob Hcfg.
  destruct (getConfiguration_frame _ _ _ Hcfg) as (Hsame & _ & _).
  assert (Hsame' : sameDocuments w w2)
    by (eapply sameDocuments_trans; [apply sameDocuments_withEvent | exact Hsame]).
  assert (Hrun : onSave fuel ev w
                 = (Some (fst (onSave_edits fuel ev p (logged (onSave_message ev w) w))),
                    snd (onSave_edits fuel ev p (logged (onSave_message ev w) w))))
    by (apply onSave_guarded; assumption).
  rewrite (onSave_edits_eq _ _ _ _ Hcfg) in Hrun.
  rewrite (passesFilter_sameDocuments _ _ Hsame) in Hrun.
  change (passesFilter (logged (onSave_message ev w) w)) with (passesFilter w) in Hrun.
  split; [|split].
  - intros out Hf Hc Hne. rewrite Hf in Hrun. cbn [negb] in Hrun. cbv zeta in Hrun.
    fold d in Hrun. rewrite Hc in Hrun.
    assert (Hneq : JsString.strict_neq out (Doc.getText d) = true).
    { unfold JsString.strict_neq.
      destruct (String.eqb_spec out (Doc.getText d)); [contradiction | reflexivity]. }
    rewrite Hneq in Hrun. cbn [fst snd] in Hrun.
    eexists. split; [exact Hrun|]. split.
    + apply (DocFacts.replace_wholeRange d).
    + eapply sameDocuments_trans; [|apply sameDocuments_withEvent].
      eapply sameDocuments_trans; [|apply sameDocuments_withEvent]. exact Hsame'.
  - intros Hf Hc. rewrite Hf in Hrun. cbn [negb] in Hrun. cbv zeta in Hrun.
    fold d in Hrun. rewrite Hc in Hrun.
    unfold JsString.strict_neq in Hrun. rewrite String.eqb_refl in Hrun.
    cbn [negb fst snd] in Hrun.
    eexists. split; [exact Hrun|].
    eapply sameDocuments_trans; [|apply sameDocuments_withEvent].
    eapply sameDocuments_trans; [|apply sameDocuments_withEvent]. exact Hsame'.
  - intros Hf. rewrite Hf in Hrun. cbn [negb fst snd] in Hrun.
    eexists. split; [exact Hrun|].
    eapply sameDocuments_trans; [|apply sameDocuments_withEvent]. exact Hsame'.
Qed.

End DiscoveryClaims.

(** C7. The parent-directory loop of [getConfiguration] ends for every
    starting directory. It goes on only while the directory differs from its
    parent; with POSIX parents, the parent of an absolute directory is
    absolute and strictly shorter unless the directory is the root, so the
    loop is over after at most as many rounds as the path has characters,
    plus one. *)
Theorem parent_walk_terminates :
  forall H : Host,
    (forall p, @getDirectoryPath H p = Posix.dirname p) ->
    (forall fuel dir w,
        getDirectoryPath dir = dir ->
        getConfiguration_walk fuel dir w
        = (Returned Configuration_getDefaultConfiguration,
           logged "tsco using default configuration" w))
    /\ (forall dir,
           Posix.isAbsolute dir = true ->
           getDirectoryPath dir <> dir ->
           Posix.isAbsolute (getDirectoryPath dir) = true
           /\ String.length (getDirectoryPath dir) < String.length dir)
    /\ (forall dir w,
           exists cfg w',
           forall fuel,
             S (String.length dir) <= fuel ->
             getConfiguration_walk fuel dir w = (Returned cfg, w')).
Proof.
  intros H Hdir.
  assert (Hlower : forall dir, getDirectoryPath dir <> dir ->
                               Posix.height (getDirectoryPath dir) < Posix.height dir).
  { intros dir. rewrite Hdir. apply PosixFacts.dirname_lower. }
  split; [|split].
  - intros fuel dir w Hfix.
    destruct fuel; simpl; rewrite Hfix, String.eqb_refl; reflexivity.
  - intros dir Habs Hne. rewrite Hdir in *.
    destruct (PosixFacts.dirname_absolute_shorter dir Habs) as [Ha Hs].
    split; [exact Ha | now apply Hs].
  - intros dir w.
    assert (Hout : exists cfg, fst (walkResult (Posix.height dir) dir w) = Returned cfg).
    { unfold walkResult. destruct (find _ _); eexists; reflexivity. }
    destruct Hout as [cfg Hcfg].
    exists cfg, (snd (walkResult (Posix.height dir) dir w)).
    intros fuel Hfuel.
    pose proof (PosixFacts.height_le dir) as Hh.
    rewrite (getConfiguration_walk_settles Posix.height Hlower) by lia.
    unfold walkResult in *.
    rewrite (ancestors_enough Posix.height Hlower (n := fuel) (m := Posix.height dir))
      by lia.
    destruct (find _ _); simpl in *; congruence.
Qed.

(** ** The policy engine *)

Module CoreFacts.
Import Core.

Section PolicyFacts.

Variables K A : Type.
Variable kindOf : A -> K.
Variable accessibilityOf : A -> Accessibility.
Variable staticOf : A -> bool.
Variable nameOf : A -> string.

Local Abbreviation accepts := (accepts kindOf accessibilityOf staticOf).
Local Abbreviation insert := (insert nameOf).
Local Abbreviation sortByName := (sortByName nameOf).
Local Abbreviation ordered := (ordered nameOf).
Local Abbreviation classify := (classify kindOf accessibilityOf staticOf nameOf).
Local Abbreviation organizeEntries := (organizeEntries kindOf accessibilityOf staticOf nameOf).
Local Abbreviation nameLe := (nameLe nameOf).

Lemma insert_In a l x : In x (insert a l) <-> x = a \/ In x l.
Proof.
  induction l as [|b l IH]; simpl; [intuition congruence|].
  destruct (String.leb (nameOf a) (nameOf b)); simpl; [intuition congruence|].
  rewrite IH. intuition congruence.
Qed.

Lemma sortByName_In l x : In x (sortByName l) <-> In x l.
Proof.
  induction l as [|a l IH]; simpl; [tauto|].
  rewrite insert_In, IH. intuition congruence.
Qed.

Lemma insert_sorted a l : Sorted nameLe l -> Sorted nameLe (insert a l).
Proof.
  induction 1 as [|b l Hs IH Hhd]; simpl; [repeat constructor|].
  destruct (String.leb (nameOf a) (nameOf b)) eqn:Hab.
  - constructor; [now constructor | now constructor].
  - constructor; [exact IH|].
    assert (Hba : nameLe b a).
    { unfold Core.nameLe. destruct (String.leb_total (nameOf a) (nameOf b)); congruence. }
    destruct Hhd as [|c l' Hbc]; simpl; [now constructor|].
    destruct (String.leb (nameOf a) (nameOf c)); now constructor.
Qed.

Lemma sortByName_sorted l : Sorted nameLe (sortByName l).
Proof.
  induction l as [|a l IH]; simpl; [constructor | now apply insert_sorted].
Qed.

(** Sorting a sorted list changes nothing. *)
Lemma sortByName_fixed l : Sorted nameLe l -> sortByName l = l.
Proof.
  induction 1 as [|a l Hs IH Hhd]; simpl; [reflexivity|].
  rewrite IH. destruct Hhd as [|b l' Hab]; simpl; [reflexivity|].
  unfold Core.nameLe in Hab. now rewrite Hab.
Qed.

Lemma ordered_In (d : SectionDefinition K) l x : In x (ordered d l) <-> In x l.
Proof.
  unfold Core.ordered. destruct (sortAlphabetically d); [apply sortByName_In | tauto].
Qed.

Lemma ordered_fixed (d : SectionDefinition K) l : ordered d (ordered d l) = ordered d l.
Proof.
  unfold Core.ordered. destruct (sortAlphabetically d); [|reflexivity].
  apply sortByName_fixed, sortByName_sorted.
Qed.

Lemma filter_all (f : A -> bool) l : (forall x, In x l -> f x = true) -> filter f l = l.
Proof.
  induction l as [|a l IH]; simpl; intros Hall; [reflexivity|].
  rewrite (Hall a) by now left. f_equal. apply IH. intros; apply Hall; now right.
Qed.

Lemma filter_none (f : A -> bool) l : (forall x, In x l -> f x = false) -> filter f l = [].
Proof.
  induction l as [|a l IH]; simpl; intros Hall; [reflexivity|].
  rewrite (Hall a) by now left. apply IH. intros; apply Hall; now right.
Qed.

(** No entry is dropped and none is invented. *)
Lemma classify_In defs : forall l x, In x (flatten (classify defs l)) <-> In x l.
Proof.
  induction defs as [|d defs IH]; intros l x; simpl.
  - rewrite app_nil_r. tauto.
  - rewrite in_app_iff, ordered_In, IH, !filter_In.
    destruct (Core.accepts kindOf accessibilityOf staticOf d x); simpl;
      intuition congruence.
Qed.

Lemma flatten_nonEmpty (ss : list (SectionEntries A)) :
  flatten (filter (@nonEmpty A) ss) = flatten ss.
Proof.
  induction ss as [|s ss IH]; simpl; [reflexivity|].
  unfold nonEmpty at 1. destruct (sec_entries s) eqn:E; simpl; rewrite ?E, IH; reflexivity.
Qed.

(** Classifying the entries in the order the sections list them gives the
    same sections again. *)
Lemma classify_flatten defs : forall l,
  classify defs (flatten (classify defs l)) = classify defs l.
Proof.
  induction defs as [|d defs IH]; intros l; simpl.
  - now rewrite app_nil_r.
  - rewrite !filter_app.
    rewrite (@filter_all (accepts d) (ordered d (filter (accepts d) l))).
    2:{ intros x Hx. apply ordered_In, filter_In in Hx. tauto. }
    rewrite (@filter_none (accepts d)
               (flatten (classify defs (filter (fun a => negb (accepts d a)) l)))).
    2:{ intros x Hx. apply classify_In, filter_In in Hx.
        destruct Hx as [_ Hx]. now apply negb_true_iff in Hx. }
    rewrite (@filter_none (fun a => negb (accepts d a))
               (ordered d (filter (accepts d) l))).
    2:{ intros x Hx. apply ordered_In, filter_In in Hx.
        destruct Hx as [_ Hx]. now rewrite Hx. }
    rewrite (@filter_all (fun a => negb (accepts d a))
               (flatten (classify defs (filter (fun a => negb (accepts d a)) l)))).
    2:{ intros x Hx. apply classify_In, filter_In in Hx. tauto. }
    rewrite app_nil_r, ordered_fixed. simpl. now rewrite IH.
Qed.

Lemma organizeEntries_flatten defs l :
  organizeEntries defs (flatten (organizeEntries defs l)) = organizeEntries defs l.
Proof.
  unfold Core.organizeEntries. now rewrite flatten_nonEmpty, classify_flatten.
Qed.

(** Replacing entries by others of the same kind, accessibility, static
    flag and name commutes with the policy engine. *)
Section Relabel.

Variable f : A -> A.
Hypothesis f_kind : forall a, kindOf (f a) = kindOf a.
Hypothesis f_accessibility : forall a, accessibilityOf (f a) = accessibilityOf a.
Hypothesis f_static : forall a, staticOf (f a) = staticOf a.
Hypothesis f_name : forall a, nameOf (f a) = nameOf a.

Lemma accepts_map (d : SectionDefinition K) a : accepts d (f a) = accepts d a.
Proof. unfold Core.accepts. now rewrite f_kind, f_accessibility, f_static. Qed.

Lemma filter_map_accepts (d : SectionDefinition K) l :
  filter (accepts d) (map f l) = map f (filter (accepts d) l).
Proof.
  induction l as [|a l IH]; simpl; [reflexivity|].
  rewrite accepts_map. destruct (accepts d a); simpl; now rewrite IH.
Qed.

Lemma filter_map_rejects (d : SectionDefinition K) l :
  filter (fun a => negb (accepts d a)) (map f l)
  = map f (filter (fun a => negb (accepts d a)) l).
Proof.
  induction l as [|a l IH]; simpl; [reflexivity|].
  rewrite accepts_map. destruct (accepts d a); simpl; now rewrite IH.
Qed.

Lemma insert_map a l : insert (f a) (map f l) = map f (insert a l).
Proof.
  induction l as [|b l IH]; simpl; [reflexivity|].
  rewrite !f_name. destruct (String.leb (nameOf a) (nameOf b)); simpl;
    [reflexivity | now rewrite IH].
Qed.

Lemma sortByName_map l : sortByName (map f l) = map f (sortByName l).
Proof.
  induction l as [|a l IH]; simpl; [reflexivity|].
  now rewrite IH, insert_map.
Qed.

Lemma ordered_map (d : SectionDefinition K) l : ordered d (map f l) = map f (ordered d l).
Proof.
  unfold Core.ordered. destruct (sortAlphabetically d);
    [apply sortByName_map | reflexivity].
Qed.

Lemma classify_map defs : forall l,
  classify defs (map f l) = map (mapSection f) (classify defs l).
Proof.
  induction defs as [|d defs IH]; intros l; simpl; [reflexivity|].
  rewrite filter_map_accepts, filter_map_rejects, ordered_map, IH.
  reflexivity.
Qed.

Lemma nonEmpty_mapSection s : nonEmpty (mapSection f s) = nonEmpty s.
Proof. unfold nonEmpty, mapSection. simpl. now destruct (sec_entries s). Qed.

Lemma organizeEntries_map defs l :
  organizeEntries defs (map f l) = map (mapSection f) (organizeEntries defs l).
Proof.
  unfold Core.organizeEntries. rewrite classify_map.
  induction (classify defs l) as [|s ss IH]; [reflexivity|].
  cbn [map filter]. rewrite nonEmpty_mapSection.
  destruct (nonEmpty s); cbn [map]; now rewrite IH.
Qed.

End Relabel.

End PolicyFacts.

Lemma renderSections_map {A} (r : A -> string) (f : A -> A) ss :
  (forall a, r (f a) = r a) ->
  renderSections r (map (mapSection f) ss) = renderSections r ss.
Proof.
  intros Hr. unfold renderSections. rewrite map_map. f_equal.
  apply map_ext. intros s. unfold renderSection, mapSection.
  cbn [sec_label sec_entries].
  rewrite length_map, map_map.
  now rewrite (map_ext (fun x => r (f x)) r Hr).
Qed.

Lemma organizeMembers_flatten c ms :
  organizeMembers c (flatten (organizeMembers c ms)) = organizeMembers c ms.
Proof. apply organizeEntries_flatten. Qed.

Lemma renderDeclaration_canonical c d :
  renderDeclaration c (canonicalDeclaration c d) = renderDeclaration c d.
Proof.
  unfold renderDeclaration, canonicalDeclaration. simpl.
  destruct (d_span d); [reflexivity|]. now rewrite organizeMembers_flatten.
Qed.

(** The assembled text of the canonical unit is the assembled text. *)
Lemma assemble_canonical c u : assemble c (canonicalUnit c u) = assemble c u.
Proof.
  unfold assemble, canonicalUnit. simpl. f_equal. f_equal.
  unfold organizeDeclarations.
  rewrite organizeEntries_flatten.
  rewrite organizeEntries_map by reflexivity.
  apply renderSections_map. apply renderDeclaration_canonical.
Qed.

(** Organizing the organized text returns it, unchanged. *)
Lemma organize_twice parse c :
  ReadsBack parse c ->
  forall filePath s r,
    organize parse filePath s c = inr r ->
    organize parse filePath (outputText r) c = inr (mkResult false (outputText r)).
Proof.
  intros Hback filePath s r. unfold organize.
  destruct (parse s) as [u|] eqn:Hp; [|discriminate].
  intros [= <-]. simpl.
  rewrite (Hback s u Hp), assemble_canonical, String.eqb_refl. reflexivity.
Qed.

End CoreFacts.

(** ** Organizing twice *)

Section OrganizeAgain.

Context {H : Host}.

(** If the organizer returns its own output unchanged, a second run of
    [organize] finds nothing to do. *)
Lemma organize_again cfg :
  (forall p s out, organizeSourceCode p s cfg = inr out ->
                   organizeSourceCode p out cfg = inr out) ->
  forall w p b w1,
    organize p cfg w = (Returned b, w1) ->
    exists w2,
      organize p cfg w1 = (Returned false, w2)
      /\ sameDocuments w1 w2
      /\ appliedEdits (trace w2) = appliedEdits (trace w1).
Proof.
  intros Hidem w p b w1 Hrun.
  destruct (passesFilter w p cfg) eqn:Hf.
  2:{ destruct (organize_filtered _ _ _ Hf) as [m Hm].
      rewrite Hm in Hrun. injection Hrun as <- <-.
      destruct (organize_filtered p cfg (logged m w) Hf) as [m' Hm'].
      rewrite Hm'. eexists. split; [reflexivity|]. split; [repeat split | reflexivity]. }
  destruct (sourceOf w p) as [src|] eqn:Hs.
  2:{ rewrite (organize_unreadable _ _ _ Hf Hs) in Hrun. discriminate. }
  destruct (organizeSourceCode p src cfg) as [e|out] eqn:Hc.
  { rewrite (organize_fails _ _ _ Hf Hs Hc) in Hrun. discriminate. }
  destruct (String.eqb_spec out src) as [->|Hne].
  - destruct (organize_unchanged _ _ _ Hf Hs Hc) as [m Hm].
    rewrite Hm in Hrun. injection Hrun as <- <-.
    destruct (organize_unchanged p cfg
                (logged m (withEvent (EvOrganizeSourceCode p src) w)) Hf Hs Hc)
      as [m' Hm'].
    rewrite Hm'. eexists. split; [reflexivity|]. split; [repeat split | reflexivity].
  - destruct (organize_changed _ _ _ Hf Hs Hc Hne)
      as (d & w' & shown & Hrun1 & _ & _ & Hws & _ & _ & _ & _ & Hopen & _ & _).
    rewrite Hrun1 in Hrun. injection Hrun as <- <-.
    assert (Hf' : passesFilter w' p cfg = true).
    { unfold passesFilter, workspaceRoot in *. now rewrite Hws. }
    assert (Hs' : sourceOf w' p = Some out) by (unfold sourceOf; now rewrite Hopen).
    destruct (organize_unchanged p cfg w' Hf' Hs' (Hidem _ _ _ Hc)) as [m' Hm'].
    rewrite Hm'. eexists. split; [reflexivity|]. split; [repeat split | reflexivity].
Qed.

End OrganizeAgain.

(* ===================================================================== *)
(** * The organizer on lines of text *)
(* ===================================================================== *)

Module LinesFacts.
Import Lines.

Lemma isLF_LF : isLF Doc.LF = true.
Proof. reflexivity. Qed.

(** A line without line breaks, followed by a line break, is read as that
    line. *)
Lemma lines_line l rest :
  noLF l = true -> lines (l ++ String Doc.LF rest) = l :: lines rest.
Proof.
  induction l as [|c l IH]; simpl; intros Hl.
  - reflexivity.
  - apply andb_true_iff in Hl. destruct Hl as [Hc Hl].
    apply negb_true_iff in Hc. rewrite Hc.
    now rewrite (IH Hl).
Qed.

Lemma lines_unlines ls :
  Forall (fun l => noLF l = true) ls -> lines (unlines ls) = ls.
Proof.
  induction 1 as [|l ls Hl _ IH]; [reflexivity|].
  cbn [unlines]. now rewrite (@lines_line l _ Hl), IH.
Qed.

Lemma lines_noLF s : Forall (fun l => noLF l = true) (lines s).
Proof.
  induction s as [|c s IH]; simpl; [constructor|].
  destruct (isLF c) eqn:Hc.
  - now constructor.
  - destruct (lines s) as [|l ls].
    + constructor; [|constructor]. simpl. now rewrite Hc.
    + inversion IH as [|l' ls' Hl Hls]; subst.
      constructor; [|exact Hls]. simpl. now rewrite Hc, Hl.
Qed.

Lemma noLF_app a b : noLF (a ++ b) = noLF a && noLF b.
Proof.
  induction a as [|c a IH]; simpl; [reflexivity|].
  now rewrite IH, andb_assoc.
Qed.

Lemma noLF_oneLine s : noLF (oneLine s) = true.
Proof.
  induction s as [|c s IH]; simpl; [reflexivity|].
  destruct (isLF c) eqn:Hc; [exact IH|]. simpl. now rewrite Hc, IH.
Qed.

Lemma noLF_digits d : noLF (DecimalString.NilEmpty.string_of_uint d) = true.
Proof. induction d; simpl; auto. Qed.

Lemma noLF_decimal n : noLF (Core.decimal n) = true.
Proof. apply noLF_digits. Qed.

End LinesFacts.


(** ** Grouping lines into elements *)

Module GroupingFacts.
Import Organizer.

Section Facts.

Variable I : Type.
Variable starts : string -> option I.
Variable trivia : string -> bool.
Hypothesis trivia_not_start : forall l, trivia l = true -> starts l = None.

Local Abbreviation chunks := (chunks starts).
Local Abbreviation splitRun := (splitRun trivia).
Local Abbreviation build := (build trivia).
Local Abbreviation group := (group starts trivia).
Local Abbreviation endsSolid := (endsSolid trivia).
Local Abbreviation wellGrouped := (wellGrouped starts trivia).
Local Abbreviation wellGroupedAll := (wellGroupedAll starts trivia).
Local Abbreviation chunkStarts := (chunkStarts starts).
Local Abbreviation chunkLines := (@chunkLines I).

Lemma chunks_lines ls :
  fst (chunks ls) ++ flat_map chunkLines (snd (chunks ls)) = ls.
Proof.
  induction ls as [|l ls IH]; [reflexivity|].
  simpl. destruct (chunks ls) as [before cs]. simpl in IH.
  destruct (starts l); simpl; now rewrite IH.
Qed.

Lemma chunks_starts ls :
  Forall (fun l => starts l = None) (fst (chunks ls))
  /\ Forall chunkStarts (snd (chunks ls)).
Proof.
  induction ls as [|l ls [IHb IHc]]; [split; constructor|].
  simpl. destruct (chunks ls) as [before cs]. simpl in *.
  destruct (starts l) eqn:Hl; simpl; split; auto.
  constructor; [|exact IHc]. now split.
Qed.

Lemma endsSolid_nil : endsSolid [].
Proof. intros ls' l Heq. now destruct ls'. Qed.

Lemma endsSolid_cons l ls : ls <> [] -> endsSolid ls -> endsSolid (l :: ls).
Proof.
  intros Hne Hs ls' x Heq.
  destruct ls' as [|y ls']; simpl in Heq.
  - injection Heq as _ Hnil. congruence.
  - injection Heq as _ Heq. now apply (Hs ls').
Qed.

Lemma endsSolid_one l : trivia l = false -> endsSolid [l].
Proof.
  intros Hl ls' x Heq. destruct ls' as [|y ls']; simpl in Heq.
  - now injection Heq as <-.
  - injection Heq as _ Heq. now destruct ls'.
Qed.

Lemma endsSolid_app_r a b : endsSolid (a ++ b) -> endsSolid b.
Proof.
  intros Hs ls' l Heq. apply (Hs (a ++ ls')). now rewrite Heq, app_assoc.
Qed.

Lemma endsSolid_app a b : b <> [] -> endsSolid b -> endsSolid (a ++ b).
Proof.
  intros Hne Hs ls' l Heq.
  destruct (exists_last Hne) as (b' & x & ->).
  rewrite app_assoc in Heq. apply app_inj_tail in Heq. destruct Heq as [_ ->].
  now apply (Hs b').
Qed.

Lemma splitRun_parts ls :
  ls = fst (splitRun ls) ++ snd (splitRun ls)
  /\ Forall (fun l => trivia l = true) (snd (splitRun ls))
  /\ endsSolid (fst (splitRun ls)).
Proof.
  induction ls as [|l ls (IHeq & IHr & IHs)]; simpl.
  - repeat split; [constructor | apply endsSolid_nil].
  - destruct (splitRun ls) as [body run]. simpl in *.
    destruct body as [|b body].
    + destruct (trivia l) eqn:Hl; simpl.
      * repeat split; [now rewrite IHeq | now constructor | apply endsSolid_nil].
      * repeat split; [now rewrite IHeq | exact IHr | now apply endsSolid_one].
    + simpl. repeat split; [now rewrite IHeq | exact IHr|].
      apply endsSolid_cons; [discriminate | exact IHs].
Qed.

Lemma splitRun_run run :
  Forall (fun l => trivia l = true) run -> splitRun run = ([], run).
Proof.
  induction 1 as [|l run Hl _ IH]; [reflexivity|].
  simpl. now rewrite IH, Hl.
Qed.

Lemma endsSolid_tail l ls : endsSolid (l :: ls) -> endsSolid ls.
Proof. intros Hs ls' x Heq. apply (Hs (l :: ls')). simpl. now rewrite Heq. Qed.

Lemma splitRun_join body run :
  endsSolid body ->
  Forall (fun l => trivia l = true) run ->
  splitRun (body ++ run) = (body, run).
Proof.
  intros Hs Hr. induction body as [|l body IH]; simpl.
  - now apply splitRun_run.
  - rewrite IH by (now apply endsSolid_tail in Hs).
    destruct body as [|b body]; [|reflexivity].
    now rewrite (Hs [] l eq_refl).
Qed.

Lemma build_lines cs : forall leading,
  leading ++ flat_map chunkLines cs
  = flat_map (@elementLines I) (fst (build leading cs)) ++ snd (build leading cs).
Proof.
  induction cs as [|[[i l] after] cs IH]; intros leading; simpl.
  - now rewrite app_nil_r.
  - destruct (splitRun_parts after) as (Heq & _ & _).
    destruct (splitRun after) as [body run]. simpl in Heq.
    specialize (IH run). destruct (build run cs) as [es rest]. simpl in *.
    unfold elementLines at 1. simpl.
    rewrite <- !app_assoc. simpl. rewrite <- IH, Heq, <- app_assoc. reflexivity.
Qed.

(** Grouping only cuts the text up: the lines of the groups are the text. *)
Lemma ungroup_group ls : ungroup (group ls) = ls.
Proof.
  unfold Organizer.group.
  pose proof (chunks_lines ls) as Hc.
  destruct (chunks ls) as [before cs]. simpl in Hc.
  destruct (splitRun_parts before) as (Heq & _ & _).
  destruct (splitRun before) as [head run]. simpl in Heq.
  pose proof (build_lines cs run) as Hb.
  destruct (build run cs) as [es rest]. simpl in *.
  now rewrite <- Hb, app_assoc, <- Heq.
Qed.

Lemma build_wellGrouped cs : forall leading,
  Forall chunkStarts cs ->
  Forall (fun l => trivia l = true) leading ->
  Forall wellGrouped (fst (build leading cs))
  /\ Forall (fun l => trivia l = true) (snd (build leading cs)).
Proof.
  induction cs as [|[[i l] after] cs IH]; intros leading Hcs Hlead; simpl.
  - split; [constructor | exact Hlead].
  - inversion Hcs as [|c cs' Hc Hcs']; subst. destruct Hc as [Hl Hafter].
    destruct (splitRun_parts after) as (Heq & Hrun & Hsolid).
    destruct (splitRun after) as [body run]. simpl in *.
    destruct (IH run Hcs' Hrun) as [IHes IHrest].
    destruct (build run cs) as [es rest]. simpl in *.
    split; [|exact IHrest].
    constructor; [|exact IHes].
    split; [exact Hlead|]. exists l, body. simpl. repeat split; auto.
    rewrite Heq in Hafter. apply Forall_app in Hafter. apply Hafter.
Qed.

Lemma group_wellGrouped ls : wellGroupedAll (group ls).
Proof.
  unfold Organizer.group.
  destruct (chunks_starts ls) as [Hb Hcs].
  destruct (chunks ls) as [before cs]. simpl in *.
  destruct (splitRun_parts before) as (Heq & Hrun & Hsolid).
  destruct (splitRun before) as [head run]. simpl in *.
  destruct (@build_wellGrouped cs run Hcs Hrun) as [Hes Hrest].
  destruct (build run cs) as [es rest]. simpl in *.
  repeat split; auto.
  rewrite Heq in Hb. apply Forall_app in Hb. apply Hb.
Qed.

Lemma chunks_app_plain before ls :
  Forall (fun l => starts l = None) before ->
  chunks (before ++ ls) = (before ++ fst (chunks ls), snd (chunks ls)).
Proof.
  induction 1 as [|l before Hl _ IH]; simpl.
  - now destruct (chunks ls).
  - rewrite IH, Hl. reflexivity.
Qed.

Lemma Forall_trivia_plain ls :
  Forall (fun l => trivia l = true) ls -> Forall (fun l => starts l = None) ls.
Proof. apply Forall_impl. exact trivia_not_start. Qed.

Lemma chunks_elements es : forall rest,
  Forall wellGrouped es ->
  Forall (fun l => trivia l = true) rest ->
  chunks (flat_map (@elementLines I) es ++ rest)
  = (nextLeading es rest, chunksOf es rest).
Proof.
  induction es as [|e es IH]; intros rest Hes Hrest; simpl.
  - rewrite <- (app_nil_r rest) at 1.
    rewrite chunks_app_plain by (now apply Forall_trivia_plain). simpl.
    now rewrite app_nil_r.
  - inversion Hes as [|e' es' [Hlead (l & body & Hlines & Hl & Hbody & _)] Hes']; subst.
    unfold elementLines at 1. rewrite Hlines, <- !app_assoc.
    rewrite chunks_app_plain by (now apply Forall_trivia_plain).
    simpl.
    rewrite chunks_app_plain by exact Hbody.
    rewrite (IH rest Hes' Hrest). simpl. rewrite Hl. simpl.
    now rewrite app_nil_r.
Qed.

Lemma nextLeading_trivia es rest :
  Forall wellGrouped es ->
  Forall (fun l => trivia l = true) rest ->
  Forall (fun l => trivia l = true) (nextLeading es rest).
Proof.
  intros Hes Hrest. destruct es as [|e es]; [exact Hrest|].
  inversion Hes as [|e' es' [Hlead _] _]; subst. exact Hlead.
Qed.

Lemma build_elements es : forall rest,
  Forall wellGrouped es ->
  Forall (fun l => trivia l = true) rest ->
  build (nextLeading es rest) (chunksOf es rest) = (es, rest).
Proof.
  induction es as [|e es IH]; intros rest Hes Hrest; [reflexivity|].
  inversion Hes as [|e' es' [Hlead (l & body & Hlines & Hl & Hbody & Hsolid)] Hes']; subst.
  simpl. rewrite Hlines. simpl.
  rewrite splitRun_join by (auto using nextLeading_trivia).
  rewrite (IH rest Hes' Hrest).
  destruct e as [i leading lns]. simpl in *. now subst lns.
Qed.

(** Well-grouped pieces are found again as they are. *)
Lemma group_ungroup head es rest :
  wellGroupedAll (head, es, rest) ->
  group (ungroup (head, es, rest)) = (head, es, rest).
Proof.
  intros (Hhead & Hsolid & Hes & Hrest).
  unfold Organizer.group, ungroup.
  rewrite chunks_app_plain by exact Hhead.
  rewrite chunks_elements by assumption. simpl.
  rewrite splitRun_join by (auto using nextLeading_trivia).
  now rewrite build_elements.
Qed.

(** *** Dropping lines that are trivia *)

Section Filter.

Variable keep : string -> bool.
Hypothesis keep_solid : forall l, keep l = false -> trivia l = true.

Lemma Forall_filter (P : string -> Prop) ls :
  Forall P ls -> Forall P (filter keep ls).
Proof.
  induction 1 as [|l ls Hl _ IH]; simpl; [constructor|].
  destruct (keep l); [now constructor | exact IH].
Qed.

Lemma keep_start l i : starts l = Some i -> keep l = true.
Proof.
  intros Hl. destruct (keep l) eqn:Hk; [reflexivity|].
  apply keep_solid, trivia_not_start in Hk. congruence.
Qed.

Lemma chunks_filter ls :
  chunks (filter keep ls)
  = (filter keep (fst (chunks ls)), map (stripChunk keep) (snd (chunks ls))).
Proof.
  induction ls as [|l ls IH]; [reflexivity|].
  simpl. destruct (keep l) eqn:Hk.
  - simpl. rewrite IH. destruct (chunks ls) as [before cs]. simpl.
    destruct (starts l); simpl; [reflexivity | now rewrite Hk].
  - rewrite IH. destruct (chunks ls) as [before cs]. simpl.
    rewrite (@trivia_not_start _ (@keep_solid _ Hk)). simpl. now rewrite Hk.
Qed.

Lemma endsSolid_kept ls : endsSolid ls -> ls <> [] -> filter keep ls <> [].
Proof.
  induction ls as [|l ls IH]; intros Hs Hne; [congruence|].
  simpl. destruct (keep l) eqn:Hk; [discriminate|].
  destruct ls as [|l' ls].
  - apply keep_solid in Hk. rewrite (Hs [] l eq_refl) in Hk. discriminate.
  - apply IH; [now apply endsSolid_tail in Hs | discriminate].
Qed.

Lemma endsSolid_filter ls : endsSolid ls -> endsSolid (filter keep ls).
Proof.
  induction ls as [|l ls IH]; intros Hs; [exact Hs|].
  simpl. destruct (keep l) eqn:Hk.
  - destruct ls as [|l' ls]; [exact Hs|].
    pose proof (endsSolid_tail Hs) as Hs'.
    apply endsSolid_cons; [|now apply IH].
    apply endsSolid_kept; [exact Hs' | discriminate].
  - destruct ls as [|l' ls]; [apply endsSolid_nil|].
    apply IH. now apply endsSolid_tail in Hs.
Qed.

Lemma splitRun_filter ls :
  splitRun (filter keep ls)
  = (filter keep (fst (splitRun ls)), filter keep (snd (splitRun ls))).
Proof.
  induction ls as [|l ls IH]; [reflexivity|].
  destruct (splitRun_parts ls) as (_ & _ & Hsolid).
  cbn [filter Organizer.splitRun].
  destruct (splitRun ls) as [body run]. cbn [fst snd] in *.
  destruct (keep l) eqn:Hk.
  - cbn [Organizer.splitRun]. rewrite IH.
    destruct body as [|b body].
    + cbn [filter]. destruct (trivia l); cbn [fst snd filter]; now rewrite Hk.
    + pose proof (@endsSolid_kept (b :: body) Hsolid) as Hne.
      destruct (filter keep (b :: body)) as [|b' body'] eqn:E.
      * exfalso. apply Hne; [discriminate | reflexivity].
      * cbn [fst snd]. change (filter keep (l :: b :: body))
          with (if keep l then l :: filter keep (b :: body)
                else filter keep (b :: body)).
        now rewrite Hk, E.
  - rewrite IH. destruct body as [|b body].
    + rewrite (@keep_solid _ Hk). cbn [fst snd filter]. now rewrite Hk.
    + cbn [fst snd]. change (filter keep (l :: b :: body))
        with (if keep l then l :: filter keep (b :: body)
              else filter keep (b :: body)).
      now rewrite Hk.
Qed.

Lemma build_filter cs : forall leading,
  Forall chunkStarts cs ->
  build (filter keep leading) (map (stripChunk keep) cs)
  = (map (stripElement keep) (fst (build leading cs)),
     filter keep (snd (build leading cs))).
Proof.
  induction cs as [|[[i l] after] cs IH]; intros leading Hcs; [reflexivity|].
  inversion Hcs as [|c cs' Hc Hcs']; subst. destruct Hc as [Hl _].
  cbn [map Organizer.stripChunk Organizer.build].
  rewrite splitRun_filter.
  destruct (splitRun after) as [body run]. cbn [fst snd].
  rewrite (IH run Hcs').
  destruct (build run cs) as [es rest]. cbn [fst snd map].
  unfold stripElement at 2. cbn [e_info e_leading e_lines filter].
  now rewrite (@keep_start _ _ Hl).
Qed.

(** Grouping commutes with dropping lines, as long as only trivia is
    dropped. *)
Lemma group_filter ls :
  group (filter keep ls) = stripGroups keep (group ls).
Proof.
  unfold Organizer.group. rewrite chunks_filter.
  destruct (chunks_starts ls) as [_ Hcs].
  destruct (chunks ls) as [before cs]. cbn [fst snd] in *.
  rewrite splitRun_filter.
  destruct (splitRun before) as [head run]. cbn [fst snd].
  rewrite (build_filter run Hcs).
  destruct (build run cs) as [es rest]. reflexivity.
Qed.

Lemma wellGrouped_filter e : wellGrouped e -> wellGrouped (stripElement keep e).
Proof.
  intros [Hlead (l & body & Hlines & Hl & Hbody & Hsolid)]. split.
  - simpl. now apply Forall_filter.
  - exists l, (filter keep body). simpl. rewrite Hlines. cbn [filter].
    rewrite (@keep_start _ _ Hl). repeat split; auto.
    + now apply Forall_filter.
    + now apply endsSolid_filter.
Qed.

End Filter.

End Facts.

End GroupingFacts.

(** ** The parser *)

Module OrganizerFacts.
Import Organizer.

Lemma breakAt_parts p ls before x after :
  breakAt p ls = Some (before, x, after) ->
  ls = before ++ x :: after
  /\ p x = true
  /\ Forall (fun l => p l = false) before.
Proof.
  revert before. induction ls as [|l ls IH]; intros before; simpl; [discriminate|].
  destruct (p l) eqn:Hl.
  - intros [= <- <- <-]. repeat split; [exact Hl | constructor].
  - destruct (breakAt p ls) as [[[b y] a]|]; [|discriminate].
    intros [= <- <- <-]. destruct (IH b eq_refl) as (-> & Hx & Hb).
    repeat split; [exact Hx | now constructor].
Qed.

Lemma breakAt_app p before x after :
  Forall (fun l => p l = false) before ->
  p x = true ->
  breakAt p (before ++ x :: after) = Some (before, x, after).
Proof.
  intros Hb Hx. induction Hb as [|l before Hl _ IH]; simpl.
  - now rewrite Hx.
  - now rewrite Hl, IH.
Qed.

Lemma breakAt_filter p keep ls :
  (forall l, p l = true -> keep l = true) ->
  breakAt p (filter keep ls)
  = match breakAt p ls with
    | Some (before, x, after) => Some (filter keep before, x, filter keep after)
    | None => None
    end.
Proof.
  intros Hkeep. induction ls as [|l ls IH]; [reflexivity|].
  simpl. destruct (p l) eqn:Hl.
  - rewrite (Hkeep l Hl). simpl. now rewrite Hl.
  - destruct (keep l) eqn:Hk.
    + simpl. rewrite Hl, IH.
      destruct (breakAt p ls) as [[[b y] a]|]; [|reflexivity].
      simpl. now rewrite Hk.
    + rewrite IH. destruct (breakAt p ls) as [[[b y] a]|]; [|reflexivity].
      simpl. now rewrite Hk.
Qed.

Lemma withoutMarkers_app a b :
  withoutMarkers (a ++ b) = withoutMarkers a ++ withoutMarkers b.
Proof. apply filter_app. Qed.

Lemma withoutMarkers_again ls : withoutMarkers (withoutMarkers ls) = withoutMarkers ls.
Proof.
  unfold withoutMarkers. induction ls as [|l ls IH]; [reflexivity|].
  simpl. destruct (keepLine l) eqn:Hl; simpl; [now rewrite Hl, IH | exact IH].
Qed.

Lemma withoutMarkers_flat_map {A} (f : A -> list string) xs :
  withoutMarkers (flat_map f xs) = flat_map (fun x => withoutMarkers (f x)) xs.
Proof.
  induction xs as [|x xs IH]; [reflexivity|].
  simpl. now rewrite withoutMarkers_app, IH.
Qed.

Lemma isMarker_header l n : isMarker (headerLine l n) = true.
Proof. reflexivity. Qed.

Lemma isMarker_footer l : isMarker (footerLine l) = true.
Proof. reflexivity. Qed.

(** ** The renderer *)

Lemma flat_map_map {A B C} (f : A -> B) (g : B -> list C) xs :
  flat_map g (map f xs) = flat_map (fun x => g (f x)) xs.
Proof. induction xs as [|x xs IH]; simpl; [reflexivity | now rewrite IH]. Qed.

Lemma flatten_mapSection {A} (f : A -> A) ss :
  Core.flatten (map (Core.mapSection f) ss) = map f (Core.flatten ss).
Proof.
  induction ss as [|s ss IH]; [reflexivity|].
  simpl. now rewrite map_app, <- IH.
Qed.

(** The policy engine drops no entry and invents none. *)
Lemma organizeEntries_In {K A} (kindOf : A -> K) accessibilityOf staticOf nameOf
      defs l x :
  In x (Core.flatten
          (Core.organizeEntries kindOf accessibilityOf staticOf nameOf defs l))
  <-> In x l.
Proof.
  unfold Core.organizeEntries.
  rewrite CoreFacts.flatten_nonEmpty. apply CoreFacts.classify_In.
Qed.

Lemma renderSections_relabel {A} (r : A -> list string) (f : A -> A) ss :
  (forall a, r (f a) = r a) ->
  renderSections r (map (Core.mapSection f) ss) = renderSections r ss.
Proof.
  intros Hr. unfold renderSections. rewrite flat_map_map.
  apply flat_map_ext. intros s. unfold renderSection, Core.mapSection.
  cbn [Core.sec_label Core.sec_entries].
  rewrite length_map, flat_map_map.
  now rewrite (flat_map_ext (fun x => r (f x)) r Hr).
Qed.

Lemma withoutMarkers_header l n ls :
  withoutMarkers (headerLine l n :: ls) = withoutMarkers ls.
Proof. reflexivity. Qed.

Lemma withoutMarkers_footer l : withoutMarkers [footerLine l] = [].
Proof. reflexivity. Qed.

(** Without the markers, the rendered sections are their entries. *)
Lemma withoutMarkers_renderSections {A} (r : A -> list string) ss :
  withoutMarkers (renderSections r ss)
  = flat_map (fun a => withoutMarkers (r a)) (Core.flatten ss).
Proof.
  unfold renderSections, Core.flatten.
  induction ss as [|s ss IH]; [reflexivity|].
  cbn [flat_map]. rewrite withoutMarkers_app, IH, flat_map_app. f_equal.
  unfold renderSection.
  rewrite withoutMarkers_header, withoutMarkers_app, withoutMarkers_footer.
  rewrite withoutMarkers_flat_map. apply app_nil_r.
Qed.

Lemma stripElement_info {I} keep (e : Element I) :
  e_info (stripElement keep e) = e_info e.
Proof. reflexivity. Qed.

Lemma renderMember_strip m : renderMember (stripElement keepLine m) = renderMember m.
Proof.
  unfold renderMember. simpl.
  change (filter keepLine ?x) with (withoutMarkers x).
  now rewrite !withoutMarkers_again.
Qed.

Lemma organizeMembers_strip c ms :
  organizeMembers c (map (stripElement keepLine) ms)
  = map (Core.mapSection (stripElement keepLine)) (organizeMembers c ms).
Proof. unfold organizeMembers. now apply CoreFacts.organizeEntries_map. Qed.

Lemma renderSpan_strip c sp : renderSpan c (stripSpan sp) = renderSpan c sp.
Proof.
  destruct sp as [text|head ms tail]; simpl.
  - apply withoutMarkers_again.
  - rewrite !withoutMarkers_again, organizeMembers_strip.
    now rewrite (renderSections_relabel _ _ _ renderMember_strip).
Qed.

Lemma renderDeclaration_strip c d :
  renderDeclaration c (stripDeclaration d) = renderDeclaration c d.
Proof.
  unfold renderDeclaration. simpl.
  now rewrite withoutMarkers_again, renderSpan_strip.
Qed.

(** The markers of the input do not count: the assembled text is that of
    the source unit without them. *)
Lemma assemble_strip c u : assemble c (stripUnit u) = assemble c u.
Proof.
  unfold assemble. simpl. rewrite !withoutMarkers_again. do 2 f_equal.
  unfold organizeDeclarations.
  rewrite CoreFacts.organizeEntries_map by reflexivity.
  apply renderSections_relabel. apply renderDeclaration_strip.
Qed.

Lemma renderSpan_reordered c sp : renderSpan c (canonicalSpan c sp) = renderSpan c sp.
Proof.
  destruct sp as [text|head ms tail]; simpl; [reflexivity|].
  unfold organizeMembers. now rewrite CoreFacts.organizeEntries_flatten.
Qed.

Lemma renderDeclaration_reordered c d :
  renderDeclaration c (canonicalDeclaration c d) = renderDeclaration c d.
Proof. unfold renderDeclaration. simpl. now rewrite renderSpan_reordered. Qed.

(** The assembled text of the canonical unit is the assembled text. *)
Lemma assemble_reordered c u : assemble c (canonicalUnit c u) = assemble c u.
Proof.
  unfold assemble, canonicalUnit. simpl. do 2 f_equal.
  unfold organizeDeclarations.
  rewrite CoreFacts.organizeEntries_map by reflexivity.
  rewrite CoreFacts.organizeEntries_flatten.
  apply renderSections_relabel. apply renderDeclaration_reordered.
Qed.

Lemma withoutMarkers_renderMember m :
  withoutMarkers (renderMember m) = withoutMarkers (elementLines m).
Proof.
  unfold renderMember, elementLines.
  now rewrite !withoutMarkers_app, !withoutMarkers_again.
Qed.

Lemma withoutMarkers_renderSpan c sp :
  withoutMarkers (renderSpan c sp) = withoutMarkers (spanLines (canonicalSpan c sp)).
Proof.
  destruct sp as [text|head ms tail]; simpl.
  - apply withoutMarkers_again.
  - rewrite !withoutMarkers_app, !withoutMarkers_again.
    rewrite withoutMarkers_renderSections, withoutMarkers_flat_map.
    do 2 f_equal. apply flat_map_ext. apply withoutMarkers_renderMember.
Qed.

Lemma withoutMarkers_renderDeclaration c d :
  withoutMarkers (renderDeclaration c d)
  = withoutMarkers (elementLines (declarationElement (canonicalDeclaration c d))).
Proof.
  unfold renderDeclaration, elementLines. simpl.
  now rewrite !withoutMarkers_app, withoutMarkers_again, withoutMarkers_renderSpan.
Qed.

(** Without its markers, the assembled text is the canonical unit, line by
    line, without the markers of the input. *)
Lemma withoutMarkers_assemble c u :
  withoutMarkers (assemble c u) = withoutMarkers (unitLines (canonicalUnit c u)).
Proof.
  unfold assemble, unitLines, canonicalUnit. simpl.
  rewrite !withoutMarkers_app, !withoutMarkers_again.
  rewrite withoutMarkers_renderSections, withoutMarkers_flat_map.
  do 2 f_equal. rewrite !flat_map_map.
  apply flat_map_ext. apply withoutMarkers_renderDeclaration.
Qed.

(** What holds of the markers and of every line of a source unit holds of
    every line of the assembled text. *)
Section EveryLine.

Variable P : string -> Prop.
Hypothesis P_header : forall l n, P (headerLine l n).
Hypothesis P_footer : forall l, P (footerLine l).

Lemma Forall_withoutMarkers ls : Forall P ls -> Forall P (withoutMarkers ls).
Proof.
  unfold withoutMarkers. induction 1 as [|l ls Hl _ IH]; simpl; [constructor|].
  destruct (keepLine l); [now constructor | exact IH].
Qed.

Lemma Forall_renderSections {A} (r : A -> list string) ss :
  (forall a, In a (Core.flatten ss) -> Forall P (r a)) ->
  Forall P (renderSections r ss).
Proof.
  intros Hr. unfold renderSections. apply Forall_flat_map, Forall_forall.
  intros s Hs. unfold renderSection. constructor; [apply P_header|].
  apply Forall_app. split; [|constructor; [apply P_footer | constructor]].
  apply Forall_flat_map, Forall_forall. intros a Ha. apply Hr.
  unfold Core.flatten. apply in_flat_map. now exists s.
Qed.

Lemma Forall_renderMember (m : Member) :
  Forall P (elementLines m) -> Forall P (renderMember m).
Proof.
  unfold elementLines, renderMember. intros Hm.
  apply Forall_app in Hm. destruct Hm as [Hm1 Hm2].
  apply Forall_app. split; now apply Forall_withoutMarkers.
Qed.

Lemma Forall_renderDeclaration c d :
  Forall P (elementLines (declarationElement d)) -> Forall P (renderDeclaration c d).
Proof.
  unfold elementLines, renderDeclaration. cbn [declarationElement e_leading e_lines].
  intros Hd. apply Forall_app in Hd. destruct Hd as [Hd1 Hd2].
  apply Forall_app. split; [now apply Forall_withoutMarkers|].
  destruct (d_span d) as [text|head ms tail]; cbn [renderSpan spanLines] in *.
  - now apply Forall_withoutMarkers.
  - apply Forall_app in Hd2. destruct Hd2 as [Hh Hd2].
    apply Forall_app in Hd2. destruct Hd2 as [Hms Ht].
    apply Forall_app. split; [now apply Forall_withoutMarkers|].
    apply Forall_app. split; [|now apply Forall_withoutMarkers].
    apply Forall_renderSections. intros m Hm.
    apply organizeEntries_In in Hm. apply Forall_renderMember.
    rewrite Forall_flat_map, Forall_forall in Hms. now apply Hms.
Qed.

Lemma Forall_assemble c u : Forall P (unitLines u) -> Forall P (assemble c u).
Proof.
  unfold unitLines, assemble. cbn [ungroup]. intros Hu.
  apply Forall_app in Hu. destruct Hu as [Hlead Hu].
  apply Forall_app in Hu. destruct Hu as [Hds Hrest].
  apply Forall_app. split; [now apply Forall_withoutMarkers|].
  apply Forall_app. split; [|now apply Forall_withoutMarkers].
  apply Forall_renderSections. intros d Hd.
  apply organizeEntries_In in Hd. apply Forall_renderDeclaration.
  rewrite flat_map_map, Forall_flat_map, Forall_forall in Hds. now apply Hds.
Qed.

End EveryLine.

Lemma noLF_header l n : Lines.noLF (headerLine l n) = true.
Proof.
  unfold headerLine.
  rewrite !LinesFacts.noLF_app, LinesFacts.noLF_oneLine, LinesFacts.noLF_decimal.
  reflexivity.
Qed.

Lemma noLF_footer l : Lines.noLF (footerLine l) = true.
Proof.
  unfold footerLine. now rewrite LinesFacts.noLF_app, LinesFacts.noLF_oneLine.
Qed.

Section Language.

Variable lex : string -> LineKind.

Local Abbreviation trivia := (trivia lex).
Local Abbreviation closes := (closes lex).
Local Abbreviation startsDeclaration := (startsDeclaration lex).
Local Abbreviation startsMember := (startsMember lex).
Local Abbreviation parseSpan := (parseSpan lex).
Local Abbreviation parseDeclaration := (parseDeclaration lex).
Local Abbreviation parseDeclarations := (parseDeclarations lex).
Local Abbreviation parse := (parse lex).
Local Abbreviation wellFormedSpan := (wellFormedSpan lex).
Local Abbreviation wellFormed := (wellFormed lex).
Local Abbreviation wellFormedUnit := (wellFormedUnit lex).

Lemma marker_trivia l : keepLine l = false -> trivia l = true.
Proof.
  unfold keepLine, Organizer.trivia, kindOfLine. now destruct (isMarker l).
Qed.

Lemma trivia_not_declaration l : trivia l = true -> startsDeclaration l = None.
Proof.
  unfold Organizer.trivia, Organizer.startsDeclaration.
  now destruct (kindOfLine lex l).
Qed.

Lemma trivia_not_member l : trivia l = true -> startsMember l = None.
Proof.
  unfold Organizer.trivia, Organizer.startsMember.
  now destruct (kindOfLine lex l).
Qed.

Lemma closes_kept l : closes l = true -> keepLine l = true.
Proof.
  unfold keepLine, Organizer.closes, kindOfLine. now destruct (isMarker l).
Qed.

Lemma declaration_kept l i : startsDeclaration l = Some i -> keepLine l = true.
Proof.
  intros Hl. destruct (keepLine l) eqn:Hk; [reflexivity|].
  apply marker_trivia, trivia_not_declaration in Hk. congruence.
Qed.

(** *** The lines of what the parser returns are the lines it was given *)

Lemma parseSpan_lines info lns sp :
  parseSpan info lns = Some sp -> spanLines sp = lns.
Proof.
  unfold Organizer.parseSpan. destruct (isClass (di_kind info)).
  2:{ now intros [= <-]. }
  destruct lns as [|start body]; [discriminate|].
  destruct (breakAt closes body) as [[[inner close] post]|] eqn:Hb; [|discriminate].
  apply breakAt_parts in Hb. destruct Hb as (-> & _ & _).
  pose proof (GroupingFacts.ungroup_group startsMember trivia inner) as Hg.
  destruct (group startsMember trivia inner) as [[head ms] dangling].
  intros [= <-]. simpl in *. rewrite <- Hg.
  now rewrite <- !app_assoc.
Qed.

Lemma parseDeclaration_element e d :
  parseDeclaration e = Some d -> declarationElement d = e.
Proof.
  unfold Organizer.parseDeclaration.
  destruct (parseSpan (e_info e) (e_lines e)) as [sp|] eqn:Hsp; [|discriminate].
  intros [= <-]. unfold declarationElement. simpl.
  rewrite (parseSpan_lines _ _ Hsp). now destruct e.
Qed.

Lemma parseDeclarations_elements es : forall ds,
  parseDeclarations es = Some ds -> map declarationElement ds = es.
Proof.
  induction es as [|e es IH]; simpl; intros ds.
  - now intros [= <-].
  - destruct (parseDeclaration e) as [d|] eqn:Hd; [|discriminate].
    destruct (parseDeclarations es) as [ds'|]; [|discriminate].
    intros [= <-]. simpl. now rewrite (parseDeclaration_element _ Hd), (IH ds').
Qed.

(** Parsing only cuts the text up: the lines of the source unit are the
    lines of the text. *)
Lemma parse_lines ls u : parse ls = Some u -> unitLines u = ls.
Proof.
  unfold Organizer.parse.
  pose proof (GroupingFacts.ungroup_group startsDeclaration trivia ls) as Hg.
  destruct (group startsDeclaration trivia ls) as [[head es] rest].
  destruct (parseDeclarations es) as [ds|] eqn:Hds; [|discriminate].
  intros [= <-]. unfold unitLines. simpl.
  now rewrite (parseDeclarations_elements _ Hds).
Qed.

(** *** What the parser returns is well formed *)

Lemma parseSpan_wellFormed info lns sp :
  parseSpan info lns = Some sp -> wellFormedSpan info sp.
Proof.
  unfold Organizer.parseSpan. destruct (isClass (di_kind info)) eqn:Hk.
  2:{ intros [= <-]. exact Hk. }
  destruct lns as [|start body]; [discriminate|].
  destruct (breakAt closes body) as [[[inner close] post]|] eqn:Hb; [|discriminate].
  apply breakAt_parts in Hb. destruct Hb as (_ & Hclose & Hinner).
  pose proof (GroupingFacts.ungroup_group startsMember trivia inner) as Hg.
  pose proof (GroupingFacts.group_wellGrouped startsMember trivia inner) as Hw.
  destruct (group startsMember trivia inner) as [[head ms] dangling].
  intros [= <-]. split; [exact Hk|].
  rewrite <- Hg in Hinner.
  exists start, head, dangling, close, post. repeat split; auto; apply Hw.
Qed.

Lemma parseDeclaration_wellFormed e d :
  wellGrouped startsDeclaration trivia e ->
  parseDeclaration e = Some d -> wellFormed d.
Proof.
  intros He Hd. split.
  - now rewrite (parseDeclaration_element _ Hd).
  - unfold Organizer.parseDeclaration in Hd.
    destruct (Organizer.parseSpan lex (e_info e) (e_lines e)) as [sp|] eqn:Hsp;
      [|discriminate].
    injection Hd as <-. simpl. exact (parseSpan_wellFormed _ _ Hsp).
Qed.

Lemma parseDeclarations_wellFormed es : forall ds,
  Forall (wellGrouped startsDeclaration trivia) es ->
  parseDeclarations es = Some ds -> Forall wellFormed ds.
Proof.
  induction es as [|e es IH]; simpl; intros ds Hes.
  - intros [= <-]. constructor.
  - inversion Hes as [|e' es' He Hes']; subst.
    destruct (Organizer.parseDeclaration lex e) as [d|] eqn:Hd; [|discriminate].
    destruct (Organizer.parseDeclarations lex es) as [ds'|]; [|discriminate].
    intros [= <-]. constructor; [|now apply IH].
    exact (parseDeclaration_wellFormed He Hd).
Qed.

Lemma parse_wellFormed ls u : parse ls = Some u -> wellFormedUnit u.
Proof.
  unfold Organizer.parse.
  pose proof (GroupingFacts.group_wellGrouped startsDeclaration trivia ls) as Hw.
  destruct (group startsDeclaration trivia ls) as [[head es] rest].
  destruct Hw as (Hhead & Hsolid & Hes & Hrest).
  destruct (Organizer.parseDeclarations lex es) as [ds|] eqn:Hds; [|discriminate].
  intros [= <-]. repeat split; auto.
  exact (parseDeclarations_wellFormed Hes Hds).
Qed.

(** *** A well-formed source unit is read back from its lines *)

Lemma parseSpan_spanLines info sp :
  wellFormedSpan info sp -> parseSpan info (spanLines sp) = Some sp.
Proof.
  unfold Organizer.parseSpan. destruct sp as [text|head ms tail].
  - simpl. now intros ->.
  - intros (Hk & start & inner & dangling & close & post
            & -> & -> & Hclose & Hinner & Hw).
    rewrite Hk.
    replace (spanLines (ClassSpan (start :: inner) ms (dangling ++ close :: post)))
      with (start :: ungroup (inner, ms, dangling) ++ close :: post)
      by (simpl; now rewrite <- !app_assoc).
    rewrite (@breakAt_app closes _ close post Hinner Hclose).
    now rewrite (GroupingFacts.group_ungroup trivia_not_member Hw).
Qed.

Lemma parseDeclaration_declarationElement d :
  wellFormed d -> parseDeclaration (declarationElement d) = Some d.
Proof.
  intros [_ Hsp]. unfold Organizer.parseDeclaration. simpl.
  rewrite (@parseSpan_spanLines _ _ Hsp). now destruct d.
Qed.

Lemma parseDeclarations_declarationElement ds :
  Forall wellFormed ds -> parseDeclarations (map declarationElement ds) = Some ds.
Proof.
  induction 1 as [|d ds Hd _ IH]; [reflexivity|].
  cbn [map Organizer.parseDeclarations].
  now rewrite (@parseDeclaration_declarationElement _ Hd), IH.
Qed.

Lemma wellFormedUnit_grouped u :
  wellFormedUnit u ->
  wellGroupedAll startsDeclaration trivia
    (u_leading u, map declarationElement (u_declarations u), u_trailing u).
Proof.
  intros (Hhead & Hsolid & Hds & Hrest). repeat split; auto.
  apply Forall_map. revert Hds. apply Forall_impl. now intros d [Hd _].
Qed.

Lemma parse_unitLines u : wellFormedUnit u -> parse (unitLines u) = Some u.
Proof.
  intros Hu. unfold Organizer.parse, unitLines.
  rewrite (GroupingFacts.group_ungroup trivia_not_declaration (@wellFormedUnit_grouped _ Hu)).
  destruct Hu as (_ & _ & Hds & _).
  rewrite (@parseDeclarations_declarationElement _ Hds). now destruct u.
Qed.

(** *** Parsing commutes with leaving the markers out *)

Lemma parseSpan_filter info start body :
  keepLine start = true ->
  parseSpan info (withoutMarkers (start :: body))
  = option_map stripSpan (parseSpan info (start :: body)).
Proof.
  intros Hstart. unfold Organizer.parseSpan.
  destruct (isClass (di_kind info)); [|reflexivity].
  unfold withoutMarkers. cbn [filter]. rewrite Hstart.
  rewrite (@breakAt_filter closes keepLine body closes_kept).
  destruct (breakAt closes body) as [[[inner close] post]|] eqn:Hb; [|reflexivity].
  apply breakAt_parts in Hb. destruct Hb as (_ & Hclose & _).
  rewrite (@GroupingFacts.group_filter _ startsMember trivia trivia_not_member
             keepLine marker_trivia inner).
  destruct (group startsMember trivia inner) as [[head ms] dangling].
  cbn [stripGroups option_map stripSpan]. unfold withoutMarkers.
  rewrite filter_app. cbn [filter]. now rewrite Hstart, (closes_kept _ Hclose).
Qed.

Lemma parseDeclaration_filter e :
  wellGrouped startsDeclaration trivia e ->
  parseDeclaration (stripElement keepLine e)
  = option_map stripDeclaration (parseDeclaration e).
Proof.
  intros [_ (start & body & Hlines & Hstart & _)].
  unfold Organizer.parseDeclaration. cbn [stripElement e_info e_leading e_lines].
  rewrite Hlines.
  change (filter keepLine (start :: body)) with (withoutMarkers (start :: body)).
  rewrite (@parseSpan_filter (e_info e) start body (declaration_kept _ Hstart)).
  now destruct (parseSpan (e_info e) (start :: body)).
Qed.

Lemma parseDeclarations_filter es :
  Forall (wellGrouped startsDeclaration trivia) es ->
  parseDeclarations (map (stripElement keepLine) es)
  = option_map (map stripDeclaration) (parseDeclarations es).
Proof.
  induction 1 as [|e es He _ IH]; [reflexivity|].
  cbn [map Organizer.parseDeclarations].
  rewrite (@parseDeclaration_filter e He), IH.
  destruct (parseDeclaration e); [|reflexivity].
  now destruct (parseDeclarations es).
Qed.

(** The parser reads a text without its marker lines as the source unit of
    the text, without its marker lines. *)
Lemma parse_filter ls :
  parse (withoutMarkers ls) = option_map stripUnit (parse ls).
Proof.
  unfold Organizer.parse, withoutMarkers.
  rewrite (@GroupingFacts.group_filter _ startsDeclaration trivia trivia_not_declaration
             keepLine marker_trivia ls).
  pose proof (GroupingFacts.group_wellGrouped startsDeclaration trivia ls) as Hw.
  destruct (group startsDeclaration trivia ls) as [[head es] rest].
  destruct Hw as (_ & _ & Hes & _).
  cbn [stripGroups]. rewrite (@parseDeclarations_filter es Hes).
  now destruct (parseDeclarations es).
Qed.

(** *** The canonical unit is well formed *)

Lemma Forall_flat_map_incl {A} (P : string -> Prop) (f : A -> list string) xs ys :
  (forall x, In x ys -> In x xs) ->
  Forall P (flat_map f xs) -> Forall P (flat_map f ys).
Proof.
  intros Hincl. rewrite !Forall_flat_map, !Forall_forall. auto.
Qed.

Lemma Forall_incl {A} (P : A -> Prop) xs ys :
  (forall x, In x ys -> In x xs) -> Forall P xs -> Forall P ys.
Proof. intros Hincl. rewrite !Forall_forall. auto. Qed.

Lemma wellFormed_canonical c d :
  wellFormed d -> wellFormed (canonicalDeclaration c d).
Proof.
  destruct d as [info lead [text|head ms tail]]; [now intros Hd|].
  intros [(Hlead & l & body & Hlines & Hl & Hbody & Hbsolid)
          (Hk & start & inner & dangling & close & post
           & -> & -> & Hclose & Hinner & (Hi & Hisolid & Hms & Hdang))].
  cbn [declarationElement e_info e_leading e_lines d_info d_leading d_span spanLines]
    in *.
  injection Hlines as <- <-.
  assert (Hincl : forall m, In m (Core.flatten (organizeMembers c ms)) -> In m ms)
    by (intros m; apply organizeEntries_In).
  apply Forall_app in Hbody. destruct Hbody as [Hb1 Hb2].
  apply Forall_app in Hb2. destruct Hb2 as [Hb2 Hb3].
  split.
  - split; [exact Hlead|].
    exists start,
      (inner ++ flat_map (@elementLines MemberInfo) (Core.flatten (organizeMembers c ms))
             ++ dangling ++ close :: post).
    cbn [declarationElement canonicalDeclaration canonicalSpan spanLines
         e_info e_leading e_lines d_info d_leading d_span].
    repeat split.
    + exact Hl.
    + apply Forall_app. split; [exact Hb1|]. apply Forall_app. split; [|exact Hb3].
      eapply Forall_flat_map_incl; [exact Hincl | exact Hb2].
    + rewrite !app_assoc. rewrite !app_assoc in Hbsolid.
      apply GroupingFacts.endsSolid_app; [discriminate|].
      eapply GroupingFacts.endsSolid_app_r; exact Hbsolid.
  - split; [exact Hk|].
    exists start, inner, dangling, close, post.
    cbn [ungroup] in *. repeat split; auto.
    + apply Forall_app in Hinner. destruct Hinner as [Hc1 Hc2].
      apply Forall_app in Hc2. destruct Hc2 as [Hc2 Hc3].
      apply Forall_app. split; [exact Hc1|]. apply Forall_app. split; [|exact Hc3].
      eapply Forall_flat_map_incl; [exact Hincl | exact Hc2].
    + eapply Forall_incl; [exact Hincl | exact Hms].
Qed.

Lemma wellFormedUnit_canonical c u :
  wellFormedUnit u -> wellFormedUnit (canonicalUnit c u).
Proof.
  intros (Hhead & Hsolid & Hds & Hrest). repeat split; auto.
  cbn [canonicalUnit u_declarations]. apply Forall_map.
  apply Forall_forall. intros d Hd.
  apply organizeEntries_In in Hd.
  apply wellFormed_canonical. rewrite Forall_forall in Hds. now apply Hds.
Qed.

(** *** Organizing twice *)

(** The parser reads the assembled text as a source unit that is assembled
    to the same text. *)
Lemma parse_assemble c ls u :
  parse ls = Some u ->
  exists u', parse (assemble c u) = Some u' /\ assemble c u' = assemble c u.
Proof.
  intros Hu. apply parse_wellFormed in Hu.
  pose proof (@parse_unitLines _ (@wellFormedUnit_canonical c _ Hu)) as Hcanon.
  pose proof (parse_filter (unitLines (canonicalUnit c u))) as Hplain.
  rewrite Hcanon, <- withoutMarkers_assemble, parse_filter in Hplain.
  destruct (parse (assemble c u)) as [u'|]; [|discriminate].
  assert (Hstrip : stripUnit u' = stripUnit (canonicalUnit c u))
    by (cbn [option_map] in Hplain; congruence).
  exists u'. split; [reflexivity|].
  now rewrite <- (assemble_strip c u'), Hstrip, assemble_strip, assemble_reordered.
Qed.

(** The assembled text is read back line by line. *)
Lemma lines_assemble c s u :
  parse (Lines.lines s) = Some u ->
  Lines.lines (Lines.unlines (assemble c u)) = assemble c u.
Proof.
  intros Hu. apply LinesFacts.lines_unlines.
  apply Forall_assemble; [apply noLF_header | apply noLF_footer|].
  rewrite (parse_lines _ Hu). apply LinesFacts.lines_noLF.
Qed.

(** Organizing the organized text returns it, unchanged. *)
Lemma organize_text_twice c filePath s r :
  Organizer.organize lex filePath s c = inr r ->
  Organizer.organize lex filePath (Core.outputText r) c
  = inr (Core.mkResult false (Core.outputText r)).
Proof.
  unfold Organizer.organize.
  destruct (parse (Lines.lines s)) as [u|] eqn:Hu; [|discriminate].
  intros [= <-]. cbn [Core.outputText].
  rewrite (lines_assemble c _ Hu).
  destruct (parse_assemble c _ Hu) as (u' & -> & ->).
  now rewrite String.eqb_refl.
Qed.

Lemma organizeSourceCode_twice c filePath s out :
  Organizer.organizeSourceCode lex filePath s c = inr out ->
  Organizer.organizeSourceCode lex filePath out c = inr out.
Proof.
  unfold Organizer.organizeSourceCode.
  destruct (Organizer.organize lex filePath s c) as [e|r] eqn:Hr; [discriminate|].
  intros [= <-]. now rewrite (organize_text_twice _ _ _ Hr).
Qed.

End Language.

End OrganizerFacts.



(* ===================================================================== *)
(** * The properties at work on the concrete host *)
(* ===================================================================== *)

Example replaceAll_dot_segments :
  JsString.replaceAll (JsString.replaceAll "../lib/./a.ts" "../" "") "./" "" = "lib/a.ts".
Proof. reflexivity. Qed.

(** [replaceAll] makes one pass: what it leaves can contain the pattern again. *)
Example replaceAll_single_pass :
  JsString.replaceAll (JsString.replaceAll "..././/" "../" "") "./" "" = "./".
Proof. reflexivity. Qed.

Example dirname_examples :
  map Posix.dirname ["/w/src/"; "/w"; "/"; "//w"; "a/b"; "a"; "."; ""]
  = ["/w"; "/"; "/"; "//"; "a"; "."; "."; "."].
Proof. reflexivity. Qed.

Example glob_examples :
  map (Glob.test "**/*.ts") ["/w/src/a.ts"; "src/a.ts"; "a.ts"; "/w/src/a.js"]
  = [true; true; false; false].
Proof. reflexivity. Qed.

(** The class with [foo] before [bar] comes out with "Properties (1)" before
    "Methods (1)". *)
Example organize_scenario_A :
  Core.organize Demo.parse "/w/src/a.ts" Demo.text1 Demo.policy
  = inr (Core.mkResult true Demo.text2).
Proof. reflexivity. Qed.

(** Scenario A: the class with [foo] before [bar] comes out with
    "Properties (1)" before "Methods (1)". *)
Example organize_lines_scenario_A :
  Organizer.organize DemoLines.lex "/w/src/a.ts" Demo.text1 Demo.policy
  = inr (Core.mkResult true
           ("// #region Classes (1)" ++ Core.LF
            ++ "class A {" ++ Core.LF
            ++ "// #region Properties (1)" ++ Core.LF
            ++ "  private bar = 1;" ++ Core.LF
            ++ "// #endregion Properties" ++ Core.LF
            ++ "// #region Methods (1)" ++ Core.LF
            ++ "  foo() {}" ++ Core.LF
            ++ "// #endregion Methods" ++ Core.LF
            ++ "}" ++ Core.LF
            ++ "// #endregion Classes" ++ Core.LF)).
Proof. vm_compute. reflexivity. Qed.

(** Markers of an earlier run are not copied, comments move with what they
    precede, and the counts are those of the run. *)
Example organize_lines_regenerates_markers :
  Organizer.organize DemoLines.lex "/w/src/a.ts" DemoLines.text3 Demo.policy
  = inr (Core.mkResult true DemoLines.text4).
Proof. vm_compute. reflexivity. Qed.

Example organize_lines_settled :
  Organizer.organize DemoLines.lex "/w/src/a.ts" DemoLines.text4 Demo.policy
  = inr (Core.mkResult false DemoLines.text4).
Proof. vm_compute. reflexivity. Qed.

(** Scenario B: an empty class body gets no member sections. *)
Example organize_lines_scenario_B :
  Organizer.organize DemoLines.lex "/w/src/a.ts"
    ("class A {" ++ Core.LF ++ "}" ++ Core.LF) Demo.policy
  = inr (Core.mkResult true
           ("// #region Classes (1)" ++ Core.LF
            ++ "class A {" ++ Core.LF ++ "}" ++ Core.LF
            ++ "// #endregion Classes" ++ Core.LF)).
Proof. vm_compute. reflexivity. Qed.

(** Scenario D: a class that no line closes is a syntax error. *)
Example organize_lines_scenario_D :
  Organizer.organize DemoLines.lex "/w/src/broken.ts" "class {" Demo.policy
  = inl (ParseError "/w/src/broken.ts").
Proof. vm_compute. reflexivity. Qed.

Lemma demo_texts_differ : Demo.text2 <> Demo.text1.
Proof. intros E. vm_compute in E. discriminate E. Qed.


Lemma organize_edits_iff_changed_witness :
  exists w',
    @organize Demo.host "/w/src/a.ts" Demo.policy Demo.world = (Returned true, w')
    /\ @sourceOf Demo.host w' "/w/src/a.ts" = Some Demo.text2.
Proof.
  destruct (proj1 (@organize_edits_iff_changed Demo.host)
              Demo.world "/w/src/a.ts" Demo.policy Demo.text1 Demo.text2
              eq_refl eq_refl eq_refl)
    as (w' & Hrun & Hchanged & _).
  exists w'. split; [exact Hrun|].
  destruct (Hchanged demo_texts_differ) as (d & _ & _ & _ & Hs). exact Hs.
Defined.

Lemma organizer_failure_edits_nothing_witness :
  exists w',
    @organize Demo.host "/w/src/broken.ts" Demo.policy Demo.closedWorld
    = (Thrown (ParseError "/w/src/broken.ts"), w')
    /\ appliedEdits (trace w') = []
    /\ visibleTextEditors w' = [].
Proof.
  destruct (proj1 (@organizer_failure_edits_nothing Demo.host)
              Demo.closedWorld "/w/src/broken.ts" Demo.policy "class {"
              (ParseError "/w/src/broken.ts") eq_refl eq_refl eq_refl)
    as (w' & Hrun & Hedits & Hsame).
  exists w'. split; [exact Hrun|]. split; [exact Hedits | apply Hsame].
Defined.

Lemma filter_decides_what_is_organized_witness :
  organizerCalls
    (trace (snd (@organize Demo.host "/w/src/a.ts" Demo.policy Demo.world)))
  = [("/w/src/a.ts", Demo.text1)].
Proof.
  exact (proj2 (proj2 (proj2 (@filter_decides_what_is_organized Demo.host)))
           Demo.world "/w/src/a.ts" Demo.policy Demo.text1 eq_refl eq_refl).
Defined.

Lemma configuration_precedence_witness :
  exists ms, forall fuel,
    Posix.height "/w" <= fuel ->
    @getConfiguration Demo.host fuel None Demo.world
    = (Returned (Demo.load Demo.files "/tsco.json"), loggedAll ms Demo.world).
Proof.
  exact (@configuration_precedence Demo.host Posix.height PosixFacts.dirname_lower
           Demo.world None).
Defined.

Lemma onSave_replaces_whole_document_witness :
  exists w',
    @onSave Demo.host 5 (mkWillSave (Demo.document Demo.text1) Manual) Demo.world
    = (Some (Returned [Doc.mkTextEdit
                         (Doc.mkRange (Doc.mkPosition 0 0) (Doc.mkPosition 4 0))
                         Demo.text2]), w').
Proof.
  destruct (@onSave_replaces_whole_document Demo.host 5
              (mkWillSave (Demo.document Demo.text1) Manual) Demo.world
              (Demo.load Demo.files "/tsco.json")
              (logged (@onSave_message (mkWillSave (Demo.document Demo.text1) Manual)
                         Demo.world) Demo.world)
              eq_refl eq_refl eq_refl eq_refl)
    as (Hchanged & _ & _).
  destruct (Hchanged Demo.text2 eq_refl eq_refl demo_texts_differ) as (w' & Hrun & _).
  exists w'. exact Hrun.
Defined.

Lemma parent_walk_terminates_witness :
  exists cfg w', forall fuel,
    3 <= fuel ->
    @getConfiguration_walk Demo.host fuel "/w" Demo.world = (Returned cfg, w').
Proof.
  exact (proj2 (proj2 (parent_walk_terminates Demo.host (fun p => eq_refl)))
           "/w" Demo.world).
Defined.

Lemma onSave_registers_only_under_guards_witness :
  exists w',
    @onSave Demo.host 5
      (mkWillSave (Doc.mkTextDocument "/w/tsco.json" "json" "{}") Manual) Demo.world
    = (None, w')
    /\ visibleTextEditors w' = visibleTextEditors Demo.world.
Proof.
  destruct (proj2 (@onSave_registers_only_under_guards Demo.host 5
                     (mkWillSave (Doc.mkTextDocument "/w/tsco.json" "json" "{}") Manual)
                     Demo.world)
              (or_intror (or_introl
                 (fun E : "json" = "typescript" =>
                    eq_ind "json"
                      (fun s => match s with String "j" _ => True | _ => False end)
                      I "typescript" E))))
    as (w' & Hrun & Hsame & _).
  exists w'. split; [exact Hrun | apply Hsame].
Defined.

Lemma onOrganize_guards_witness :
  @onOrganize Demo.host 5 (path "/w/README.md") Demo.world = (Returned false, Demo.world)
  /\ @onOrganize Demo.host 5 (path "/w/src/missing.ts") Demo.world
     = (Returned false, Demo.world).
Proof.
  split.
  - exact (proj1 (proj2 (proj2 (proj2 (@onOrganize_guards Demo.host 5 Demo.world))))
             "/w/README.md" eq_refl).
  - exact (proj1 (proj2 (proj2 (proj2 (proj2 (@onOrganize_guards Demo.host 5 Demo.world)))))
             "/w/src/missing.ts" eq_refl).
Defined.

Lemma filter_tries_both_forms_exclusion_wins_witness :
  shouldOrganize (@shouldOrganizeFile Demo.host "./src/a.ts"
                    (Demo.load Demo.files "/tsco.json")) = true
  /\ shouldOrganize (@shouldOrganizeFile Demo.host "src/a.d.ts" Demo.policy) = false.
Proof.
  split.
  - apply (proj1 (@filter_tries_both_forms_exclusion_wins Demo.host "./src/a.ts"
                    (Demo.load Demo.files "/tsco.json"))).
    split.
    + right. exists "src/*.ts". split; [left; reflexivity | right; reflexivity].
    + intros exc [].
  - exact (proj2 (@filter_tries_both_forms_exclusion_wins Demo.host "src/a.d.ts" Demo.policy)
             "**/*.ts" "**/*.d.ts" (or_introl eq_refl) (or_introl eq_refl)
             (or_introl eq_refl) (or_introl eq_refl)).
Defined.

(* ===================================================================== *)
(** * Further properties of the host code *)
(* ===================================================================== *)

(** ** The file filter *)

Section FilterExtras.

Context {H : Host}.

(** X1. A file that is filtered out costs one log line, which names the file
    and one of the two reasons, never an undefined one; the exclude reason is
    given only when the include list let the file through. *)
Theorem organize_skip_names_reason :
  forall w p cfg,
    passesFilter w p cfg = false ->
    exists r,
      organize p cfg w
      = (Returned false,
         logged ("tsco skipping organizing " ++ p ++ ", because it " ++ r) w)
      /\ (r = "does not match file include patterns"
          /\ files_include cfg <> []
          /\ existsb (fun inc => matchesEitherForm inc (getRelativePath (workspaceRoot w) p))
                     (files_include cfg) = false
          \/ r = "matches file exclude patterns"
             /\ existsb (fun exc => matchesEitherForm exc (getRelativePath (workspaceRoot w) p))
                        (files_exclude cfg) = true).
Proof.
  intros w p cfg Hf.
  pose proof Hf as Hf0.
  unfold passesFilter in Hf. rewrite shouldOrganizeFile_eq in Hf.
  set (rel := getRelativePath (workspaceRoot w) p) in *.
  assert (Hrun : organize p cfg w
                 = (Returned false,
                    logged ("tsco skipping organizing " ++ p ++ ", because it "
                              ++ show_reason (reason (shouldOrganizeFile rel cfg))) w)).
  { unfold passesFilter, workspaceRoot in Hf0. subst rel. unfold workspaceRoot.
    unfold organize, getWorkspaceRootDirectoryPath, bind, gets.
    rewrite Hf0. reflexivity. }
  assert (Hreason :
            reason (shouldOrganizeFile rel cfg)
            = if negb (match files_include cfg with
                       | [] => true
                       | _ :: _ => existsb (fun inc => matchesEitherForm inc rel)
                                           (files_include cfg)
                       end)
              then Some "does not match file include patterns"
              else if existsb (fun exc => matchesEitherForm exc rel) (files_exclude cfg)
                   then Some "matches file exclude patterns"
                   else None).
  { unfold shouldOrganizeFile. rewrite existsb_guarded.
    fold (withoutDotSegments rel).
    change (fun exc => matches exc rel || matches exc (withoutDotSegments rel))%bool
      with (fun exc => matchesEitherForm exc rel).
    destruct (files_include cfg) as [|i incs]; [cbn [List.length Nat.ltb Nat.leb negb]|].
    - now destruct (existsb _ (files_exclude cfg)).
    - change (Nat.ltb 0 (List.length (i :: incs))) with true. cbv iota.
      destruct (existsb _ (i :: incs)); cbn [negb]; [|reflexivity].
      now destruct (existsb _ (files_exclude cfg)). }
  rewrite Hreason in Hrun.
  destruct (files_include cfg) as [|i incs] eqn:Hinc.
  - cbn [negb] in Hrun. simpl in Hf.
    destruct (existsb _ (files_exclude cfg)) eqn:Hex; [|discriminate].
    eexists. split; [exact Hrun|]. right. split; reflexivity.
  - destruct (existsb _ (i :: incs)) eqn:Hin; cbn [negb] in Hrun.
    + simpl in Hf. destruct (existsb _ (files_exclude cfg)) eqn:Hex; [|discriminate].
      eexists. split; [exact Hrun|]. right. split; reflexivity.
    + eexists. split; [exact Hrun|]. left. repeat split; congruence.
Qed.

(** X2. More exclude patterns never let more files through, and more include
    patterns never let fewer through as long as the include list was not
    empty; an empty include list lets every file through that is not
    excluded. *)
Theorem filter_monotone :
  forall rel cfg cfg',
    (files_include cfg' = files_include cfg ->
     incl (files_exclude cfg) (files_exclude cfg') ->
     shouldOrganize (shouldOrganizeFile rel cfg') = true ->
     shouldOrganize (shouldOrganizeFile rel cfg) = true)
    /\ (files_exclude cfg' = files_exclude cfg ->
        files_include cfg <> [] ->
        incl (files_include cfg) (files_include cfg') ->
        shouldOrganize (shouldOrganizeFile rel cfg) = true ->
        shouldOrganize (shouldOrganizeFile rel cfg') = true)
    /\ (files_exclude cfg' = files_exclude cfg ->
        files_include cfg' = [] ->
        shouldOrganize (shouldOrganizeFile rel cfg) = true ->
        shouldOrganize (shouldOrganizeFile rel cfg') = true).
Proof.
  intros rel cfg cfg'. rewrite !shouldOrganizeFile_eq. split; [|split].
  - intros Hinc Hexc. rewrite Hinc, !andb_true_iff, !negb_true_iff.
    intros [Hi He]. split; [exact Hi|].
    destruct (existsb _ (files_exclude cfg)) eqn:E; [|reflexivity].
    apply existsb_exists in E. destruct E as (q & Hq & Hm).
    assert (existsb (fun exc => matchesEitherForm exc rel) (files_exclude cfg') = true)
      by (apply existsb_exists; exists q; auto).
    congruence.
  - intros Hexc Hne Hinc. rewrite Hexc, !andb_true_iff.
    intros [Hi He]. split; [|exact He].
    destruct (files_include cfg) as [|i incs] eqn:Hi0; [congruence|].
    apply existsb_exists in Hi. destruct Hi as (q & Hq & Hm).
    assert (Hin' : In q (files_include cfg')) by (apply Hinc; exact Hq).
    destruct (files_include cfg') as [|i' incs']; [destruct Hin'|].
    apply existsb_exists. exists q. auto.
  - intros Hexc Hinc. rewrite Hexc, Hinc, !andb_true_iff.
    intros [_ He]. split; [reflexivity | exact He].
Qed.

Lemma replaceAll_absent pat rep :
  forall s, occurs pat s = false -> JsString.replaceAll_from pat rep 0 s = s.
Proof.
  induction s as [|c s IH]; [reflexivity|].
  intros Hocc. cbn [occurs] in Hocc. apply orb_false_iff in Hocc.
  destruct Hocc as [Hpre Hrest].
  cbn [JsString.replaceAll_from]. rewrite Hpre. f_equal. now apply IH.
Qed.

Lemma occurs_prefix pat s : occurs pat s = false -> String.prefix pat s = false.
Proof.
  destruct s; cbn [occurs]; intros Hocc; apply orb_false_iff in Hocc; apply Hocc.
Qed.

Lemma occurs_longer pat c :
  forall s, occurs pat s = false -> occurs (String c pat) s = false.
Proof.
  induction s as [|d s IH]; intros Hocc.
  - reflexivity.
  - cbn [occurs] in *. apply orb_false_iff in Hocc. destruct Hocc as [_ Hrest].
    apply orb_false_iff. split; [|now apply IH].
    simpl. destruct (Ascii.ascii_dec c d) as [_|_]; [|reflexivity].
    now apply occurs_prefix.
Qed.

(** X3. For a relative path in which "./" does not occur, the second form the
    filter tries is the path itself, so the filter is decided by matching the
    patterns against the path as it is. *)
Theorem filter_on_plain_path :
  forall rel cfg,
    occurs "./" rel = false ->
    withoutDotSegments rel = rel
    /\ shouldOrganize (shouldOrganizeFile rel cfg)
       = (match files_include cfg with
          | [] => true
          | _ :: _ => existsb (fun inc => matches inc rel) (files_include cfg)
          end
          && negb (existsb (fun exc => matches exc rel) (files_exclude cfg)))%bool.
Proof.
  intros rel cfg Hocc.
  assert (Hclean : withoutDotSegments rel = rel).
  { unfold withoutDotSegments, JsString.replaceAll.
    rewrite (replaceAll_absent "../" "" rel) by (now apply occurs_longer).
    now apply replaceAll_absent. }
  split; [exact Hclean|].
  rewrite shouldOrganizeFile_eq.
  assert (Hsame : forall l, existsb (fun q => matchesEitherForm q rel) l
                            = existsb (fun q => matches q rel) l).
  { induction l as [|q l IH]; [reflexivity|]. cbn [existsb].
    unfold matchesEitherForm at 1. now rewrite Hclean, orb_diag, IH. }
  now rewrite !Hsame.
Qed.

End FilterExtras.

(** ** One run of [organize], in full *)

Section OrganizeExtras.

Context {H : Host}.

Lemma strict_neq_true out src : out <> src -> JsString.strict_neq out src = true.
Proof.
  intros Hne. unfold JsString.strict_neq.
  destruct (String.eqb_spec out src); [contradiction | reflexivity].
Qed.

(** The text changed and the file is shown in an editor. *)
Lemma organize_changed_open p cfg w e out :
  passesFilter w p cfg = true ->
  openedEditor w p = Some e ->
  organizeSourceCode p (Doc.getText e) cfg = inr out ->
  out <> Doc.getText e ->
  organize p cfg w
  = (Returned true,
     mkWorld (settings w) (workspaceFolders w) (fs w)
       (map (edited (Doc.doc_fsPath e) (Doc.wholeRange e) out) (visibleTextEditors w))
       (EvLog ("tsco organized " ++ p)
          :: EvApplyEdit (Doc.doc_fsPath e) (Doc.wholeRange e) out
          :: EvOrganizeSourceCode p (Doc.getText e) :: trace w)).
Proof.
  intros Hf Hopen Hc Hne. unfold passesFilter, workspaceRoot in Hf.
  unfold openedEditor in Hopen.
  unfold organize, getWorkspaceRootDirectoryPath, getOpenedEditor, bind, gets.
  rewrite Hf. cbn [negb]. rewrite Hopen. unfold ret at 1.
  unfold SourceCodeOrganizer_organizeSourceCode, bind, emit. rewrite Hc.
  unfold ret at 1. rewrite (strict_neq_true Hne). reflexivity.
Qed.

(** The text changed and the file is not shown: it is opened first. *)
Lemma organize_changed_closed p cfg w src out :
  passesFilter w p cfg = true ->
  openedEditor w p = None ->
  fs w p = Some src ->
  organizeSourceCode p src cfg = inr out ->
  out <> src ->
  let d := Doc.mkTextDocument p (languageIdOf p) src in
  organize p cfg w
  = (Returned true,
     mkWorld (settings w) (workspaceFolders w) (fs w)
       (map (edited p (Doc.wholeRange d) out) (visibleTextEditors w ++ [d]))
       (EvLog ("tsco organized " ++ p)
          :: EvApplyEdit p (Doc.wholeRange d) out
          :: EvShowTextDocument p
          :: EvOrganizeSourceCode p src :: trace w)).
Proof.
  intros Hf Hopen Hs Hc Hne d. unfold passesFilter, workspaceRoot in Hf.
  unfold openedEditor in Hopen.
  unfold organize, openEditor, showTextDocument,
    getWorkspaceRootDirectoryPath, getOpenedEditor, bind, gets.
  rewrite Hf. cbn [negb]. rewrite Hopen.
  unfold readFile at 1. rewrite Hs.
  unfold SourceCodeOrganizer_organizeSourceCode, bind, emit. rewrite Hc.
  unfold ret at 1. rewrite (strict_neq_true Hne). cbn [visibleTextEditors].
  rewrite Hopen. unfold readFile. cbn [fs]. rewrite Hs. reflexivity.
Qed.

Lemma organize_run p cfg w o w' :
  organize p cfg w = (o, w') -> OrganizeRun p cfg w o w'.
Proof.
  intros Hrun.
  destruct (passesFilter w p cfg) eqn:Hf.
  2:{ destruct (organize_filtered _ _ _ Hf) as [m Hm].
      rewrite Hm in Hrun. injection Hrun as <- <-. now constructor. }
  destruct (sourceOf w p) as [src|] eqn:Hs.
  2:{ rewrite (organize_unreadable _ _ _ Hf Hs) in Hrun.
      injection Hrun as <- <-. now constructor. }
  destruct (organizeSourceCode p src cfg) as [e|out] eqn:Hc.
  { rewrite (organize_fails _ _ _ Hf Hs Hc) in Hrun.
    injection Hrun as <- <-. now constructor. }
  destruct (String.eqb_spec out src) as [->|Hne].
  { destruct (organize_unchanged _ _ _ Hf Hs Hc) as [m Hm].
    rewrite Hm in Hrun. injection Hrun as <- <-. now constructor. }
  unfold sourceOf in Hs.
  destruct (openedEditor w p) as [e|] eqn:Hopen.
  - injection Hs as <-.
    rewrite (organize_changed_open _ _ _ Hf Hopen Hc Hne) in Hrun.
    injection Hrun as <- <-. now constructor.
  - pose proof (organize_changed_closed _ _ _ Hf Hopen Hs Hc Hne) as Hrun'.
    cbv zeta in Hrun'. rewrite Hrun' in Hrun.
    injection Hrun as <- <-. now constructor.
Qed.

(** X4. [organize] returns true exactly when it applied an edit. A run
    applies at most one edit and calls the organizer at most once, and no
    edit is applied without a call of the organizer. *)
Theorem organize_true_iff_edited :
  forall p cfg w o w',
    organize p cfg w = (o, w') ->
    exists edits calls,
      appliedEdits (trace w') = edits ++ appliedEdits (trace w)
      /\ organizerCalls (trace w') = calls ++ organizerCalls (trace w)
      /\ List.length edits = match o with Returned true => 1 | _ => 0 end
      /\ List.length calls <= 1
      /\ List.length edits <= List.length calls.
Proof.
  intros p cfg w o w' Hrun. apply organize_run in Hrun.
  destruct Hrun.
  - exists [], []. repeat split; simpl; lia.
  - exists [], []. repeat split; simpl; lia.
  - exists [], [(p, src)]. repeat split; simpl; lia.
  - exists [], [(p, src)]. repeat split; simpl; lia.
  - exists [(Doc.doc_fsPath e, Doc.wholeRange e, out)], [(p, Doc.getText e)].
    repeat split; simpl; lia.
  - exists [(p, Doc.wholeRange (Doc.mkTextDocument p (languageIdOf p) src), out)],
      [(p, src)].
    repeat split; simpl; lia.
Qed.

(** X5. A run of [organize] on a file leaves the settings, the workspace
    folders and the file system alone. Every edit it applies goes to the
    document of the editor that [getOpenedEditor] finds for the file, or to
    the file itself when it finds none; the path of that document is the
    path of the file up to [getFullPath] and letter case only, so it can be
    the document of another file. The run shows at most one document, the
    file itself, and only when no editor was found and the text has changed.
    When it shows none, every editor whose document no edit goes to stays as
    it is. *)
Theorem organize_leaves_the_rest :
  forall p cfg w o w',
    organize p cfg w = (o, w') ->
    settings w' = settings w
    /\ workspaceFolders w' = workspaceFolders w
    /\ fs w' = fs w
    /\ exists edits shown,
        appliedEdits (trace w') = edits ++ appliedEdits (trace w)
        /\ shownFiles (trace w') = shown ++ shownFiles (trace w)
        /\ (forall target r text, In (target, r, text) edits ->
              target = match openedEditor w p with
                       | Some e => Doc.doc_fsPath e
                       | None => p
                       end
              /\ toLowerCase (getFullPath target) = toLowerCase (getFullPath p))
        /\ (shown = []
            \/ shown = [p] /\ openedEditor w p = None /\ o = Returned true)
        /\ (shown = [] ->
            forall d, In d (visibleTextEditors w) ->
              (forall target r text, In (target, r, text) edits ->
                 Doc.doc_fsPath d <> target) ->
              In d (visibleTextEditors w')).
Proof.
  intros p cfg w o w' Hrun. apply organize_run in Hrun.
  destruct Hrun as [m Hf|Hf Hs|src e Hf Hs Hc|src m Hf Hs Hc
                   |e out Hf Hopen Hc Hne|src out Hf Hopen Hs Hc Hne];
    try solve [repeat split; auto; exists [], []; repeat split; auto;
               simpl in *; contradiction].
  - repeat split; auto.
    exists [(Doc.doc_fsPath e, Doc.wholeRange e, out)], [].
    split; [reflexivity|]. split; [reflexivity|]. split; [|split; [now left|]].
    + intros target r text [Heq|[]]. injection Heq as <- _ _.
      rewrite Hopen. split; [reflexivity|].
      unfold openedEditor in Hopen. apply find_some in Hopen.
      destruct Hopen as [_ He]. now apply String.eqb_eq in He.
    + intros _ d Hd Hother. cbn [visibleTextEditors].
      apply in_map_iff. exists d. split; [|exact Hd].
      unfold edited.
      destruct (String.eqb_spec (Doc.doc_fsPath d) (Doc.doc_fsPath e)) as [Heq|];
        [|reflexivity].
      exfalso. apply (Hother (Doc.doc_fsPath e) (Doc.wholeRange e) out);
        [now left | exact Heq].
  - repeat split; auto.
    exists [(p, Doc.wholeRange (Doc.mkTextDocument p (languageIdOf p) src), out)], [p].
    split; [reflexivity|]. split; [reflexivity|].
    split; [|split; [now right | discriminate]].
    intros target r text [Heq|[]]. injection Heq as <- _ _.
    now rewrite Hopen.
Qed.

(** X6. For a file shown in an editor, [organize] works on the editor's text
    and never looks at the file system: on any other file system the run is
    the same. *)
Theorem organize_open_ignores_disk :
  forall p cfg w e files,
    openedEditor w p = Some e ->
    organize p cfg (withFiles files w)
    = (fst (organize p cfg w), withFiles files (snd (organize p cfg w))).
Proof.
  intros p cfg w e files Hopen. unfold openedEditor in Hopen.
  unfold organize, getWorkspaceRootDirectoryPath, getOpenedEditor,
    SourceCodeOrganizer_organizeSourceCode, applyEdit, log, emit, bind, gets, ret, throw,
    mapDocuments.
  cbv beta iota zeta.
  change (workspaceFolders (withFiles files w)) with (workspaceFolders w).
  destruct (negb (shouldOrganize _)); [reflexivity|].
  cbv beta iota zeta.
  change (visibleTextEditors (withFiles files w)) with (visibleTextEditors w).
  rewrite Hopen. cbv beta iota zeta.
  destruct (organizeSourceCode p (Doc.getText e) cfg) as [err|out]; [reflexivity|].
  destruct (JsString.strict_neq out (Doc.getText e)); reflexivity.
Qed.

Lemma openEditor_eq p w :
  openEditor p w
  = match openedEditor w p with
    | Some e => (Returned e, w)
    | None =>
        match fs w p with
        | Some text =>
            (Returned (Doc.mkTextDocument p (languageIdOf p) text),
             mkWorld (settings w) (workspaceFolders w) (fs w)
               (visibleTextEditors w ++ [Doc.mkTextDocument p (languageIdOf p) text])
               (EvShowTextDocument p :: trace w))
        | None => (Thrown (IoError p), w)
        end
    end.
Proof.
  unfold openEditor, getOpenedEditor, bind at 1, gets. fold (openedEditor w p).
  destruct (openedEditor w p); [reflexivity|].
  unfold showTextDocument, bind, readFile, emit.
  destruct (fs w p); reflexivity.
Qed.

(** X7. [openEditor] and [getOpenedEditor] agree: the editor [openEditor]
    returns is the one [getOpenedEditor] finds afterwards, and opening again
    changes nothing. An editor that is found is returned without opening
    anything; one that is not found is opened on the text of the file; and
    when there is no such file the read error is the outcome and nothing
    changes. *)
Theorem openEditor_then_found :
  forall p w,
    (forall d w',
        openEditor p w = (Returned d, w') ->
        getOpenedEditor p w' = (Returned (Some d), w')
        /\ openEditor p w' = (Returned d, w')
        /\ (openedEditor w p = Some d /\ w' = w
            \/ openedEditor w p = None
               /\ fs w p = Some (Doc.getText d)
               /\ Doc.doc_fsPath d = p
               /\ visibleTextEditors w' = visibleTextEditors w ++ [d]))
    /\ (forall e w', openEditor p w = (Thrown e, w') ->
                     e = IoError p /\ w' = w /\ openedEditor w p = None /\ fs w p = None).
Proof.
  intros p w. rewrite openEditor_eq.
  destruct (openedEditor w p) as [e|] eqn:Hopen.
  - split; [|intros e0 w0 Hx; discriminate Hx].
    intros d w' [= <- <-]. split; [|split].
    + unfold getOpenedEditor, gets. fold (openedEditor w p). now rewrite Hopen.
    + now rewrite openEditor_eq, Hopen.
    + now left.
  - destruct (fs w p) as [text|] eqn:Hfile.
    + split; [|intros e0 w0 Hx; discriminate Hx].
      intros d w' [= <- <-].
      set (d := Doc.mkTextDocument p (languageIdOf p) text).
      set (w' := mkWorld (settings w) (workspaceFolders w) (fs w)
                   (visibleTextEditors w ++ [d]) (EvShowTextDocument p :: trace w)).
      assert (Hfound : openedEditor w' p = Some d).
      { unfold openedEditor in *. subst w'. cbn [visibleTextEditors].
        apply find_app_none; [exact Hopen | apply String.eqb_refl]. }
      split; [|split].
      * unfold getOpenedEditor, gets. fold (openedEditor w' p). now rewrite Hfound.
      * now rewrite openEditor_eq, Hfound.
      * right. repeat split.
    + split; [intros d w0 Hx; discriminate Hx|].
      intros e w' [= <- <-]. repeat split.
Qed.

End OrganizeExtras.

(** ** Configuration discovery and the save hook, whatever the outcome *)

Section DiscoveryExtras.

Context {H : Host}.

(** X8. Looking for a configuration is read-only: whatever the outcome, the
    world differs by log lines only (no document, file, setting, edit or
    call of the organizer), and the outcome is never an error. *)
Theorem getConfiguration_read_only :
  forall fuel cp w o w',
    getConfiguration fuel cp w = (o, w') ->
    (exists ms, w' = loggedAll ms w)
    /\ sameDocuments w w'
    /\ appliedEdits (trace w') = appliedEdits (trace w)
    /\ organizerCalls (trace w') = organizerCalls (trace w)
    /\ (forall e, o <> Thrown e).
Proof.
  intros fuel cp w o w' Hrun.
  destruct (getConfiguration_only_logs _ _ _ Hrun) as [[ms ->] Hno].
  split; [now exists ms|].
  split; [apply loggedAll_sameDocuments|].
  split; [apply loggedAll_appliedEdits|].
  split; [apply loggedAll_organizerCalls | exact Hno].
Qed.

Lemma getConfiguration_walk_same_files fuel :
  forall dir w1 w2,
    fs w1 = fs w2 ->
    fst (getConfiguration_walk fuel dir w1) = fst (getConfiguration_walk fuel dir w2).
Proof.
  induction fuel as [|fuel IH]; intros dir w1 w2 Hfs; simpl;
    destruct (String.eqb dir (getDirectoryPath dir)); try reflexivity.
  unfold bind, fileExists, gets, isFile. rewrite Hfs.
  destruct (fs w2 _); [simpl; now rewrite ?Hfs|]. now apply IH.
Qed.

Lemma getConfiguration_fromWorkspace_same_files fuel w1 w2 :
  fs w1 = fs w2 ->
  workspaceRoot w1 = workspaceRoot w2 ->
  fst (getConfiguration_fromWorkspace fuel w1) = fst (getConfiguration_fromWorkspace fuel w2).
Proof.
  intros Hfs Hroot.
  unfold getConfiguration_fromWorkspace, getWorkspaceRootDirectoryPath,
    bind, fileExists, gets, isFile.
  fold (workspaceRoot w1). fold (workspaceRoot w2). rewrite Hroot, Hfs.
  destruct (fs w2 _); [simpl; now rewrite ?Hfs|]. now apply getConfiguration_walk_same_files.
Qed.

Lemma getConfiguration_same_files fuel cp w1 w2 :
  fs w1 = fs w2 ->
  workspaceRoot w1 = workspaceRoot w2 ->
  fst (getConfiguration fuel cp w1) = fst (getConfiguration fuel cp w2).
Proof.
  intros Hfs Hroot.
  unfold getConfiguration.
  destruct cp as [p|]; [|now apply getConfiguration_fromWorkspace_same_files].
  destruct (JsString.truthy p); [|now apply getConfiguration_fromWorkspace_same_files].
  unfold bind, fileExists, getWorkspaceRootDirectoryPath, gets, log, emit, isFile.
  rewrite Hfs. destruct (fs w2 p); [simpl; now rewrite ?Hfs|].
  fold (workspaceRoot w1). fold (workspaceRoot w2). rewrite Hroot, Hfs.
  destruct (fs w2 (joinPath (workspaceRoot w2) p)).
  { cbv beta iota. cbn [fst]. fold (workspaceRoot w1). fold (workspaceRoot w2).
    now rewrite Hfs, Hroot. }
  apply getConfiguration_fromWorkspace_same_files; [exact Hfs | exact Hroot].
Qed.

(** X9. The configuration found depends on the file system and on the
    workspace root (the first workspace folder) only: not on the editors, the
    settings object, the later folders of a multi-root workspace, or what
    happened before. *)
Theorem getConfiguration_depends_on_files_only :
  forall fuel cp w1 w2,
    fs w1 = fs w2 ->
    workspaceRoot w1 = workspaceRoot w2 ->
    fst (getConfiguration fuel cp w1) = fst (getConfiguration fuel cp w2).
Proof.
  intros fuel cp w1 w2. apply getConfiguration_same_files.
Qed.

Lemma onSave_edits_frame fuel ev p w o w' :
  onSave_edits fuel ev p w = (o, w') ->
  sameDocuments w w'
  /\ appliedEdits (trace w') = appliedEdits (trace w)
  /\ (organizerCalls (trace w') = organizerCalls (trace w)
      /\ (forall edits, o = Returned edits -> edits = [])
      \/ organizerCalls (trace w')
         = (p, Doc.getText (event_document ev)) :: organizerCalls (trace w)
         /\ (forall edits, o = Returned edits ->
               edits = []
               \/ exists out,
                   edits = [Doc.mkTextEdit (Doc.wholeRange (event_document ev)) out]
                   /\ out <> Doc.getText (event_document ev))).
Proof.
  destruct (getConfiguration fuel (configurationFilePath (settings w)) w)
    as [o1 w2] eqn:Hcfg.
  destruct (getConfiguration_only_logs _ _ _ Hcfg) as [[ms Hms] Hno].
  assert (Hsame : sameDocuments w w2) by (rewrite Hms; apply loggedAll_sameDocuments).
  assert (Hedits : appliedEdits (trace w2) = appliedEdits (trace w))
    by (rewrite Hms; apply loggedAll_appliedEdits).
  assert (Hcalls : organizerCalls (trace w2) = organizerCalls (trace w))
    by (rewrite Hms; apply loggedAll_organizerCalls).
  destruct o1 as [cfg|e|].
  - rewrite (onSave_edits_eq _ _ _ _ Hcfg).
    destruct (negb (passesFilter w2 p cfg)).
    + intros [= <- <-]. split; [|split].
      * eapply sameDocuments_trans; [|apply sameDocuments_withEvent]. exact Hsame.
      * exact Hedits.
      * left. split; [exact Hcalls|]. now intros edits [= <-].
    + cbv zeta. destruct (organizeSourceCode p _ cfg) as [e|out].
      * intros [= <- <-]. split; [|split].
        -- eapply sameDocuments_trans; [|apply sameDocuments_withEvent]. exact Hsame.
        -- exact Hedits.
        -- right. split; [cbn; now rewrite Hcalls | discriminate].
      * destruct (JsString.strict_neq out _) eqn:Hneq; intros [= <- <-];
          (split; [|split];
           [ eapply sameDocuments_trans; [|apply sameDocuments_withEvent];
             eapply sameDocuments_trans; [|apply sameDocuments_withEvent]; exact Hsame
           | exact Hedits
           | right; split; [cbn; now rewrite Hcalls|] ]).
        -- intros edits [= <-]. right. exists out. split; [reflexivity|].
           intros ->. unfold JsString.strict_neq in Hneq.
           now rewrite String.eqb_refl in Hneq.
        -- intros edits [= <-]. now left.
  - now elim (Hno e).
  - unfold onSave_edits, bind at 1, gets at 1. unfold bind at 1. rewrite Hcfg.
    intros [= <- <-]. split; [exact Hsame|]. split; [exact Hedits|].
    left. split; [exact Hcalls | discriminate].
Qed.

(** X10. The save hook never edits anything itself, whatever its outcome: it
    changes no document, file or setting and applies no edit. It calls the
    organizer at most once, on the text of the document being saved, and the
    edits it hands over are none or one replacement of the whole document by
    a text that differs from it. *)
Theorem onSave_only_proposes :
  forall fuel ev w r w',
    onSave fuel ev w = (r, w') ->
    let d := event_document ev in
    sameDocuments w w'
    /\ appliedEdits (trace w') = appliedEdits (trace w)
    /\ (organizerCalls (trace w') = organizerCalls (trace w)
        \/ organizerCalls (trace w')
           = (getFullPath (Doc.doc_fsPath d), Doc.getText d) :: organizerCalls (trace w))
    /\ (forall edits, r = Some (Returned edits) ->
          edits = []
          \/ exists out, edits = [Doc.mkTextEdit (Doc.wholeRange d) out]
                         /\ out <> Doc.getText d
                         /\ Doc.replaceRange (Doc.getText d) (Doc.wholeRange d) out = out).
Proof.
  intros fuel ev w r w' Hrun d.
  destruct (organizeOnSave (settings w)) eqn:Hon.
  2:{ rewrite onSave_unguarded in Hrun by auto. injection Hrun as <- <-.
      repeat split; auto. discriminate. }
  destruct (String.eqb_spec (Doc.doc_languageId (event_document ev)) "typescript")
    as [Hl|Hl].
  2:{ rewrite onSave_unguarded in Hrun by auto. injection Hrun as <- <-.
      repeat split; auto. discriminate. }
  destruct (matches "**/*.ts" (getFullPath (Doc.doc_fsPath (event_document ev)))) eqn:Hg.
  2:{ rewrite onSave_unguarded in Hrun by auto. injection Hrun as <- <-.
      repeat split; auto. discriminate. }
  rewrite (onSave_guarded _ _ _ Hon Hl Hg) in Hrun.
  destruct (onSave_edits fuel ev (getFullPath (Doc.doc_fsPath (event_document ev)))
              (logged (onSave_message ev w) w)) as [o w2] eqn:Hedits.
  cbn [fst snd] in Hrun. injection Hrun as <- <-.
  destruct (onSave_edits_frame _ _ _ _ Hedits) as (Hsame & Happlied & Hcalls).
  split; [|split; [|split]].
  - eapply sameDocuments_trans; [apply sameDocuments_withEvent | exact Hsame].
  - exact Happlied.
  - destruct Hcalls as [[Hc _]|[Hc _]]; [left | right]; exact Hc.
  - intros edits [= ->].
    destruct Hcalls as [[_ Hnone]|[_ Hsome]].
    + left. now apply Hnone.
    + destruct (Hsome edits eq_refl) as [->|(out & -> & Hne)]; [now left|].
      right. exists out. repeat split; auto.
      apply (DocFacts.replace_wholeRange (event_document ev)).
Qed.

End DiscoveryExtras.

(** ** The commands [tsco.organizeAll] and [tsco.initialize] *)

Section CommandExtras.

Context {H : Host}.

Lemma organize_edit_count p cfg w b w' :
  organize p cfg w = (Returned b, w') ->
  List.length (appliedEdits (trace w'))
  = List.length (appliedEdits (trace w)) + (if b then 1 else 0).
Proof.
  intros Hrun. apply organize_run in Hrun.
  inversion Hrun; subst; simpl; lia.
Qed.

Lemma onOrganizeAll_loop_counts cfg found :
  forall files organized w n o w',
    onOrganizeAll_loop cfg found files organized w = (Returned (n, o), w') ->
    n = files + List.length found
    /\ organized <= o
    /\ o <= organized + List.length found
    /\ List.length (appliedEdits (trace w')) + organized
       = List.length (appliedEdits (trace w)) + o.
Proof.
  induction found as [|f rest IH]; intros files organized w n o w'; simpl.
  - intros [= <- <- <-]. repeat split; lia.
  - unfold bind at 1.
    destruct (organize (getFullPath f) cfg w) as [[b| |] w1] eqn:Hrun; try discriminate.
    intros Hloop. apply IH in Hloop.
    apply organize_edit_count in Hrun.
    destruct b; lia.
Qed.

(** X11. When [onOrganizeAll] comes back, the number of organized files in
    its message is the number of edits it applied, out of as many files as
    were found; it says that no file needed organizing exactly when it
    applied no edit. Both nouns of the message are plural as soon as more
    than one file was found. *)
Theorem onOrganizeAll_reports_edits :
  forall fuel found w message w',
    onOrganizeAll fuel found w = (Returned message, w') ->
    exists organized,
      List.length (appliedEdits (trace w'))
      = List.length (appliedEdits (trace w)) + organized
      /\ organized <= List.length found
      /\ message = onOrganizeAll_message (List.length found) organized
      /\ (organized = 0 <->
          message = "TypeScript Class Organizer did not find any files in need of organizing.").
Proof.
  intros fuel found w message w'.
  unfold onOrganizeAll, bind at 1, gets at 1. unfold bind at 1.
  destruct (getConfiguration fuel (configurationFilePath (settings w)) w)
    as [[cfg| |] w0] eqn:Hcfg; try discriminate.
  unfold bind at 1.
  destruct (onOrganizeAll_loop cfg found 0 0 w0) as [[[n o]| |] w1] eqn:Hloop;
    try discriminate.
  intros [= <- <-]. cbn [fst snd].
  destruct (getConfiguration_frame _ _ _ Hcfg) as (_ & Hedits & _).
  apply onOrganizeAll_loop_counts in Hloop.
  destruct Hloop as (-> & _ & Hle & Hcount).
  exists o. rewrite Hedits in Hcount. cbn [Nat.add] in *.
  repeat split; try lia.
  - intros ->. reflexivity.
  - unfold onOrganizeAll_message. destruct o as [|o']; [reflexivity|].
    change (Nat.ltb 0 (S o')) with true. cbv iota. simpl. discriminate.
Qed.

Lemma onOrganizeAll_loop_app cfg before :
  forall rest files organized w n o w1,
    onOrganizeAll_loop cfg before files organized w = (Returned (n, o), w1) ->
    onOrganizeAll_loop cfg (before ++ rest) files organized w
    = onOrganizeAll_loop cfg rest n o w1.
Proof.
  induction before as [|f before IH]; intros rest files organized w n o w1; simpl.
  - now intros [= <- <- <-].
  - unfold bind at 1 2.
    destruct (organize (getFullPath f) cfg w) as [[b| |] w'] eqn:Hrun; try discriminate.
    apply IH.
Qed.

(** X12. [onOrganizeAll] stops at the first file on which [organize] fails:
    the error is the outcome of the command, no message is shown, and the
    world is left as that failing run left it, so the files after it are not
    looked at. *)
Theorem onOrganizeAll_stops_at_first_error :
  forall fuel before failing rest w cfg w0 n o w1 e w2,
    getConfiguration fuel (configurationFilePath (settings w)) w = (Returned cfg, w0) ->
    onOrganizeAll_loop cfg before 0 0 w0 = (Returned (n, o), w1) ->
    organize (getFullPath failing) cfg w1 = (Thrown e, w2) ->
    onOrganizeAll fuel (before ++ failing :: rest) w = (Thrown e, w2).
Proof.
  intros fuel before failing rest w cfg w0 n o w1 e w2 Hcfg Hloop Hfail.
  unfold onOrganizeAll, bind at 1, gets at 1. unfold bind at 1. rewrite Hcfg.
  unfold bind at 1.
  rewrite (onOrganizeAll_loop_app _ _ (failing :: rest) _ _ _ Hloop).
  cbn [onOrganizeAll_loop]. unfold bind at 1. now rewrite Hfail.
Qed.

Variable stringify : Configuration -> string.

Lemma onInitialize_eq w :
  onInitialize stringify w
  = match workspaceFolders w with
    | Some (folder :: _) =>
        let p := joinPath (getFullPath folder) "tsco.json" in
        if isFile w p
        then (Returned
                (Some ("TypeScript Class Organizer configuration file already exists at "
                         ++ p ++ ".")%string), w)
        else
          let text := stringify Configuration_getDefaultConfiguration in
          (Returned
             (Some ("TypeScript Class Organizer created a default configuration file at "
                      ++ p ++ ".")%string),
           mkWorld (settings w) (workspaceFolders w)
             (fun q => if String.eqb q p then Some text else fs w q)
             (visibleTextEditors w ++ [Doc.mkTextDocument p (languageIdOf p) text])
             (EvShowTextDocument p :: trace w))
    | _ => (Returned None, w)
    end.
Proof.
  unfold onInitialize, bind at 1, gets at 1.
  destruct (workspaceFolders w) as [[|folder rest]|] eqn:Hfolders; try reflexivity.
  cbv zeta. unfold bind at 1, fileExists, gets.
  destruct (isFile w _); [reflexivity|].
  unfold bind, writeFile, showTextDocument, bind, readFile, emit, withFile, ret.
  cbn [fs settings workspaceFolders visibleTextEditors trace].
  rewrite String.eqb_refl, ?Hfolders. reflexivity.
Qed.


(** X14. After [onInitialize] in a workspace with a folder, the workspace has
    its own configuration file: [getConfiguration] with no configured path
    loads the [tsco.json] of the workspace root at once, without walking up
    or falling back to the default, and a second [onInitialize] only warns
    that the file exists and changes nothing. *)
Theorem onInitialize_then_discovered :
  forall w folder rest r w',
    workspaceFolders w = Some (folder :: rest) ->
    onInitialize stringify w = (r, w') ->
    let p := joinPath (getFullPath folder) "tsco.json" in
    (forall fuel,
        getConfiguration fuel None w'
        = (Returned (Configuration_getConfiguration (fs w') p), w'))
    /\ onInitialize stringify w'
       = (Returned
            (Some ("TypeScript Class Organizer configuration file already exists at "
                     ++ p ++ ".")%string), w').
Proof.
  intros w folder rest r w' Hfolders Hrun p.
  assert (Hstate : workspaceFolders w' = Some (folder :: rest) /\ isFile w' p = true).
  { rewrite onInitialize_eq, Hfolders in Hrun. cbv zeta in Hrun. fold p in Hrun.
    destruct (isFile w p) eqn:Hfile; injection Hrun as <- <-.
    - now split.
    - split; [reflexivity|]. unfold isFile. cbn [fs]. now rewrite String.eqb_refl. }
  destruct Hstate as [Hfolders' Hfile']. split.
  - intros fuel.
    unfold getConfiguration, getConfiguration_fromWorkspace,
      getWorkspaceRootDirectoryPath, bind, fileExists, gets.
    rewrite Hfolders'. fold p. now rewrite Hfile'.
  - rewrite onInitialize_eq, Hfolders'. cbv zeta. fold p. now rewrite Hfile'.
Qed.

End CommandExtras.

(** ** The command [tsco.organize], twice *)

Section OrganizeTwice.

Context {H : Host}.

Lemma sourceOf_sameDocuments w w' p :
  sameDocuments w w' -> sourceOf w' p = sourceOf w p.
Proof.
  intros (_ & _ & Hfs & Hed). unfold sourceOf, openedEditor. now rewrite Hed, Hfs.
Qed.

(** A run that found nothing to do finds nothing to do in any world with the
    same documents. *)
Lemma organize_nothing_to_do p cfg w w2 w' :
  organize p cfg w = (Returned false, w2) ->
  sameDocuments w w' ->
  exists w3,
    organize p cfg w' = (Returned false, w3)
    /\ appliedEdits (trace w3) = appliedEdits (trace w').
Proof.
  intros Hrun Hsame. apply organize_run in Hrun.
  pose proof (passesFilter_sameDocuments p cfg Hsame) as Hpf.
  pose proof (sourceOf_sameDocuments p Hsame) as Hso.
  inversion Hrun; subst.
  - assert (Hf' : passesFilter w' p cfg = false) by congruence.
    destruct (organize_filtered _ _ _ Hf') as [m' ->]. eexists. split; reflexivity.
  - assert (Hf' : passesFilter w' p cfg = true) by congruence.
    assert (Hs' : sourceOf w' p = Some src) by congruence.
    match goal with Hc : organizeSourceCode p src cfg = inr src |- _ =>
      destruct (organize_unchanged _ _ _ Hf' Hs' Hc) as [m' ->] end.
    eexists. split; reflexivity.
Qed.

Lemma onOrganize_eq fuel arg w :
  onOrganize fuel arg w
  = match arg with
    | path p =>
        if (JsString.truthy p && matches "**/*.ts" (getFullPath p)
            && isFile w (getFullPath p))%bool
        then bind (getConfiguration fuel (configurationFilePath (settings w)))
                  (fun configuration => organize (getFullPath p) configuration) w
        else (Returned false, w)
    | _ => (Returned false, w)
    end.
Proof.
  unfold onOrganize. destruct arg as [| |p]; try reflexivity.
  destruct (JsString.truthy p); [|reflexivity].
  destruct (matches "**/*.ts" (getFullPath p)); [|reflexivity].
  unfold bind at 1, fileExists, gets at 1.
  destruct (isFile w (getFullPath p)); reflexivity.
Qed.

(** X15. With an organizer that, under the configuration found, returns its
    own output unchanged, running the command [tsco.organize] again on the
    same file reports that nothing was organized and applies no edit,
    whatever the first run did. *)
Theorem onOrganize_again :
  forall fuel arg w b w1,
    (forall cfg w0,
        getConfiguration fuel (configurationFilePath (settings w)) w = (Returned cfg, w0) ->
        forall p s out, organizeSourceCode p s cfg = inr out ->
                        organizeSourceCode p out cfg = inr out) ->
    onOrganize fuel arg w = (Returned b, w1) ->
    exists w2,
      onOrganize fuel arg w1 = (Returned false, w2)
      /\ appliedEdits (trace w2) = appliedEdits (trace w1).
Proof.
  intros fuel arg w b w1 Hidem Hrun.
  rewrite onOrganize_eq in Hrun. rewrite onOrganize_eq.
  destruct arg as [| |p];
    try (injection Hrun as <- <-; eexists; split; reflexivity).
  destruct (JsString.truthy p && matches "**/*.ts" (getFullPath p))%bool.
  2:{ cbn [andb] in *. injection Hrun as <- <-. eexists. split; reflexivity. }
  cbn [andb] in *.
  destruct (isFile w (getFullPath p)) eqn:Hf.
  2:{ injection Hrun as <- <-. rewrite Hf. eexists. split; reflexivity. }
  unfold bind in Hrun.
  destruct (getConfiguration fuel (configurationFilePath (settings w)) w)
    as [[cfg| |] w0] eqn:Hcfg; try discriminate.
  destruct (getConfiguration_frame _ _ _ Hcfg) as (Hsame0 & _ & _).
  (* the first run of organize, and the run right after it *)
  assert (Hag := @organize_again H cfg (Hidem cfg w0 eq_refl)).
  destruct (Hag _ _ _ _ Hrun) as (w2 & Hagain & _ & _).
  (* the world after the first run has the same files and the same root *)
  assert (Hkeep : settings w1 = settings w0 /\ workspaceFolders w1 = workspaceFolders w0
                  /\ fs w1 = fs w0).
  { apply organize_run in Hrun. inversion Hrun; subst; repeat split. }
  destruct Hkeep as (Hset & Hws & Hfs).
  destruct Hsame0 as (Hset0 & Hws0 & Hfs0 & _).
  assert (Hf1 : isFile w1 (getFullPath p) = true).
  { unfold isFile in *. now rewrite Hfs, Hfs0. }
  rewrite Hf1. unfold bind.
  destruct (getConfiguration fuel (configurationFilePath (settings w1)) w1)
    as [o1 w1'] eqn:Hcfg1.
  assert (Ho1 : o1 = Returned cfg).
  { assert (Hfst : fst (getConfiguration fuel (configurationFilePath (settings w1)) w1)
                   = fst (getConfiguration fuel (configurationFilePath (settings w)) w)).
    { rewrite Hset, Hset0. apply getConfiguration_same_files.
      - now rewrite Hfs, Hfs0.
      - unfold workspaceRoot. now rewrite Hws, Hws0. }
    rewrite Hcfg1, Hcfg in Hfst. exact Hfst. }
  subst o1.
  destruct (getConfiguration_frame _ _ _ Hcfg1) as (Hsame1 & Hedits1 & _).
  destruct (@organize_nothing_to_do (getFullPath p) cfg w1 w2 w1' Hagain Hsame1)
    as (w3 & Hthird & Hedits3).
  exists w3. split; [exact Hthird | congruence].
Qed.

(** X16. The filter looks at the patterns as sets: listing the include or
    exclude patterns in another order, or more than once, changes nothing. *)
Theorem filter_ignores_order :
  forall rel cfg cfg',
    (forall q, In q (files_include cfg) <-> In q (files_include cfg')) ->
    (forall q, In q (files_exclude cfg) <-> In q (files_exclude cfg')) ->
    shouldOrganize (shouldOrganizeFile rel cfg')
    = shouldOrganize (shouldOrganizeFile rel cfg).
Proof.
  intros rel cfg cfg' Hinc Hexc.
  assert (Hsame : forall (f : string -> bool) l l',
             (forall q, In q l <-> In q l') -> existsb f l' = existsb f l).
  { intros f l l' Hl.
    destruct (existsb f l) eqn:E.
    - apply existsb_exists in E. destruct E as (q & Hq & Hfq).
      apply existsb_exists. exists q. split; [now apply Hl | exact Hfq].
    - destruct (existsb f l') eqn:E'; [|reflexivity].
      apply existsb_exists in E'. destruct E' as (q & Hq & Hfq).
      assert (existsb f l = true) by (apply existsb_exists; exists q; split;
                                      [now apply Hl | exact Hfq]).
      congruence. }
  rewrite !shouldOrganizeFile_eq.
  rewrite (Hsame _ _ _ Hexc).
  destruct (files_include cfg) as [|i incs] eqn:Hi;
    destruct (files_include cfg') as [|i' incs'] eqn:Hi'.
  - reflexivity.
  - exfalso. apply (Hinc i'). now left.
  - exfalso. apply (Hinc i). now left.
  - now rewrite (Hsame _ _ _ Hinc).
Qed.

End OrganizeTwice.

(** ** The further properties at work on the concrete host *)

Lemma demo_loaded_readsBack : Core.ReadsBack Demo.parse DemoCommands.loaded.
Proof.
  intros s u. unfold Demo.parse.
  destruct (String.eqb s Demo.text1).
  - intros [= <-]. vm_compute. reflexivity.
  - destruct (String.eqb s Demo.text2); [|discriminate].
    intros [= <-]. vm_compute. reflexivity.
Qed.

Lemma demo_organizer_settles :
  forall cfg w0,
    @getConfiguration Demo.host 5 (configurationFilePath (settings Demo.world)) Demo.world
    = (Returned cfg, w0) ->
    forall p s out,
      @organizeSourceCode Demo.host p s cfg = inr out ->
      @organizeSourceCode Demo.host p out cfg = inr out.
Proof.
  intros cfg w0 Hcfg p s out.
  assert (Hl : cfg = DemoCommands.loaded).
  { vm_compute in Hcfg. injection Hcfg as <- _. reflexivity. }
  subst cfg.
  change (@organizeSourceCode Demo.host) with (Core.organizeSourceCode Demo.parse).
  unfold Core.organizeSourceCode.
  destruct (Core.organize Demo.parse p s DemoCommands.loaded) as [e|r] eqn:Hr;
    [discriminate|].
  intros [= <-].
  now rewrite (CoreFacts.organize_twice demo_loaded_readsBack _ _ Hr).
Qed.

Lemma organize_skip_names_reason_witness :
  exists r,
    @organize Demo.host "/w/src/a.d.ts" Demo.policy Demo.world
    = (Returned false,
       logged ("tsco skipping organizing /w/src/a.d.ts, because it " ++ r) Demo.world)
    /\ r = "matches file exclude patterns".
Proof.
  destruct (@organize_skip_names_reason Demo.host Demo.world "/w/src/a.d.ts"
              Demo.policy eq_refl) as (r & Hrun & [(_ & _ & Hno)|(Hr & _)]).
  - discriminate Hno.
  - exists r. split; [exact Hrun | exact Hr].
Defined.

Lemma filter_monotone_witness :
  shouldOrganize (@shouldOrganizeFile Demo.host "src/a.ts" DemoCommands.loaded) = true.
Proof.
  apply (proj1 (@filter_monotone Demo.host "src/a.ts"
                  DemoCommands.loaded DemoCommands.stricter)).
  - reflexivity.
  - intros q [].
  - reflexivity.
Defined.

Lemma filter_on_plain_path_witness :
  @withoutDotSegments "src/a.ts" = "src/a.ts"
  /\ shouldOrganize (@shouldOrganizeFile Demo.host "src/a.ts" Demo.policy) = true.
Proof.
  destruct (@filter_on_plain_path Demo.host "src/a.ts" Demo.policy eq_refl) as [Hc Hs].
  split; [exact Hc | exact Hs].
Defined.

Lemma organize_true_iff_edited_witness :
  exists (edits : list (string * Doc.Range * string)) (calls : list (string * string)),
    appliedEdits
      (trace (snd (@organize Demo.host "/w/src/a.ts" Demo.policy Demo.world)))
    = edits ++ []
    /\ List.length edits = 1
    /\ List.length calls <= 1.
Proof.
  destruct (@organize_true_iff_edited Demo.host "/w/src/a.ts" Demo.policy Demo.world
              (Returned true)
              (snd (@organize Demo.host "/w/src/a.ts" Demo.policy Demo.world))
              eq_refl)
    as (edits & calls & He & _ & Hl & Hc & _).
  exists edits, calls. split; [exact He|]. split; [exact Hl | exact Hc].
Defined.

(** Organizing [/w/src/a.ts] while the editor of [/w/src/A.ts] is the one
    visible: the editor is found by its path in lower case, and the edit
    goes to its document. *)
Example organize_edits_the_editor_found :
  appliedEdits
    (trace (snd (@organize Demo.host "/w/src/a.ts" Demo.policy
                   (mkWorld (mkSettings true None) (Some ["/w"]) Demo.files
                      [Doc.mkTextDocument "/w/src/A.ts" "typescript" Demo.text1] []))))
  = [("/w/src/A.ts",
      Doc.wholeRange (Doc.mkTextDocument "/w/src/A.ts" "typescript" Demo.text1),
      Demo.text2)].
Proof. reflexivity. Qed.

Lemma organize_leaves_the_rest_witness :
  fs (snd (@organize Demo.host "/w/src/a.ts" Demo.policy Demo.closedWorld)) = Demo.files
  /\ exists edits,
      appliedEdits
        (trace (snd (@organize Demo.host "/w/src/a.ts" Demo.policy Demo.closedWorld)))
      = edits ++ [].
Proof.
  destruct (@organize_leaves_the_rest Demo.host "/w/src/a.ts" Demo.policy Demo.closedWorld
              (Returned true)
              (snd (@organize Demo.host "/w/src/a.ts" Demo.policy Demo.closedWorld))
              eq_refl)
    as (_ & _ & Hfs & edits & shown & Hedits & _).
  split; [exact Hfs|]. exists edits. exact Hedits.
Defined.

Lemma organize_open_ignores_disk_witness :
  fst (@organize Demo.host "/w/src/a.ts" Demo.policy
         (withFiles (fun _ => None) Demo.world))
  = Returned true.
Proof.
  rewrite (@organize_open_ignores_disk Demo.host "/w/src/a.ts" Demo.policy Demo.world
             (Demo.document Demo.text1) (fun _ => None) eq_refl).
  reflexivity.
Defined.

Lemma openEditor_then_found_witness :
  @getOpenedEditor Demo.host "/w/src/a.ts"
    (snd (@openEditor Demo.host "/w/src/a.ts" Demo.closedWorld))
  = (Returned (Some (Demo.document Demo.text1)),
     snd (@openEditor Demo.host "/w/src/a.ts" Demo.closedWorld)).
Proof.
  exact (proj1 (proj1 (@openEditor_then_found Demo.host "/w/src/a.ts" Demo.closedWorld)
                  (Demo.document Demo.text1)
                  (snd (@openEditor Demo.host "/w/src/a.ts" Demo.closedWorld))
                  eq_refl)).
Defined.

Lemma getConfiguration_read_only_witness :
  visibleTextEditors (snd (@getConfiguration Demo.host 5 (Some "nope.json") Demo.world))
  = visibleTextEditors Demo.world.
Proof.
  destruct (@getConfiguration_read_only Demo.host 5 (Some "nope.json") Demo.world
              (fst (@getConfiguration Demo.host 5 (Some "nope.json") Demo.world))
              (snd (@getConfiguration Demo.host 5 (Some "nope.json") Demo.world))
              eq_refl)
    as (_ & Hsame & _).
  apply Hsame.
Defined.

Lemma getConfiguration_depends_on_files_only_witness :
  fst (@getConfiguration Demo.host 5 None Demo.world)
  = fst (@getConfiguration Demo.host 5 None Demo.closedWorld).
Proof.
  exact (@getConfiguration_depends_on_files_only Demo.host 5 None
           Demo.world Demo.closedWorld eq_refl eq_refl).
Defined.

Lemma onSave_only_proposes_witness :
  appliedEdits (trace (snd (@onSave Demo.host 5 DemoCommands.saving Demo.world))) = []
  /\ visibleTextEditors (snd (@onSave Demo.host 5 DemoCommands.saving Demo.world))
     = visibleTextEditors Demo.world.
Proof.
  destruct (@onSave_only_proposes Demo.host 5 DemoCommands.saving Demo.world
              (fst (@onSave Demo.host 5 DemoCommands.saving Demo.world))
              (snd (@onSave Demo.host 5 DemoCommands.saving Demo.world))
              eq_refl)
    as (Hsame & Hedits & _).
  split; [exact Hedits | apply Hsame].
Defined.

Lemma onOrganizeAll_reports_edits_witness :
  exists organized,
    organized <= 2
    /\ "TypeScript Class Organizer organized 1 files out of 2 files."
       = onOrganizeAll_message 2 organized.
Proof.
  destruct (@onOrganizeAll_reports_edits Demo.host 5 ["/w/src/a.ts"; "/w/src/a.ts"]
              Demo.world
              "TypeScript Class Organizer organized 1 files out of 2 files."
              (snd (@onOrganizeAll Demo.host 5 ["/w/src/a.ts"; "/w/src/a.ts"] Demo.world))
              eq_refl)
    as (organized & _ & Hle & Hmsg & _).
  exists organized. split; [exact Hle | exact Hmsg].
Defined.

Lemma onOrganizeAll_stops_at_first_error_witness :
  @onOrganizeAll Demo.host 5 ["/w/src/a.ts"; "/w/src/broken.ts"; "/w/src/a.d.ts"]
    Demo.closedWorld
  = (Thrown (ParseError "/w/src/broken.ts"),
     snd (@organize Demo.host "/w/src/broken.ts" DemoCommands.loaded
            (snd (@onOrganizeAll_loop Demo.host DemoCommands.loaded ["/w/src/a.ts"] 0 0
                    Demo.closedWorld)))).
Proof.
  exact (@onOrganizeAll_stops_at_first_error Demo.host 5
           ["/w/src/a.ts"] "/w/src/broken.ts" ["/w/src/a.d.ts"]
           Demo.closedWorld DemoCommands.loaded Demo.closedWorld 1 1
           (snd (@onOrganizeAll_loop Demo.host DemoCommands.loaded ["/w/src/a.ts"] 0 0
                   Demo.closedWorld))
           (ParseError "/w/src/broken.ts")
           (snd (@organize Demo.host "/w/src/broken.ts" DemoCommands.loaded
                   (snd (@onOrganizeAll_loop Demo.host DemoCommands.loaded
                           ["/w/src/a.ts"] 0 0 Demo.closedWorld))))
           eq_refl eq_refl eq_refl).
Defined.


Lemma onInitialize_then_discovered_witness :
  fst (@getConfiguration Demo.host 0 None
         (snd (@onInitialize Demo.host DemoCommands.stringify Demo.closedWorld)))
  = Returned (Core.mkConfiguration ["**/*.ts"] []
                (Core.sections Demo.policy) (Core.memberSections Demo.policy)).
Proof.
  destruct (@onInitialize_then_discovered Demo.host DemoCommands.stringify
              Demo.closedWorld "/w" []
              (fst (@onInitialize Demo.host DemoCommands.stringify Demo.closedWorld))
              (snd (@onInitialize Demo.host DemoCommands.stringify Demo.closedWorld))
              eq_refl eq_refl)
    as (Hfound & _).
  rewrite (Hfound 0). reflexivity.
Defined.

Lemma onOrganize_again_witness :
  exists w2,
    @onOrganize Demo.host 5 (path "src/a.ts")
      (snd (@onOrganize Demo.host 5 (path "src/a.ts") Demo.world))
    = (Returned false, w2).
Proof.
  destruct (@onOrganize_again Demo.host 5 (path "src/a.ts") Demo.world true
              (snd (@onOrganize Demo.host 5 (path "src/a.ts") Demo.world))
              demo_organizer_settles eq_refl)
    as (w2 & Hrun & _).
  exists w2. exact Hrun.
Defined.

Lemma filter_ignores_order_witness :
  shouldOrganize (@shouldOrganizeFile Demo.host "src/a.ts" DemoCommands.repeated)
  = shouldOrganize (@shouldOrganizeFile Demo.host "src/a.ts" Demo.policy).
Proof.
  apply (@filter_ignores_order Demo.host "src/a.ts" Demo.policy DemoCommands.repeated).
  - intros q. split.
    + intros [Hq|[]]. left. exact Hq.
    + intros [Hq|[Hq|[]]]; left; exact Hq.
  - intros q. split; intros Hq; exact Hq.
Defined.
